(** * GymFlow: local-first data layer and workout session machine

    A shallow embedding of
    - [database.js]        (class [Database], the IndexedDB wrapper; two copies
                            live in the repository, schema versions 2 and 3),
    - [firebase-config.js] ([initFirebase], [firebaseDB.add], [firebaseDB.update]),
    - [db-adapter.js]      ([initDatabase], [getDB], the [database] object; two
                            copies that differ in [initDatabase] only),
    - [modules/workouts.js] (class [WorkoutsManager], the session state machine),
    followed by the properties of the specification that were checked
    against them.

    Asynchronous functions are modelled in a state-and-exception monad over
    a [World]: an [await] is a bind, a rejected promise is [Throw], and a
    [try]/[catch] is [try_catch].  In Parts II to V a call runs to
    completion on the world it is given; Part V-b adds [syncToCloud] with
    the other tasks of the page running at its [await]s.  Weights, volumes
    and percentages are IEEE 754 doubles, as JavaScript numbers are. *)

From Stdlib Require Import PrimFloat.
From Stdlib Require SpecFloat FloatOps.
From stdpp Require Import gmap strings list fin_maps sorting pretty.
From Stdlib Require Import ZArith Lia.

Set Warnings "-register-all,-inexact-float".
#[local] Open Scope string_scope.
#[local] Open Scope list_scope.
#[local] Open Scope Z_scope.

(* ===================================================================== *)
(** * Part I.  JavaScript values, records and the monad                   *)
(* ===================================================================== *)

(** JavaScript values as they occur in stored records.  Numbers are the
    integer-valued ones (ids, counters); a missing property is a missing
    key of the map and reads as [VUndef]. *)
Inductive value :=
| VUndef
| VNull
| VBool (b : bool)
| VNum (n : Z)
| VStr (s : string)
| VArr (l : list value)
| VObj (o : gmap string value).

(** A record (plain JS object). *)
Abbreviation obj := (gmap string value).

(** [!v] is [negb (truthy v)]; reading a property gives [option value]. *)
Definition truthy (v : option value) : bool :=
  match v with
  | None | Some VUndef | Some VNull => false
  | Some (VBool b) => b
  | Some (VNum n) => negb (n =? 0)
  | Some (VStr s) => negb (String.eqb s "")
  | Some (VArr _) | Some (VObj _) => true
  end.

(** Errors that reject a promise. *)
Inductive exn :=
| TypeError            (* property access on null *)
| NotFoundError        (* IndexedDB: no such object store or index *)
| DataError            (* IndexedDB: no valid key *)
| ConstraintError      (* IndexedDB: key already present *)
| VersionError         (* IndexedDB: stored version is newer *)
| OpenDenied           (* IndexedDB: the platform refuses access *)
| ImportError          (* dynamic import() failed *)
| FirebaseError (code : string).

Inductive log_entry :=
| Log (msg : string)
| Warn (msg : string)
| Error (msg : string) (e : option exn).

(** ** IndexedDB, the platform under [database.js] *)

(** Valid IndexedDB keys among the values we model. *)
Inductive key := KNum (n : Z) | KStr (s : string).

#[global] Instance key_eq_dec : EqDecision key.
Proof. solve_decision. Defined.

#[global] Instance key_countable : Countable key.
Proof.
  refine (inj_countable'
            (fun k => match k with KNum n => inl n | KStr s => inr s end)
            (fun x => match x with inl n => KNum n | inr s => KStr s end) _).
  by intros [].
Defined.

Definition to_key (v : option value) : option key :=
  match v with
  | Some (VNum n) => Some (KNum n)
  | Some (VStr s) => Some (KStr s)
  | _ => None
  end.

Definition of_key (k : key) : value :=
  match k with KNum n => VNum n | KStr s => VStr s end.

(** Key order of IndexedDB: numbers before strings, each ascending. *)
Definition key_leb (a b : key) : bool :=
  match a, b with
  | KNum x, KNum y => x <=? y
  | KNum _, KStr _ => true
  | KStr _, KNum _ => false
  | KStr x, KStr y => String.leb x y
  end.

(** One object store: its key generator and its rows, each row under
    its in-line key.  Key path, auto-increment flag and indexes are fixed
    by the schema below.  The uniqueness of the [email] index of [users]
    is one more way for a write to be refused; it is not modelled, and
    the properties about a failing write hold for every cause. *)
Record ObjectStore := {
  keygen : Z;
  rows : gmap key obj
}.

(** Everything a call can read or change. *)
Record World := {
  (* the browser *)
  idb_version : Z;                         (* 0: database does not exist yet *)
  idb : gmap string ObjectStore;           (* object stores of 'mfit_personal' *)
  console : list log_entry;
  ticks : nat;                             (* external calls made so far *)
  (* database.js: the singleton [db] *)
  db_handle : bool;                        (* this.db !== null *)
  db_isReady : bool;
  (* Firestore: documents created so far, (collection, id, data) *)
  cloud_docs : list (string * string * obj);
  (* Firestore: updateDoc calls that succeeded, (collection, data.id, fields) *)
  cloud_updates : list (string * option value * obj);
  (* db-adapter.js: module-level state *)
  firebaseModule : bool;                   (* false: null, true: loaded *)
  useFirebase : bool;
  useCloud : bool;
  isFirebaseReady : bool;
  adapter_isReady : bool
}.

(** What the outside decides: the clock, the platform and the network.
    Each oracle is asked with the number of external calls made so far;
    the clock reading is one value, no property here compares
    timestamps. *)
Record Env := {
  now : string;                                   (* new Date().toISOString() *)
  idb_open_ok : nat -> bool;                      (* indexedDB.open is granted *)
  import_ok : nat -> bool;                        (* import('./firebase-config.js') *)
  sdk_init_ok : nat -> bool;                      (* the Firebase SDK calls of initFirebase *)
  cloud_add : nat -> string -> obj -> exn + string;   (* addDoc: error or new id *)
  cloud_update : nat -> string -> obj -> option exn   (* updateDoc: error or success *)
}.

Inductive result (A : Type) :=
| Ok (a : A)
| Throw (e : exn).
Arguments Ok {A} a.
Arguments Throw {A} e.

(** State always survives, also when the call throws. *)
Definition M (A : Type) : Type := World -> result A * World.

Definition ret {A} (a : A) : M A := fun w => (Ok a, w).
Definition throw {A} (e : exn) : M A := fun w => (Throw e, w).
Definition bind {A B} (m : M A) (f : A -> M B) : M B :=
  fun w => match m w with
           | (Ok a, w') => f a w'
           | (Throw e, w') => (Throw e, w')
           end.
Definition try_catch {A} (m : M A) (h : exn -> M A) : M A :=
  fun w => match m w with
           | (Ok a, w') => (Ok a, w')
           | (Throw e, w') => h e w'
           end.

Notation "'let*' x ':=' m 'in' k" := (bind m (fun x => k))
  (at level 10, x name, m at level 100, k at level 200).
Notation "m ';;' k" := (bind m (fun _ => k))
  (at level 100, k at level 200, right associativity).

(** [for (const x of l) { await body(x) }] *)
Fixpoint for_each {A} (l : list A) (body : A -> M unit) : M unit :=
  match l with
  | [] => ret tt
  | x :: l' => body x ;; for_each l' body
  end.

Definition get_world : M World := fun w => (Ok w, w).
Definition modify (f : World -> World) : M unit := fun w => (Ok tt, f w).

(** Field updates of the world. *)
Definition set_idb (i : gmap string ObjectStore) (w : World) : World :=
  {| idb_version := idb_version w; idb := i;
     console := console w; ticks := ticks w;
     db_handle := db_handle w; db_isReady := db_isReady w;
     cloud_docs := cloud_docs w; cloud_updates := cloud_updates w;
     firebaseModule := firebaseModule w; useFirebase := useFirebase w;
     useCloud := useCloud w; isFirebaseReady := isFirebaseReady w;
     adapter_isReady := adapter_isReady w |}.

Definition set_idb_version (v : Z) (w : World) : World :=
  {| idb_version := v; idb := idb w;
     console := console w; ticks := ticks w;
     db_handle := db_handle w; db_isReady := db_isReady w;
     cloud_docs := cloud_docs w; cloud_updates := cloud_updates w;
     firebaseModule := firebaseModule w; useFirebase := useFirebase w;
     useCloud := useCloud w; isFirebaseReady := isFirebaseReady w;
     adapter_isReady := adapter_isReady w |}.

Definition set_console (c : list log_entry) (w : World) : World :=
  {| idb_version := idb_version w; idb := idb w;
     console := c; ticks := ticks w;
     db_handle := db_handle w; db_isReady := db_isReady w;
     cloud_docs := cloud_docs w; cloud_updates := cloud_updates w;
     firebaseModule := firebaseModule w; useFirebase := useFirebase w;
     useCloud := useCloud w; isFirebaseReady := isFirebaseReady w;
     adapter_isReady := adapter_isReady w |}.

Definition set_ticks (n : nat) (w : World) : World :=
  {| idb_version := idb_version w; idb := idb w;
     console := console w; ticks := n;
     db_handle := db_handle w; db_isReady := db_isReady w;
     cloud_docs := cloud_docs w; cloud_updates := cloud_updates w;
     firebaseModule := firebaseModule w; useFirebase := useFirebase w;
     useCloud := useCloud w; isFirebaseReady := isFirebaseReady w;
     adapter_isReady := adapter_isReady w |}.

Definition set_db_open (w : World) : World :=
  {| idb_version := idb_version w; idb := idb w;
     console := console w; ticks := ticks w;
     db_handle := true; db_isReady := true;
     cloud_docs := cloud_docs w; cloud_updates := cloud_updates w;
     firebaseModule := firebaseModule w; useFirebase := useFirebase w;
     useCloud := useCloud w; isFirebaseReady := isFirebaseReady w;
     adapter_isReady := adapter_isReady w |}.

Definition set_cloud_docs (d : list (string * string * obj)) (w : World) : World :=
  {| idb_version := idb_version w; idb := idb w;
     console := console w; ticks := ticks w;
     db_handle := db_handle w; db_isReady := db_isReady w;
     cloud_docs := d; cloud_updates := cloud_updates w;
     firebaseModule := firebaseModule w; useFirebase := useFirebase w;
     useCloud := useCloud w; isFirebaseReady := isFirebaseReady w;
     adapter_isReady := adapter_isReady w |}.

Definition set_cloud_updates (u : list (string * option value * obj)) (w : World) : World :=
  {| idb_version := idb_version w; idb := idb w;
     console := console w; ticks := ticks w;
     db_handle := db_handle w; db_isReady := db_isReady w;
     cloud_docs := cloud_docs w; cloud_updates := u;
     firebaseModule := firebaseModule w; useFirebase := useFirebase w;
     useCloud := useCloud w; isFirebaseReady := isFirebaseReady w;
     adapter_isReady := adapter_isReady w |}.

Definition set_firebaseModule (b : bool) (w : World) : World :=
  {| idb_version := idb_version w; idb := idb w;
     console := console w; ticks := ticks w;
     db_handle := db_handle w; db_isReady := db_isReady w;
     cloud_docs := cloud_docs w; cloud_updates := cloud_updates w;
     firebaseModule := b; useFirebase := useFirebase w;
     useCloud := useCloud w; isFirebaseReady := isFirebaseReady w;
     adapter_isReady := adapter_isReady w |}.

Definition set_useFirebase (b : bool) (w : World) : World :=
  {| idb_version := idb_version w; idb := idb w;
     console := console w; ticks := ticks w;
     db_handle := db_handle w; db_isReady := db_isReady w;
     cloud_docs := cloud_docs w; cloud_updates := cloud_updates w;
     firebaseModule := firebaseModule w; useFirebase := b;
     useCloud := useCloud w; isFirebaseReady := isFirebaseReady w;
     adapter_isReady := adapter_isReady w |}.

Definition set_useCloud (b : bool) (w : World) : World :=
  {| idb_version := idb_version w; idb := idb w;
     console := console w; ticks := ticks w;
     db_handle := db_handle w; db_isReady := db_isReady w;
     cloud_docs := cloud_docs w; cloud_updates := cloud_updates w;
     firebaseModule := firebaseModule w; useFirebase := useFirebase w;
     useCloud := b; isFirebaseReady := isFirebaseReady w;
     adapter_isReady := adapter_isReady w |}.

Definition set_isFirebaseReady (b : bool) (w : World) : World :=
  {| idb_version := idb_version w; idb := idb w;
     console := console w; ticks := ticks w;
     db_handle := db_handle w; db_isReady := db_isReady w;
     cloud_docs := cloud_docs w; cloud_updates := cloud_updates w;
     firebaseModule := firebaseModule w; useFirebase := useFirebase w;
     useCloud := useCloud w; isFirebaseReady := b;
     adapter_isReady := adapter_isReady w |}.

Definition set_adapter_isReady (b : bool) (w : World) : World :=
  {| idb_version := idb_version w; idb := idb w;
     console := console w; ticks := ticks w;
     db_handle := db_handle w; db_isReady := db_isReady w;
     cloud_docs := cloud_docs w; cloud_updates := cloud_updates w;
     firebaseModule := firebaseModule w; useFirebase := useFirebase w;
     useCloud := useCloud w; isFirebaseReady := isFirebaseReady w;
     adapter_isReady := b |}.

(** [console.log], [console.warn], [console.error] *)
Definition console_log (msg : string) : M unit :=
  modify (fun w => set_console (console w ++ [Log msg]) w).
Definition console_warn (msg : string) : M unit :=
  modify (fun w => set_console (console w ++ [Warn msg]) w).
Definition console_error (msg : string) (e : option exn) : M unit :=
  modify (fun w => set_console (console w ++ [Error msg e]) w).

(** One external call: read the tick, advance it. *)
Definition tick : M nat :=
  fun w => (Ok (ticks w), set_ticks (S (ticks w)) w).

(* ===================================================================== *)
(** * Part II.  database.js: the Local Store                              *)
(* ===================================================================== *)

(** The repository holds two copies of [database.js].  [DbV3]
    ([DB_VERSION = 3]) has the [checkins] store and guards every operation
    with [if (!this.db)]; [DbV2] ([DB_VERSION = 2]) has neither. *)
Inductive db_copy := DbV2 | DbV3.

Definition DB_VERSION (c : db_copy) : Z :=
  match c with DbV2 => 2 | DbV3 => 3 end.

(** [Object.values(STORES)], in declaration order. *)
Definition STORES (c : db_copy) : list string :=
  match c with
  | DbV2 => ["users"; "workouts"; "exercises"; "history"; "assessments";
             "progress"; "students"; "settings"]
  | DbV3 => ["users"; "workouts"; "exercises"; "history"; "assessments";
             "progress"; "students"; "checkins"; "settings"]
  end.

(** The schema written by [onupgradeneeded]: [settings] is keyed by
    ['key'] without key generator, every other store by an auto-increment
    ['id']. *)
Definition keyPath (store : string) : string :=
  if decide (store = "settings") then "key" else "id".

Definition autoIncrement (store : string) : bool :=
  bool_decide (store <> "settings").

Definition indexNames (store : string) : list string :=
  if decide (store = "users") then ["email"; "type"]
  else if decide (store = "workouts") then ["userId"; "createdAt"]
  else if decide (store = "exercises") then ["muscle"; "equipment"]
  else if decide (store = "history") then ["userId"; "workoutId"; "date"]
  else if decide (store = "assessments") then ["userId"; "date"]
  else if decide (store = "students") then ["trainerId"]
  else if decide (store = "progress") then ["userId"; "date"]
  else if decide (store = "checkins") then ["userId"; "date"]
  else [].

Module IDB.

Definition empty_store : ObjectStore := {| keygen := 1; rows := ∅ |}.

(** [if (!db.objectStoreNames.contains(s)) db.createObjectStore(s, ...)]
    for every store of the copy: existing stores keep their rows. *)
Definition upgrade (c : db_copy) (i : gmap string ObjectStore)
  : gmap string ObjectStore :=
  foldr (fun s acc => match acc !! s with
                      | Some _ => acc
                      | None => <[s := empty_store]> acc
                      end) i (STORES c).

(** [this.db.transaction(storeName, mode).objectStore(storeName)] *)
Definition transaction (store : string) : M ObjectStore :=
  fun w => match idb w !! store with
           | Some os => (Ok os, w)
           | None => (Throw NotFoundError, w)
           end.

Definition commit (store : string) (os : ObjectStore) : M unit :=
  modify (fun w => set_idb (<[store := os]> (idb w)) w).

(** The key a value is stored under: its in-line key when it has one,
    the key generator's next number otherwise. *)
Definition resolve_key (store : string) (os : ObjectStore) (v : obj)
  : result key :=
  match v !! keyPath store with
  | None | Some VUndef =>
      if autoIncrement store then Ok (KNum (keygen os)) else Throw DataError
  | Some x =>
      match to_key (Some x) with
      | Some k => Ok k
      | None => Throw DataError
      end
  end.

(** The key generator moves past every number it has seen. *)
Definition next_keygen (store : string) (k : key) (g : Z) : Z :=
  match k with
  | KNum n => if autoIncrement store && (g <=? n) then n + 1 else g
  | KStr _ => g
  end.

Definition stored (store : string) (k : key) (v : obj) : obj :=
  <[keyPath store := of_key k]> v.

(** [store.add(value)]: fails when the key is taken. *)
Definition store_add (store : string) (v : obj) : M value :=
  let* os := transaction store in
  match resolve_key store os v with
  | Throw e => throw e
  | Ok k =>
      match rows os !! k with
      | Some _ => throw ConstraintError
      | None =>
          commit store {| keygen := next_keygen store k (keygen os);
                          rows := <[k := stored store k v]> (rows os) |} ;;
          ret (of_key k)
      end
  end.

(** [store.put(value)]: inserts or replaces. *)
Definition store_put (store : string) (v : obj) : M value :=
  let* os := transaction store in
  match resolve_key store os v with
  | Throw e => throw e
  | Ok k =>
      commit store {| keygen := next_keygen store k (keygen os);
                      rows := <[k := stored store k v]> (rows os) |} ;;
      ret (of_key k)
  end.

(** [store.get(id)]: the record, or [undefined]. *)
Definition store_get (store : string) (id : value) : M value :=
  let* os := transaction store in
  match to_key (Some id) with
  | None => throw DataError
  | Some k =>
      match rows os !! k with
      | Some o => ret (VObj (stored store k o))
      | None => ret VUndef
      end
  end.

Definition row_le (a b : key * obj) : Prop := key_leb a.1 b.1 = true.

#[global] Instance row_le_dec a b : Decision (row_le a b).
Proof. unfold row_le. apply _. Defined.

(** The rows of a store in key order, each with its in-line key. *)
Definition records (store : string) (os : ObjectStore) : list obj :=
  (fun kv => stored store kv.1 kv.2) <$> merge_sort row_le (map_to_list (rows os)).

(** [store.getAll()] *)
Definition store_getAll (store : string) : M (list obj) :=
  let* os := transaction store in
  ret (records store os).

(** [store.index(indexName).getAll(value)] *)
Definition index_getAll (store indexName : string) (v : value) : M (list obj) :=
  let* os := transaction store in
  if bool_decide (indexName ∈ indexNames store) then
    match to_key (Some v) with
    | None => throw DataError
    | Some k =>
        ret (filter (fun o => to_key (o !! indexName) = Some k) (records store os))
    end
  else throw NotFoundError.

(** [store.delete(id)] *)
Definition store_delete (store : string) (id : value) : M unit :=
  let* os := transaction store in
  match to_key (Some id) with
  | None => throw DataError
  | Some k => commit store {| keygen := keygen os; rows := delete k (rows os) |}
  end.

End IDB.

Module Database.

(** [async init()]: [indexedDB.open(DB_NAME, DB_VERSION)] with its three
    handlers. *)
Definition init (env : Env) (c : db_copy) : M unit :=
  let* t := tick in
  let* w := get_world in
  if negb (idb_open_ok env t) then
    console_error "[DB] Error opening database:" (Some OpenDenied) ;;
    throw OpenDenied
  else if DB_VERSION c <? idb_version w then
    console_error "[DB] Error opening database:" (Some VersionError) ;;
    throw VersionError
  else
    (if idb_version w <? DB_VERSION c then
       modify (fun w => set_idb_version (DB_VERSION c)
                          (set_idb (IDB.upgrade c (idb w)) w))
     else ret tt) ;;
    modify set_db_open.

(** What an operation does when [this.db] is still [null].  [DbV3]
    returns early with a warning; [DbV2] reaches [this.db.transaction]
    inside the promise executor, which rejects the promise. *)
Definition not_ready {A} (c : db_copy) (op : string) (benign : A) : M A :=
  match c with
  | DbV3 =>
      console_warn ("[DB] Database not initialized, skipping " +:+ op) ;;
      ret benign
  | DbV2 => throw TypeError
  end.

Definition add (env : Env) (c : db_copy) (storeName : string) (data : obj)
  : M value :=
  let* w := get_world in
  if negb (db_handle w) then not_ready c "add" VNull
  else IDB.store_add storeName (<["createdAt" := VStr (now env)]> data).

Definition get (c : db_copy) (storeName : string) (id : value) : M value :=
  let* w := get_world in
  if negb (db_handle w) then not_ready c "get" VNull
  else IDB.store_get storeName id.

Definition getAll (c : db_copy) (storeName : string) : M (list obj) :=
  let* w := get_world in
  if negb (db_handle w) then not_ready c "getAll" []
  else IDB.store_getAll storeName.

Definition getByIndex (c : db_copy) (storeName indexName : string) (v : value)
  : M (list obj) :=
  let* w := get_world in
  if negb (db_handle w) then not_ready c "getByIndex" []
  else IDB.index_getAll storeName indexName v.

Definition update (env : Env) (c : db_copy) (storeName : string) (data : obj)
  : M value :=
  let* w := get_world in
  if negb (db_handle w) then not_ready c "update" VNull
  else IDB.store_put storeName (<["updatedAt" := VStr (now env)]> data).

(** [delete] resolves with [undefined]: [VUndef] here. *)
Definition delete (c : db_copy) (storeName : string) (id : value) : M value :=
  let* w := get_world in
  if negb (db_handle w) then not_ready c "delete" VUndef
  else IDB.store_delete storeName id ;; ret VUndef.

End Database.

(* ===================================================================== *)
(** * Part III.  firebase-config.js: the Remote Store                     *)
(* ===================================================================== *)

(** [async function initFirebase()]: the whole body sits in a
    [try]/[catch] that turns every SDK failure into the result [false];
    it never throws.  The inner [try]/[catch] around
    [enableIndexedDbPersistence] only logs and is left out, and the
    messages are kept without their emoji. *)
Definition initFirebase (env : Env) : M bool :=
  let* t := tick in
  if sdk_init_ok env t then
    console_log "Firebase initialized" ;; ret true
  else
    console_error "Firebase initialization error:" (Some (FirebaseError "init")) ;;
    ret false.

Module FirebaseDB.

(** [firebaseDB.add]: [addDoc(collection(db, name), {...data, createdAt})],
    returns [docRef.id]. *)
Definition add (env : Env) (collectionName : string) (data : obj) : M string :=
  let* t := tick in
  let doc := <["createdAt" := VStr (now env)]> data in
  match cloud_add env t collectionName doc with
  | inl e => throw e
  | inr id =>
      modify (fun w => set_cloud_docs (cloud_docs w ++ [(collectionName, id, doc)]) w) ;;
      ret id
  end.

(** [firebaseDB.update]: [updateDoc(doc(db, name, String(data.id)),
    {...data, updatedAt})], returns [data]. *)
Definition update (env : Env) (collectionName : string) (data : obj) : M obj :=
  let* t := tick in
  let fields := <["updatedAt" := VStr (now env)]> data in
  match cloud_update env t collectionName fields with
  | Some e => throw e
  | None =>
      modify (fun w => set_cloud_updates
                         (cloud_updates w ++ [(collectionName, data !! "id", fields)]) w) ;;
      ret data
  end.

End FirebaseDB.

(* ===================================================================== *)
(** * Part IV.  db-adapter.js: the Sync Adapter                           *)
(* ===================================================================== *)

(** The two copies of [db-adapter.js]: [AdapterA] tests the result of
    [initFirebase], [AdapterB] does not.  Everything else in the
    [database] object is the same text in both. *)
Inductive adapter_copy := AdapterA | AdapterB.

(** Of the [database] object, [init], [add], [update], [enableCloud],
    [disableCloud], [isCloudEnabled] and [syncToCloud] are embedded here;
    the reads, [delete] and the settings helpers follow in Part V-b. *)
Module DbAdapter.

(** [firebaseModule = await import('./firebase-config.js')] *)
Definition import_firebase_config (env : Env) : M unit :=
  let* t := tick in
  if import_ok env t then modify (set_firebaseModule true)
  else throw ImportError.

Definition initDatabase (env : Env) (a : adapter_copy) (c : db_copy) : M bool :=
  Database.init env c ;;
  let* w := get_world in
  (if useCloud w then
     match a with
     | AdapterA =>
         try_catch
           (import_firebase_config env ;;
            let* success := initFirebase env in
            if success then
              modify (set_isFirebaseReady true) ;;
              modify (set_useFirebase true)
            else ret tt)
           (fun _ =>
              console_warn "Firebase not available, using local database only" ;;
              modify (set_useFirebase false))
     | AdapterB =>
         try_catch
           (import_firebase_config env ;;
            initFirebase env ;;
            modify (set_useFirebase true) ;;
            modify (set_isFirebaseReady true) ;;
            console_log "Firebase cloud sync enabled")
           (fun _ =>
              console_warn "Firebase not available, using local only:" ;;
              modify (set_useFirebase false))
     end
   else
     match a with
     | AdapterA => ret tt
     | AdapterB => modify (set_useFirebase false)
     end) ;;
  ret true.

(** [getDB()]: which backend serves the call. *)
Inductive backend := LocalDB | FirebaseDB.

Definition getDB (w : World) : backend :=
  if useFirebase w && firebaseModule w then FirebaseDB else LocalDB.

Definition init (env : Env) (a : adapter_copy) (c : db_copy) : M bool :=
  initDatabase env a c ;;
  modify (set_adapter_isReady true) ;;
  ret true.

Definition add (env : Env) (c : db_copy) (store : string) (data : obj) : M value :=
  let* w := get_world in
  let* id := match getDB w with
             | FirebaseDB => let* i := FirebaseDB.add env store data in ret (VStr i)
             | LocalDB => Database.add env c store data
             end in
  let* w' := get_world in
  (if useFirebase w' then
     Database.add env c store (<["cloudId" := id]> data) ;; ret tt
   else ret tt) ;;
  ret id.

Definition update (env : Env) (c : db_copy) (store : string) (data : obj) : M value :=
  let* w := get_world in
  let* r := match getDB w with
            | FirebaseDB => let* d := FirebaseDB.update env store data in ret (VObj d)
            | LocalDB => Database.update env c store data
            end in
  let* w' := get_world in
  (if useFirebase w' then
     Database.update env c store data ;; ret tt
   else ret tt) ;;
  ret r.

Definition enableCloud (env : Env) (a : adapter_copy) (c : db_copy) : M unit :=
  modify (set_useCloud true) ;;
  initDatabase env a c ;;
  ret tt.

Definition disableCloud : M unit :=
  modify (set_useCloud false) ;;
  modify (set_useFirebase false).

Definition isCloudEnabled (w : World) : bool := useFirebase w.

(** The body of the inner loop of [syncToCloud]. *)
Definition sync_item (env : Env) (c : db_copy) (store : string) (item : obj) : M unit :=
  if negb (truthy (item !! "cloudId")) then
    let* cloudId := FirebaseDB.add env store item in
    Database.update env c store (<["cloudId" := VStr cloudId]> item) ;;
    ret tt
  else ret tt.

(** The [try] block for one store. *)
Definition sync_store_body (env : Env) (c : db_copy) (store : string) : M unit :=
  let* localData := Database.getAll c store in
  for_each localData (sync_item env c store).

(** One turn of the outer loop: the [try] block and its [catch]. *)
Definition sync_store (env : Env) (c : db_copy) (store : string) : M unit :=
  try_catch (sync_store_body env c store)
            (fun e => console_error ("Error syncing " +:+ store +:+ ":") (Some e)).

Definition syncToCloud (env : Env) (c : db_copy) : M bool :=
  let* w := get_world in
  if negb (useFirebase w) || negb (firebaseModule w) then
    console_warn "Cloud sync not available" ;;
    ret false
  else
    for_each (STORES c) (sync_store env c) ;;
    ret true.

End DbAdapter.

(* ===================================================================== *)
(** * Part V.  modules/workouts.js: the workout session                   *)
(* ===================================================================== *)

Module WorkoutsManager.

(** A JavaScript number that is not known to be an integer: an IEEE 754
    binary64 value, with the rounded operations of the kernel's [float]. *)
Abbreviation double := PrimFloat.float.

(** The double nearest to an integer (exact below 2^53). *)
Definition double_of_Z (z : Z) : double :=
  FloatOps.SF2Prim (SpecFloat.binary_normalize FloatOps.prec FloatOps.emax z 0 false).

(** [Math.round(x)] for a finite [x]: the integer nearest to the exact
    value of [x], halves going up; [None] for [NaN] and the infinities. *)
Definition Math_round (x : double) : option Z :=
  match FloatOps.Prim2SF x with
  | SpecFloat.S754_zero _ => Some 0
  | SpecFloat.S754_finite s m e =>
      let n := if s then Zneg m else Zpos m in
      Some (if 0 <=? e then n * 2 ^ e else (2 * n + 2 ^ (- e)) / 2 ^ (1 - e))
  | _ => None
  end.

(** Instants are milliseconds since the epoch: [new Date().toISOString()]
    and [new Date(iso)] are inverse to each other at that precision.
    [logSet] receives [reps] and [weight] after [parseInt] and
    [parseFloat]: both are doubles, [NaN] for an input that does not
    start with a number. *)
Record SetLog := {
  setNumber : Z;
  reps : double;
  weight : double;
  timestamp : Z
}.

(** An exercise of a workout, and of a running session.  A missing
    [skipped] reads as [false]. *)
Record Exercise := {
  exerciseId : Z;
  name : string;
  sets : Z;                   (* target number of sets *)
  target_reps : string;       (* e.g. '8-12' *)
  rest : Z;
  completed : bool;
  skipped : bool;
  setsCompleted : Z;
  logsPerSet : list SetLog
}.

Record Workout := {
  workout_id : value;
  workout_name : string;
  workout_exercises : list Exercise
}.

(** [this.workoutSession]; the fields written by [finishSession] are
    [None] until then. *)
Record Session := {
  workoutId : value;
  workoutName : string;
  startTime : Z;
  endTime : option Z;
  exercises : list Exercise;
  userId : option value;
  durationMinutes : option Z;
  totalSets : option Z;
  totalVolume : option double;
  id : option value
}.

Record t := {
  currentWorkout : option Workout;
  workoutSession : option Session;
  currentExerciseIndex : nat
}.

(** What a method returns: [null], [undefined] or a value. *)
Inductive js (A : Type) :=
| Null
| Undefined
| Value (a : A).
Arguments Null {A}.
Arguments Undefined {A}.
Arguments Value {A} a.

(** What [finishSession] tells the user and the log. *)
Inductive report :=
| LoggerError (msg : string) (e : exn)
| ToastError (msg : string).

(** [constructor()] *)
Definition new : t :=
  {| currentWorkout := None; workoutSession := None; currentExerciseIndex := 0 |}.

(** [{...ex, completed: false, setsCompleted: 0, logsPerSet: []}] *)
Definition fresh (ex : Exercise) : Exercise :=
  {| exerciseId := exerciseId ex; name := name ex; sets := sets ex;
     target_reps := target_reps ex; rest := rest ex;
     completed := false; skipped := skipped ex;
     setsCompleted := 0; logsPerSet := [] |}.

Definition startSession (workout : Workout) (now : Z) (st : t) : Session * t :=
  let s := {| workoutId := workout_id workout;
              workoutName := workout_name workout;
              startTime := now; endTime := None;
              exercises := fresh <$> workout_exercises workout;
              userId := None; durationMinutes := None;
              totalSets := None; totalVolume := None; id := None |} in
  (s, {| currentWorkout := Some workout; workoutSession := Some s;
         currentExerciseIndex := 0 |}).

Definition getCurrentExercise (st : t) : js Exercise :=
  match workoutSession st with
  | None => Null
  | Some s =>
      match exercises s !! currentExerciseIndex st with
      | Some ex => Value ex
      | None => Undefined
      end
  end.

Definition set_exercises (exs : list Exercise) (s : Session) : Session :=
  {| workoutId := workoutId s; workoutName := workoutName s;
     startTime := startTime s; endTime := endTime s; exercises := exs;
     userId := userId s; durationMinutes := durationMinutes s;
     totalSets := totalSets s; totalVolume := totalVolume s; id := id s |}.

Definition set_session (s : option Session) (st : t) : t :=
  {| currentWorkout := currentWorkout st; workoutSession := s;
     currentExerciseIndex := currentExerciseIndex st |}.

Definition set_index (i : nat) (st : t) : t :=
  {| currentWorkout := currentWorkout st; workoutSession := workoutSession st;
     currentExerciseIndex := i |}.

(** The exercise after [push], [setsCompleted = length] and the
    completion test. *)
Definition logged (l : SetLog) (ex : Exercise) : Exercise :=
  let logs := logsPerSet ex ++ [l] in
  let n := Z.of_nat (length logs) in
  {| exerciseId := exerciseId ex; name := name ex; sets := sets ex;
     target_reps := target_reps ex; rest := rest ex;
     completed := if sets ex <=? n then true else completed ex;
     skipped := skipped ex;
     setsCompleted := n; logsPerSet := logs |}.

(** [logSet]: returns [undefined]; reading [logsPerSet] of a missing
    exercise is a [TypeError]. *)
Definition logSet (setNumber : Z) (reps weight : double) (now : Z) (st : t) : result t :=
  match workoutSession st with
  | None => Ok st
  | Some s =>
      match exercises s !! currentExerciseIndex st with
      | None => Throw TypeError
      | Some exercise =>
          let l := {| setNumber := setNumber; reps := reps;
                      weight := weight; timestamp := now |} in
          Ok (set_session
                (Some (set_exercises
                         (<[currentExerciseIndex st := logged l exercise]> (exercises s)) s))
                st)
      end
  end.

Definition nextExercise (st : t) : js Exercise * t :=
  match workoutSession st with
  | None => (Null, st)
  | Some s =>
      if Z.of_nat (currentExerciseIndex st) <? Z.of_nat (length (exercises s)) - 1 then
        let st' := set_index (S (currentExerciseIndex st)) st in
        (getCurrentExercise st', st')
      else (Null, st)
  end.

Definition previousExercise (st : t) : js Exercise * t :=
  match workoutSession st with
  | None => (Null, st)
  | Some s =>
      if 0 <? Z.of_nat (currentExerciseIndex st) then
        let st' := set_index (pred (currentExerciseIndex st)) st in
        (getCurrentExercise st', st')
      else (Null, st)
  end.

Definition skip (ex : Exercise) : Exercise :=
  {| exerciseId := exerciseId ex; name := name ex; sets := sets ex;
     target_reps := target_reps ex; rest := rest ex;
     completed := completed ex; skipped := true;
     setsCompleted := setsCompleted ex; logsPerSet := logsPerSet ex |}.

Definition skipExercise (st : t) : js Exercise * t :=
  match getCurrentExercise st, workoutSession st with
  | Value ex, Some s =>
      nextExercise
        (set_session
           (Some (set_exercises (<[currentExerciseIndex st := skip ex]> (exercises s)) s))
           st)
  | _, _ => nextExercise st
  end.

Definition finished (ex : Exercise) : bool := completed ex || skipped ex.

Definition isWorkoutComplete (st : t) : bool :=
  match workoutSession st with
  | None => false
  | Some s => forallb finished (exercises s)
  end.

(** [Math.round] of an exact quotient [n / d], [d > 0]: halves go up. *)
Definition round_div (n d : Z) : Z := (2 * n + d) / (2 * d).

(** [ex.logsPerSet.reduce((s, l) => s + (l.reps * l.weight), 0)], every
    product and every addition rounded to a double. *)
Definition exercise_volume (ex : Exercise) : double :=
  fold_left (fun s l => PrimFloat.add s (PrimFloat.mul (reps l) (weight l)))
            (logsPerSet ex) 0%float.

(** The statements of [finishSession] before its [try]. *)
Definition stamp (uid : value) (now : Z) (s : Session) : Session :=
  {| workoutId := workoutId s; workoutName := workoutName s;
     startTime := startTime s;
     endTime := Some now;
     exercises := exercises s;
     userId := Some uid;
     durationMinutes := Some (round_div (now - startTime s) 60000);
     totalSets := Some (fold_left (fun sum ex => sum + setsCompleted ex) (exercises s) 0);
     totalVolume :=
       Some (fold_left (fun sum ex => PrimFloat.add sum (exercise_volume ex))
                       (exercises s) 0%float);
     id := id s |}.

Definition with_id (historyId : value) (s : Session) : Session :=
  {| workoutId := workoutId s; workoutName := workoutName s;
     startTime := startTime s; endTime := endTime s; exercises := exercises s;
     userId := userId s; durationMinutes := durationMinutes s;
     totalSets := totalSets s; totalVolume := totalVolume s;
     id := Some historyId |}.

(** [finishSession(userId)].  [db_add] is what
    [await db.add(STORES.history, this.workoutSession)] does with the
    stamped session: it resolves with an id or it throws. *)
Definition finishSession (db_add : Session -> result value) (uid : value) (now : Z)
    (st : t) : js Session * t * list report :=
  match workoutSession st with
  | None => (Null, st, [])
  | Some s =>
      let s' := stamp uid now s in
      match db_add s' with
      | Ok historyId =>
          (Value (with_id historyId s'),
           {| currentWorkout := None; workoutSession := None;
              currentExerciseIndex := 0 |},
           [])
      | Throw e =>
          (Null, set_session (Some s') st,
           [LoggerError "Error finishing session:" e;
            ToastError "Erro ao salvar histórico do treino"])
      end
  end.

Definition cancelSession (st : t) : t :=
  {| currentWorkout := None; workoutSession := None; currentExerciseIndex := 0 |}.

(** [Math.round((completed / length) * 100)], the quotient and the
    product rounded to doubles; [None] is [NaN], the result for a session
    without exercises (0 / 0). *)
Definition getSessionProgress (st : t) : option Z :=
  match workoutSession st with
  | None => Some 0
  | Some s =>
      let n := Z.of_nat (length (exercises s)) in
      let k := Z.of_nat (length (filter (fun ex => finished ex = true) (exercises s))) in
      Math_round (PrimFloat.mul (PrimFloat.div (double_of_Z k) (double_of_Z n)) 100%float)
  end.

(** The states a manager can be in: [new WorkoutsManager()] followed by
    any calls of its session methods. *)
Inductive reachable : t -> Prop :=
| r_new : reachable new
| r_startSession st w now :
    reachable st -> reachable (startSession w now st).2
| r_logSet st st' n r wt now :
    reachable st -> logSet n r wt now st = Ok st' -> reachable st'
| r_nextExercise st :
    reachable st -> reachable (nextExercise st).2
| r_previousExercise st :
    reachable st -> reachable (previousExercise st).2
| r_skipExercise st :
    reachable st -> reachable (skipExercise st).2
| r_finishSession st db_add uid now :
    reachable st -> reachable (finishSession db_add uid now st).1.2
| r_cancelSession st :
    reachable st -> reachable (cancelSession st).

End WorkoutsManager.

(* ===================================================================== *)
(** * Part V-b.  The rest of the four files, and their callers           *)
(* ===================================================================== *)

(** ** database.js: the settings helpers *)

Module DatabaseSettings.

(** [async getSetting(key)]: [result?.value]. *)
Definition getSetting (c : db_copy) (key : value) : M value :=
  let* result := Database.get c "settings" key in
  ret (match result with
       | VObj o => match o !! "value" with Some v => v | None => VUndef end
       | _ => VUndef
       end).

(** [async setSetting(key, value)]: [this.update(STORES.settings, { key, value })]. *)
Definition setSetting (env : Env) (c : db_copy) (key v : value) : M value :=
  Database.update env c "settings" (<["key" := key]> (<["value" := v]> ∅)).

End DatabaseSettings.

(** ** firebase-config.js: the rest of [firebaseDB] *)

(** [String(v)] *)
Fixpoint js_String (v : value) : string :=
  match v with
  | VUndef => "undefined"
  | VNull => "null"
  | VBool true => "true"
  | VBool false => "false"
  | VNum n => pretty n
  | VStr s => s
  | VArr l =>
      (fix join (l : list value) : string :=
         match l with
         | [] => ""
         | x :: l' =>
             (match x with VUndef | VNull => "" | _ => js_String x end)
             +:+ (match l' with [] => "" | _ => "," +:+ join l' end)
         end) l
  | VObj _ => "[object Object]"
  end.

(** What Firestore answers to the calls other than [addDoc] and
    [updateDoc], asked like the oracles of [Env] with the number of
    external calls made so far. *)
Record CloudEnv := {
  (* getDoc(doc(db, collection, id)): error, or the data if the document exists *)
  cloud_getDoc : nat -> string -> string -> exn + option obj;
  (* getDocs(collection or where(field, '==', value)): error, or (id, data) pairs *)
  cloud_getDocs : nat -> string -> option (string * value) -> exn + list (string * obj);
  (* deleteDoc(doc(db, collection, id)) *)
  cloud_deleteDoc : nat -> string -> string -> option exn;
  (* setDoc(doc(db, collection, id), data) *)
  cloud_setDoc : nat -> string -> string -> obj -> option exn
}.

Module FirebaseDBRest.

(** [{ id: doc.id, ...doc.data() }]: an [id] field of the data wins. *)
Definition with_id (id : string) (data : obj) : obj :=
  match data !! "id" with
  | Some _ => data
  | None => <["id" := VStr id]> data
  end.

(** [firebaseDB.get] *)
Definition get (cenv : CloudEnv) (collectionName : string) (id : value) : M value :=
  let* t := tick in
  match cloud_getDoc cenv t collectionName (js_String id) with
  | inl e => throw e
  | inr (Some data) => ret (VObj (with_id (js_String id) data))
  | inr None => ret VNull
  end.

(** [firebaseDB.getAll] *)
Definition getAll (cenv : CloudEnv) (collectionName : string) : M (list obj) :=
  let* t := tick in
  match cloud_getDocs cenv t collectionName None with
  | inl e => throw e
  | inr docs => ret ((fun d => with_id d.1 d.2) <$> docs)
  end.

(** [firebaseDB.getByIndex] *)
Definition getByIndex (cenv : CloudEnv) (collectionName field : string) (v : value)
  : M (list obj) :=
  let* t := tick in
  match cloud_getDocs cenv t collectionName (Some (field, v)) with
  | inl e => throw e
  | inr docs => ret ((fun d => with_id d.1 d.2) <$> docs)
  end.

(** [firebaseDB.delete] *)
Definition delete (cenv : CloudEnv) (collectionName : string) (id : value) : M value :=
  let* t := tick in
  match cloud_deleteDoc cenv t collectionName (js_String id) with
  | Some e => throw e
  | None => ret (VBool true)
  end.

(** [firebaseDB.getSetting(key)], [userId] being its default ['global'] *)
Definition getSetting (cenv : CloudEnv) (key : value) : M value :=
  let* t := tick in
  match cloud_getDoc cenv t "settings" ("global_" +:+ js_String key) with
  | inl e => throw e
  | inr (Some data) => ret (default VUndef (data !! "value"))
  | inr None => ret VNull
  end.

(** [firebaseDB.setSetting(key, value)] *)
Definition setSetting (env : Env) (cenv : CloudEnv) (key v : value) : M value :=
  let* t := tick in
  match cloud_setDoc cenv t "settings" ("global_" +:+ js_String key)
          (<["key" := key]> (<["value" := v]> (<["userId" := VStr "global"]>
             (<["updatedAt" := VStr (now env)]> ∅)))) with
  | Some e => throw e
  | None => ret (VBool true)
  end.

End FirebaseDBRest.

(** ** db-adapter.js: the rest of the [database] object *)

Module DbAdapterRest.

Definition get (cenv : CloudEnv) (c : db_copy) (store : string) (id : value) : M value :=
  let* w := get_world in
  match DbAdapter.getDB w with
  | DbAdapter.FirebaseDB => FirebaseDBRest.get cenv store id
  | DbAdapter.LocalDB => Database.get c store id
  end.

Definition getAll (cenv : CloudEnv) (c : db_copy) (store : string) : M (list obj) :=
  let* w := get_world in
  match DbAdapter.getDB w with
  | DbAdapter.FirebaseDB => FirebaseDBRest.getAll cenv store
  | DbAdapter.LocalDB => Database.getAll c store
  end.

Definition getByIndex (cenv : CloudEnv) (c : db_copy) (store field : string) (v : value)
  : M (list obj) :=
  let* w := get_world in
  match DbAdapter.getDB w with
  | DbAdapter.FirebaseDB => FirebaseDBRest.getByIndex cenv store field v
  | DbAdapter.LocalDB => Database.getByIndex c store field v
  end.

(** [database.delete]: the active store first, then the Local Store
    again when [useFirebase] is set; resolves with [true]. *)
Definition delete (cenv : CloudEnv) (c : db_copy) (store : string) (id : value)
  : M value :=
  let* w := get_world in
  (match DbAdapter.getDB w with
   | DbAdapter.FirebaseDB => FirebaseDBRest.delete cenv store id
   | DbAdapter.LocalDB => Database.delete c store id
   end) ;;
  let* w' := get_world in
  (if useFirebase w' then Database.delete c store id ;; ret tt else ret tt) ;;
  ret (VBool true).

Definition getSetting (cenv : CloudEnv) (c : db_copy) (key : value) : M value :=
  let* w := get_world in
  match DbAdapter.getDB w with
  | DbAdapter.FirebaseDB => FirebaseDBRest.getSetting cenv key
  | DbAdapter.LocalDB => DatabaseSettings.getSetting c key
  end.

(** [database.setSetting]: unlike [add], [update] and [delete] it has no
    second write to the Local Store. *)
Definition setSetting (env : Env) (cenv : CloudEnv) (c : db_copy) (key v : value)
  : M value :=
  let* w := get_world in
  match DbAdapter.getDB w with
  | DbAdapter.FirebaseDB => FirebaseDBRest.setSetting env cenv key v
  | DbAdapter.LocalDB => DatabaseSettings.setSetting env c key v
  end.

End DbAdapterRest.

(** ** utils/logger.js *)

(** [logger.error(...args)] is [console.error(...args)] in every
    environment. *)
Definition logger_error (msg : string) (e : exn) : M unit :=
  console_error msg (Some e).

(** [try { return await m } catch (error) { logger.error(msg, error); throw error }],
    the shape of the persistence methods of the domain modules. *)
Definition logged_rethrow {A} (msg : string) (m : M A) : M A :=
  try_catch m (fun e => logger_error msg e ;; throw e).

(** ** modules/workouts.js: the persistence methods of [WorkoutsManager] *)

(** The domain modules import [db] from [database.js]: they talk to the
    Local Store, never to the adapter. *)
Module WorkoutsStore.

Definition template_exercise (exerciseId : Z) (name : string) (sets : Z)
    (reps : string) (rest : Z) : value :=
  VObj (<["exerciseId" := VNum exerciseId]> (<["name" := VStr name]>
       (<["sets" := VNum sets]> (<["reps" := VStr reps]> (<["rest" := VNum rest]> ∅))))).

Definition template (name description color : string) (muscles : list string)
    (exercises : list value) : obj :=
  <["name" := VStr name]> (<["description" := VStr description]>
  (<["color" := VStr color]> (<["muscles" := VArr (VStr <$> muscles)]>
  (<["exercises" := VArr exercises]> ∅)))).

Definition WORKOUT_TEMPLATES : list obj :=
  [ template "PPL - Push (Empurrar)" "Peito, Ombros, Tríceps" "#10b981"
      ["peito"; "ombros"; "triceps"]
      [ template_exercise 1 "Supino Reto com Barra" 4 "8-12" 90;
        template_exercise 2 "Supino Inclinado com Halteres" 3 "10-12" 60;
        template_exercise 34 "Desenvolvimento com Halteres" 4 "8-12" 90;
        template_exercise 35 "Elevação Lateral" 3 "12-15" 45;
        template_exercise 49 "Tríceps Corda" 3 "12-15" 45;
        template_exercise 48 "Tríceps Testa" 3 "10-12" 60 ];
    template "PPL - Pull (Puxar)" "Costas, Bíceps" "#06b6d4"
      ["costas"; "biceps"]
      [ template_exercise 11 "Barra Fixa" 4 "6-10" 120;
        template_exercise 13 "Remada Curvada com Barra" 4 "8-12" 90;
        template_exercise 14 "Remada Sentada no Cabo" 3 "10-12" 60;
        template_exercise 12 "Puxada Alta" 3 "10-12" 60;
        template_exercise 41 "Rosca Direta com Barra" 3 "10-12" 60;
        template_exercise 44 "Rosca Martelo" 3 "12-15" 45 ];
    template "PPL - Legs (Pernas)" "Quadríceps, Posterior, Glúteos, Panturrilha" "#8b5cf6"
      ["pernas"]
      [ template_exercise 21 "Agachamento Livre" 4 "6-10" 180;
        template_exercise 22 "Leg Press 45°" 4 "10-12" 120;
        template_exercise 25 "Stiff" 3 "10-12" 90;
        template_exercise 23 "Cadeira Extensora" 3 "12-15" 60;
        template_exercise 24 "Mesa Flexora" 3 "12-15" 60;
        template_exercise 29 "Panturrilha em Pé" 4 "15-20" 45 ] ].

Definition getWorkouts (c : db_copy) (userId : value) : M (list obj) :=
  logged_rethrow "Error getting workouts:"
    (Database.getByIndex c "workouts" "userId" userId).

Definition getWorkout (c : db_copy) (id : value) : M value :=
  logged_rethrow "Error getting workout:" (Database.get c "workouts" id).

(** [db.add(STORES.workouts, {...workout, createdAt})] *)
Definition createWorkout (env : Env) (c : db_copy) (workout : obj) : M value :=
  logged_rethrow "Error creating workout:"
    (Database.add env c "workouts" (<["createdAt" := VStr (now env)]> workout)).

Definition updateWorkout (env : Env) (c : db_copy) (workout : obj) : M value :=
  logged_rethrow "Error updating workout:" (Database.update env c "workouts" workout).

Definition deleteWorkout (c : db_copy) (id : value) : M value :=
  logged_rethrow "Error deleting workout:" (Database.delete c "workouts" id).

(** [{ userId, ...template }]: a [userId] of the template wins. *)
Definition for_user (userId : value) (template : obj) : obj :=
  match template !! "userId" with
  | Some _ => template
  | None => <["userId" := userId]> template
  end.

(** [createTemplatesForUser(userId)], for the templates it loops over
    ([WORKOUT_TEMPLATES] in the source): the [catch] only logs. *)
Definition createTemplatesForUser (env : Env) (c : db_copy) (templates : list obj)
    (userId : value) : M unit :=
  try_catch
    (for_each templates
       (fun template => createWorkout env c (for_user userId template) ;; ret tt))
    (fun e => logger_error "Error creating templates:" e).

End WorkoutsStore.

(** ** modules/students.js *)

Module StudentsManager.

(** [a === b] on stored values; also what [Array.prototype.includes]
    compares with (numbers are integers here, so there is no [NaN]).
    Arrays and objects are compared by reference: one read from the store
    is never the caller's. *)
Definition strict_eq (a b : value) : bool :=
  match a, b with
  | VUndef, VUndef | VNull, VNull => true
  | VBool x, VBool y => bool_decide (x = y)
  | VNum x, VNum y => x =? y
  | VStr x, VStr y => String.eqb x y
  | _, _ => false
  end.

Definition includes (l : list value) (v : value) : bool :=
  existsb (fun x => strict_eq x v) l.

Definition getStudent (c : db_copy) (id : value) : M value :=
  logged_rethrow "Error getting student:" (Database.get c "students" id).

Definition updateStudent (env : Env) (c : db_copy) (student : obj) : M value :=
  logged_rethrow "Error updating student:" (Database.update env c "students" student).

Definition deleteStudent (c : db_copy) (id : value) : M value :=
  logged_rethrow "Error deleting student:" (Database.delete c "students" id).

(** [assignWorkout(studentId, workoutId)].  A record read from a store
    is an object; for [student.assignedWorkouts || []] every kind of
    value is followed: a falsy one gives the empty list, a string answers
    [includes] by substring search and has no [push], and the other
    truthy values have no [includes]. *)
Definition assignWorkout (env : Env) (c : db_copy) (studentId workoutId : value)
  : M value :=
  logged_rethrow "Error assigning workout:"
    (let* student := getStudent c studentId in
     match student with
     | VObj o =>
         let assign (l : list value) : M value :=
           if negb (includes l workoutId) then
             let student' := <["assignedWorkouts" := VArr (l ++ [workoutId])]> o in
             updateStudent env c student' ;;
             ret (VObj student')
           else ret (VObj o) in
         match o !! "assignedWorkouts" with
         | Some (VArr l) => assign l
         | Some (VStr s) =>
             if String.eqb s "" then assign []
             else match String.index 0 (js_String workoutId) s with
                  | Some _ => ret (VObj o)
                  | None => throw TypeError
                  end
         | aw => if truthy aw then throw TypeError else assign []
         end
     | _ => if truthy (Some student) then throw TypeError else ret VNull
     end).

(** [removeWorkout(studentId, workoutId)]: a truthy [assignedWorkouts]
    that is not an array has no [filter]. *)
Definition removeWorkout (env : Env) (c : db_copy) (studentId workoutId : value)
  : M value :=
  logged_rethrow "Error removing workout:"
    (let* student := getStudent c studentId in
     match student with
     | VObj o =>
         let remove (l : list value) : M value :=
           let student' :=
             <["assignedWorkouts" :=
                 VArr (List.filter (fun id => negb (strict_eq id workoutId)) l)]> o in
           updateStudent env c student' ;;
           ret (VObj student') in
         match o !! "assignedWorkouts" with
         | Some (VArr l) => remove l
         | aw => if truthy aw then throw TypeError else remove []
         end
     | _ => if truthy (Some student) then throw TypeError else ret VNull
     end).

End StudentsManager.

(** ** app.js: seeding the exercise catalogue *)

Module App.

(** [seedDatabase()].  [fetched] is what
    [fetch('./js/data/exercises.json')] and [response.json()] give: an
    error, or the array [data.exercises] (empty when the file has none).
    [db] is the adapter's [database] object.  The whole body sits in a
    [try] whose [catch] only logs. *)
Definition seedDatabase (env : Env) (cenv : CloudEnv) (c : db_copy)
    (fetched : exn + list obj) : M unit :=
  try_catch
    (let* exercises := DbAdapterRest.getAll cenv c "exercises" in
     if (0 <? length exercises)%nat then ret tt
     else
       match fetched with
       | inl e => throw e
       | inr [] => console_warn "[Seed] No exercises data found"
       | inr data =>
           for_each data (fun exercise => DbAdapter.add env c "exercises" exercise ;; ret tt)
       end)
    (fun e => console_error "[Seed] Error:" (Some e)).

End App.

(** ** db-adapter.js: [syncToCloud] among other tasks *)

(** [syncToCloud] is suspended at each of its [await]s, and what else
    the page has started runs meanwhile: [app.js] calls
    [db.syncToCloud()] without awaiting it, and the domain modules write
    to the Local Store through [database.js].  A point of suspension is
    named by the call awaited there. *)
Inductive await_point :=
| AwaitGetAll (store : string)
| AwaitAdd (store : string) (item : obj)
| AwaitUpdate (store : string) (item : obj).

(** What the other tasks do to the world while [syncToCloud] waits at a
    point.  Their results and exceptions are their own. *)
Definition schedule := await_point -> World -> World.

Module Interleaved.

(** [await call]: the other tasks run, then the call takes effect. *)
Definition await {A} (others : schedule) (p : await_point) (call : M A) : M A :=
  modify (others p) ;; call.

Definition sync_item (others : schedule) (env : Env) (c : db_copy) (store : string)
    (item : obj) : M unit :=
  if negb (truthy (item !! "cloudId")) then
    let* cloudId := await others (AwaitAdd store item) (FirebaseDB.add env store item) in
    await others (AwaitUpdate store item)
      (Database.update env c store (<["cloudId" := VStr cloudId]> item)) ;;
    ret tt
  else ret tt.

Definition sync_store_body (others : schedule) (env : Env) (c : db_copy)
    (store : string) : M unit :=
  let* localData := await others (AwaitGetAll store) (Database.getAll c store) in
  for_each localData (sync_item others env c store).

Definition sync_store (others : schedule) (env : Env) (c : db_copy) (store : string)
  : M unit :=
  try_catch (sync_store_body others env c store)
            (fun e => console_error ("Error syncing " +:+ store +:+ ":") (Some e)).

Definition syncToCloud (others : schedule) (env : Env) (c : db_copy) : M bool :=
  let* w := get_world in
  if negb (useFirebase w) || negb (firebaseModule w) then
    console_warn "Cloud sync not available" ;;
    ret false
  else
    for_each (STORES c) (sync_store others env c) ;;
    ret true.

(** No other task is running. *)
Definition alone : schedule := fun _ w => w.

End Interleaved.

(* ===================================================================== *)
(** * Part VI.  Vocabulary of the properties and example inputs *)
(* ===================================================================== *)

Module WorkoutsSpec.
Import WorkoutsManager.

(** ** The sums of the specification *)

(** The sum of a list of doubles: the terms are added one by one from
    the left, starting at 0, each addition rounded to a double.  [sumZ]
    adds up integers the way a reader writes a sum. *)
Definition sum_doubles (l : list double) : double :=
  fold_left PrimFloat.add l 0%float.

Fixpoint sumZ (l : list Z) : Z :=
  match l with
  | [] => 0
  | x :: l' => x + sumZ l'
  end.

(** reps times weight of one logged set *)
Definition set_volume (l : SetLog) : double :=
  PrimFloat.mul (reps l) (weight l).

(** the sum of reps times weight over the logged sets of one exercise *)
Definition volume_of_exercise (ex : Exercise) : double :=
  sum_doubles (set_volume <$> logsPerSet ex).

(** the sum of that over all exercises *)
Definition volume_of_session (exs : list Exercise) : double :=
  sum_doubles (volume_of_exercise <$> exs).

(** the sum of the completed set counts *)
Definition sets_of_session (exs : list Exercise) : Z :=
  sumZ (setsCompleted <$> exs).

(** ** What holds in every reachable state *)

(** An exercise is flagged completed only once its log is long enough. *)
Definition exercise_inv (ex : Exercise) : Prop :=
  completed ex = true -> sets ex <= Z.of_nat (length (logsPerSet ex)).

(** In a session with exercises the index points at one of them. *)
Definition inv (st : t) : Prop :=
  match workoutSession st with
  | None => True
  | Some s =>
      Forall exercise_inv (exercises s) /\
      (exercises s <> [] -> (currentExerciseIndex st < length (exercises s))%nat)
  end.

(** ** Example inputs *)

Definition bench : Exercise :=
  {| exerciseId := 1; name := "Supino Reto com Barra"; sets := 2;
     target_reps := "8-12"; rest := 90; completed := false; skipped := false;
     setsCompleted := 0; logsPerSet := [] |}.

Definition row : Exercise :=
  {| exerciseId := 13; name := "Remada Curvada com Barra"; sets := 1;
     target_reps := "8-12"; rest := 90; completed := false; skipped := false;
     setsCompleted := 0; logsPerSet := [] |}.

Definition push_day : Workout :=
  {| workout_id := VNum 7; workout_name := "Push"; workout_exercises := [bench; row] |}.

(** A session started at instant 1000, before any set is logged. *)
Definition st_started : t := (startSession push_day 1000 new).2.

(** The same session after the sets [{reps:10, weight:20}] and
    [{reps:8, weight:25}] were logged on the first exercise. *)
Definition st_logged : t :=
  match logSet 1 10%float 20%float 2000 st_started with
  | Ok st1 => match logSet 2 8%float 25%float 3000 st1 with
              | Ok st2 => st2
              | Throw _ => st1
              end
  | Throw _ => st_started
  end.

(** A History write that fails, and one that succeeds with id 42. *)
Definition db_add_fails (_ : Session) : result value := Throw ConstraintError.
Definition db_add_ok (_ : Session) : result value := Ok (VNum 42).

(** ** A whole session *)

Definition press : Exercise :=
  {| exerciseId := 34; name := "Desenvolvimento com Halteres"; sets := 3;
     target_reps := "8-12"; rest := 90; completed := false; skipped := false;
     setsCompleted := 0; logsPerSet := [] |}.

Definition raise : Exercise :=
  {| exerciseId := 35; name := "Elevacao Lateral"; sets := 3;
     target_reps := "12-15"; rest := 45; completed := false; skipped := false;
     setsCompleted := 0; logsPerSet := [] |}.

Definition shoulders : Workout :=
  {| workout_id := VNum 9; workout_name := "Ombros"; workout_exercises := [press; raise] |}.

(** [logSet] three times in a row. *)
Definition three_sets (t0 : Z) (st : t) : result t :=
  match logSet 1 10%float 12%float t0 st with
  | Ok st1 =>
      match logSet 2 10%float 12%float (t0 + 60000) st1 with
      | Ok st2 => logSet 3 8%float 12.5%float (t0 + 120000) st2
      | Throw e => Throw e
      end
  | Throw e => Throw e
  end.

End WorkoutsSpec.

Module StoreSpec.

(** ** Vocabulary *)

(** Cloud mode as [getDB] sees it. *)
Definition cloud_enabled (w : World) : Prop :=
  useFirebase w = true /\ firebaseModule w = true.

(** The world after the not-ready warning of operation [op]. *)
Definition warned (op : string) (w : World) : World :=
  set_console
    (console w ++ [Warn ("[DB] Database not initialized, skipping " +:+ op)]) w.

(** The two writes the adapter mirrors. *)
Inductive write_op := OpAdd | OpUpdate.

(** [database.add] / [database.update] *)
Definition adapter_write (env : Env) (c : db_copy) (op : write_op)
    (store : string) (data : obj) : M value :=
  match op with
  | OpAdd => DbAdapter.add env c store data
  | OpUpdate => DbAdapter.update env c store data
  end.

(** [firebaseDB.add] / [firebaseDB.update], the first await of the call *)
Definition remote_write (env : Env) (op : write_op) (store : string) (data : obj)
  : M value :=
  match op with
  | OpAdd => let* i := FirebaseDB.add env store data in ret (VStr i)
  | OpUpdate => let* d := FirebaseDB.update env store data in ret (VObj d)
  end.

(** [localDB.add(store, {...data, cloudId: id})] / [localDB.update(store, data)],
    the second await, [r] being what the first one returned *)
Definition mirror_write (env : Env) (c : db_copy) (op : write_op)
    (store : string) (data : obj) (r : value) : M value :=
  match op with
  | OpAdd => Database.add env c store (<["cloudId" := r]> data)
  | OpUpdate => Database.update env c store data
  end.

(** ** Example inputs *)

(** The page has just loaded: nothing is open, [dbConfig.useCloud] has
    the initial value of the copy. *)
Definition boot (a : adapter_copy) : World :=
  {| idb_version := 0; idb := ∅; console := []; ticks := 0;
     db_handle := false; db_isReady := false;
     cloud_docs := []; cloud_updates := [];
     firebaseModule := false; useFirebase := false;
     useCloud := match a with AdapterA => false | AdapterB => true end;
     isFirebaseReady := false; adapter_isReady := false |}.

(** Everything works; Firestore numbers its documents. *)
Definition env_up : Env :=
  {| now := "2024-05-01T10:00:00.000Z";
     idb_open_ok := fun _ => true;
     import_ok := fun _ => true;
     sdk_init_ok := fun _ => true;
     cloud_add := fun t _ _ => inr ("doc" +:+ pretty t);
     cloud_update := fun _ _ _ => None |}.

(** The module loads, the SDK fails inside [initFirebase], and Firestore
    calls are refused. *)
Definition env_sdk_down : Env :=
  {| now := "2024-05-01T10:00:00.000Z";
     idb_open_ok := fun _ => true;
     import_ok := fun _ => true;
     sdk_init_ok := fun _ => false;
     cloud_add := fun _ _ _ => inl (FirebaseError "invalid-argument");
     cloud_update := fun _ _ _ => Some (FirebaseError "invalid-argument") |}.

(** The module cannot even be imported. *)
Definition env_offline : Env :=
  {| now := "2024-05-01T10:00:00.000Z";
     idb_open_ok := fun _ => true;
     import_ok := fun _ => false;
     sdk_init_ok := fun _ => false;
     cloud_add := fun _ _ _ => inl (FirebaseError "unavailable");
     cloud_update := fun _ _ _ => Some (FirebaseError "unavailable") |}.

(** Firestore accepts writes to every collection but [users]. *)
Definition env_users_rejected : Env :=
  {| now := "2024-05-01T10:00:00.000Z";
     idb_open_ok := fun _ => true;
     import_ok := fun _ => true;
     sdk_init_ok := fun _ => true;
     cloud_add := fun t coll _ =>
       if decide (coll = "users") then inl (FirebaseError "permission-denied")
       else inr ("doc" +:+ pretty t);
     cloud_update := fun _ _ _ => None |}.

Definition supino : obj :=
  <["id" := VNum 1]> (<["name" := VStr "Supino Reto com Barra"]> ∅).

Definition ana : obj :=
  <["name" := VStr "Ana"]> (<["email" := VStr "ana@example.com"]> ∅).

Definition leg_day : obj :=
  <["name" := VStr "Leg day"]> (<["userId" := VNum 1]> ∅).

(** The world after [init()] of the adapter on a freshly loaded page. *)
Definition after_init (env : Env) (a : adapter_copy) (c : db_copy) : World :=
  (DbAdapter.init env a c (boot a)).2.

(** Local-only world holding one user, one workout and the seeded
    exercise 1, none of them uploaded yet. *)
Definition local_world : World :=
  let w0 := after_init env_offline AdapterA DbV3 in
  let w1 := (Database.add env_offline DbV3 "users" ana w0).2 in
  let w2 := (Database.add env_offline DbV3 "workouts" leg_day w1).2 in
  (Database.add env_offline DbV3 "exercises" supino w2).2.

(** The same data once cloud mode has been switched on. *)
Definition cloud_world (env : Env) : World :=
  (DbAdapter.enableCloud env AdapterA DbV3 local_world).2.

(** ** What a call leaves alone *)

(** The adapter's module state, the Firestore side and the local side of
    a world. *)
Definition same_adapter (w w' : World) : Prop :=
  useFirebase w' = useFirebase w /\ firebaseModule w' = firebaseModule w /\
  useCloud w' = useCloud w /\ db_handle w' = db_handle w.

Definition same_cloud (w w' : World) : Prop :=
  cloud_docs w' = cloud_docs w /\ cloud_updates w' = cloud_updates w /\
  ticks w' = ticks w.

Definition same_local (w w' : World) : Prop :=
  idb w' = idb w /\ idb_version w' = idb_version w /\ console w' = console w /\
  db_handle w' = db_handle w.

(** ** Reconciliation: vocabulary *)

(** The in-line key of a record read from [store]. *)
Definition key_of (store : string) (item : obj) : option key :=
  to_key (item !! keyPath store).

(** [!item.cloudId] *)
Definition lacks_cloudId (item : obj) : Prop :=
  truthy (item !! "cloudId") = false.

#[global] Instance lacks_cloudId_dec item : Decision (lacks_cloudId item).
Proof. unfold lacks_cloudId. apply _. Defined.

(** What [localDB.getAll(store)] can see: the records of the store,
    none if the store does not exist. *)
Definition local_records (w : World) (store : string) : list obj :=
  match idb w !! store with
  | Some os => IDB.records store os
  | None => []
  end.

(** The local records lacking a [cloudId], store by store. *)
Definition pending_in (w : World) (store : string) : list (string * obj) :=
  (fun item => (store, item)) <$> filter lacks_cloudId (local_records w store).

Definition pending (stores : list string) (w : World) : list (string * obj) :=
  stores ≫= pending_in w.

(** The Firestore document made from a local record, and the local
    record after [localDB.update(store, {...item, cloudId})]. *)
Definition uploaded (env : Env) (cloudId : string) (p : string * obj)
  : string * string * obj :=
  (p.1, cloudId, <["createdAt" := VStr (now env)]> p.2).

Definition rewritten (env : Env) (cloudId : string) (item : obj) : obj :=
  <["updatedAt" := VStr (now env)]> (<["cloudId" := VStr cloudId]> item).

(** Every upload is accepted and answered with a document id. *)
Definition uploads_succeed (env : Env) : Prop :=
  forall t coll d, exists id, cloud_add env t coll d = inr id /\ id <> "".

(** The flags [getDB] reads and the handle of the Local Store: what
    [adapter_inv] speaks about, and what only [init], [enableCloud] and
    [disableCloud] change. *)
Definition same_mode (w w' : World) : Prop :=
  db_handle w' = db_handle w /\ useFirebase w' = useFirebase w /\
  firebaseModule w' = firebaseModule w.

(** ** Cloud mode implies an open Local Store *)

(** [useFirebase] is only ever set after [localDB.init()] has resolved
    and the Firebase module is loaded. *)
Definition adapter_inv (w : World) : Prop :=
  useFirebase w = true -> firebaseModule w = true /\ db_handle w = true.

(** ** Worlds the application can reach *)

(** The page loads; then the application calls the Sync Adapter and, from
    the domain modules, the Local Store directly, in any order and in any
    environment. *)
Inductive reachable (env : Env) (a : adapter_copy) (c : db_copy) : World -> Prop :=
| r_boot : reachable env a c (boot a)
| r_db_init w : reachable env a c w -> reachable env a c (Database.init env c w).2
| r_db_add w store data :
    reachable env a c w -> reachable env a c (Database.add env c store data w).2
| r_db_update w store data :
    reachable env a c w -> reachable env a c (Database.update env c store data w).2
| r_db_delete w store id :
    reachable env a c w -> reachable env a c (Database.delete c store id w).2
| r_init w : reachable env a c w -> reachable env a c (DbAdapter.init env a c w).2
| r_enableCloud w :
    reachable env a c w -> reachable env a c (DbAdapter.enableCloud env a c w).2
| r_disableCloud w :
    reachable env a c w -> reachable env a c (DbAdapter.disableCloud w).2
| r_add w store data :
    reachable env a c w -> reachable env a c (DbAdapter.add env c store data w).2
| r_update w store data :
    reachable env a c w -> reachable env a c (DbAdapter.update env c store data w).2
| r_syncToCloud w :
    reachable env a c w -> reachable env a c (DbAdapter.syncToCloud env c w).2.

End StoreSpec.

Module PersistenceSpec.
Import StoreSpec.

(** ** The Local Store *)

(** The store after a successful [add] or [put] of [v] under key [k]. *)
Definition written (store : string) (os : ObjectStore) (k : key) (v : obj) : ObjectStore :=
  {| keygen := IDB.next_keygen store k (keygen os);
     rows := <[k := IDB.stored store k v]> (rows os) |}.

(** The record [add] stores for [data] under the id it returns, and the
    one [update] stores. *)
Definition added (env : Env) (store : string) (id : value) (data : obj) : obj :=
  <[keyPath store := id]> (<["createdAt" := VStr (now env)]> data).

Definition updated (env : Env) (store : string) (id : value) (data : obj) : obj :=
  <[keyPath store := id]> (<["updatedAt" := VStr (now env)]> data).

(** A sequence of [add] calls to one store, collecting the ids. *)
Fixpoint add_all (env : Env) (c : db_copy) (store : string) (ds : list obj)
  : M (list value) :=
  match ds with
  | [] => ret []
  | d :: ds' =>
      let* i := Database.add env c store d in
      let* rest := add_all env c store ds' in
      ret (i :: rest)
  end.

(** ** Calls of the adapter *)

(** One call of a method of the [database] object. *)
Inductive adapter_call :=
| CallGet (store : string) (id : value)
| CallGetAll (store : string)
| CallGetByIndex (store field : string) (v : value)
| CallAdd (store : string) (data : obj)
| CallUpdate (store : string) (data : obj)
| CallDelete (store : string) (id : value)
| CallGetSetting (key : value)
| CallSetSetting (key v : value)
| CallSyncToCloud.

(** The call, its result dropped. *)
Definition run_call (env : Env) (cenv : CloudEnv) (c : db_copy) (call : adapter_call)
  : M unit :=
  match call with
  | CallGet store id => DbAdapterRest.get cenv c store id ;; ret tt
  | CallGetAll store => DbAdapterRest.getAll cenv c store ;; ret tt
  | CallGetByIndex store field v => DbAdapterRest.getByIndex cenv c store field v ;; ret tt
  | CallAdd store data => DbAdapter.add env c store data ;; ret tt
  | CallUpdate store data => DbAdapter.update env c store data ;; ret tt
  | CallDelete store id => DbAdapterRest.delete cenv c store id ;; ret tt
  | CallGetSetting key => DbAdapterRest.getSetting cenv c key ;; ret tt
  | CallSetSetting key v => DbAdapterRest.setSetting env cenv c key v ;; ret tt
  | CallSyncToCloud => DbAdapter.syncToCloud env c ;; ret tt
  end.

(** A sequence of calls, each awaited, a rejected one caught and ignored. *)
Definition run_calls (env : Env) (cenv : CloudEnv) (c : db_copy)
    (calls : list adapter_call) : M unit :=
  for_each calls (fun call => try_catch (run_call env cenv c call) (fun _ => ret tt)).

(** Nothing was sent to Firestore and the adapter stays in local mode. *)
Definition stays_local (w w' : World) : Prop :=
  useFirebase w = false ->
  useFirebase w' = false /\ same_cloud w w'.

(** ** Reconciliation *)

(** What [syncToCloud] may do to a local record: one that has a
    [cloudId] stays as it is, and of the others only [cloudId] and
    [updatedAt] change. *)
Definition synced_from (item item' : obj) : Prop :=
  (~ lacks_cloudId item -> item' = item) /\
  (forall f, f <> "cloudId" -> f <> "updatedAt" -> item' !! f = item !! f).

(** The same keys, and row by row [synced_from]. *)
Definition rows_synced (store : string) (os os' : ObjectStore) : Prop :=
  forall k,
    match rows os !! k, rows os' !! k with
    | None, None => True
    | Some o, Some o' => synced_from (IDB.stored store k o) (IDB.stored store k o')
    | _, _ => False
    end.

Definition stores_synced (i i' : gmap string ObjectStore) : Prop :=
  forall s,
    match i !! s, i' !! s with
    | None, None => True
    | Some os, Some os' => rows_synced s os os'
    | _, _ => False
    end.

(** Other tasks that leave the Local Store and the adapter's flags
    alone, and that only add documents to Firestore. *)
Definition quiet (others : schedule) : Prop :=
  forall p w,
    same_mode w (others p w) /\
    cloud_docs w `prefix_of` cloud_docs (others p w) /\
    idb (others p w) = idb w.

(** What every step of [syncToCloud] keeps, on an open Local Store. *)
Definition keeps_local (w w' : World) : Prop :=
  db_handle w = true ->
  same_mode w w' /\ cloud_docs w `prefix_of` cloud_docs w' /\
  stores_synced (idb w) (idb w').

(** ** Students *)

(** [student.assignedWorkouts || []] for a student whose
    [assignedWorkouts] is missing, falsy or an array. *)
Definition assigned (o : obj) : option (list value) :=
  match o !! "assignedWorkouts" with
  | Some (VArr l) => Some l
  | aw => if truthy aw then None else Some []
  end.

(** A value compared by content: not an array, not an object. *)
Definition primitive (v : value) : Prop :=
  StudentsManager.strict_eq v v = true.

(** ** Example inputs *)

Definition bia : obj :=
  <["name" := VStr "Bia"]> (<["email" := VStr "bia@example.com"]> ∅).

(** Firestore refuses every second upload. *)
Definition env_flaky : Env :=
  {| now := "2024-05-01T10:00:00.000Z";
     idb_open_ok := fun _ => true;
     import_ok := fun _ => true;
     sdk_init_ok := fun _ => true;
     cloud_add := fun t _ _ => if Nat.even t then inr ("doc" +:+ pretty t)
                               else inl (FirebaseError "unavailable");
     cloud_update := fun _ _ _ => None |}.

(** Another task that writes a log entry to Firestore whenever
    [syncToCloud] waits. *)
Definition others_log : schedule :=
  fun _ w =>
    (try_catch (FirebaseDB.add env_flaky "logs" (<["event" := VStr "ping"]> ∅) ;; ret tt)
               (fun _ => ret tt) w).2.

(** The workout of [local_world] as the Local Store has it, and the
    same after the user has renamed it. *)
Definition leg_day_stored : obj := added env_offline "workouts" (VNum 1) leg_day.
Definition leg_day_renamed : obj := <["name" := VStr "Leg day B"]> leg_day_stored.

(** The user saves the renamed workout while [syncToCloud] waits for
    Firestore to accept the upload of the old one. *)
Definition others_rename : schedule :=
  fun p w =>
    match p with
    | AwaitAdd store _ =>
        if String.eqb store "workouts"
        then (WorkoutsStore.updateWorkout env_up DbV3 leg_day_renamed w).2
        else w
    | _ => w
    end.

Definition carla : obj :=
  <["name" := VStr "Carla"]> (<["trainerId" := VNum 1]> (<["status" := VStr "active"]> ∅)).

(** The local world with one student, not yet assigned a workout. *)
Definition students_world : World :=
  (Database.add env_offline DbV3 "students" carla local_world).2.

Definition agachamento : obj :=
  <["id" := VNum 2]> (<["name" := VStr "Agachamento Livre"]>
    (<["muscle" := VStr "pernas"]> ∅)).

(** A freshly opened Local Store in local mode, nothing seeded. *)
Definition fresh_world : World := after_init env_offline AdapterA DbV3.

(** Firestore answers every other call: no document found, deletes and
    writes accepted. *)
Definition cenv_up : CloudEnv :=
  {| cloud_getDoc := fun _ _ _ => inr None;
     cloud_getDocs := fun _ _ _ => inr [];
     cloud_deleteDoc := fun _ _ _ => None;
     cloud_setDoc := fun _ _ _ _ => None |}.

End PersistenceSpec.

Module SessionSpec.
Import WorkoutsManager.


(** The number of exercises that count as done. *)
Definition finished_count (exs : list Exercise) : nat :=
  length (filter (fun ex => finished ex = true) exs).

(** [Math.round((k / n) * 100)]: what [getSessionProgress] shows with
    [k] exercises done out of [n]. *)
Definition percent (k n : nat) : option Z :=
  Math_round (PrimFloat.mul (PrimFloat.div (double_of_Z (Z.of_nat k))
                                           (double_of_Z (Z.of_nat n))) 100%float).

(** The percentage is a number from 0 to 100, and 100 for [k = n] only. *)
Definition percent_ok (n k : nat) : bool :=
  match percent k n with
  | Some p => (0 <=? p) && (p <=? 100) && Bool.eqb (p =? 100) (k =? n)%nat
  | None => false
  end.

(** One more exercise done does not lower the percentage. *)
Definition percent_step (n k : nat) : bool :=
  match percent k n, percent (S k) n with
  | Some p, Some p' => p <=? p'
  | _, _ => false
  end.

(** The number of set logs of a session. *)
Definition logged_sets (exs : list Exercise) : nat :=
  length (exs ≫= logsPerSet).

(** [setsCompleted] is the length of the log. *)
Definition counts_inv (st : t) : Prop :=
  match workoutSession st with
  | None => True
  | Some s =>
      Forall (fun ex => setsCompleted ex = Z.of_nat (length (logsPerSet ex))) (exercises s)
  end.

End SessionSpec.

(* ===================================================================== *)
(** * Part VII.  The workout session: properties                          *)
(* ===================================================================== *)

Module WorkoutsFacts.
Import WorkoutsManager WorkoutsSpec.

(** ** The sums of the specification *)

Lemma fold_left_sum_doubles {A} (f : A -> double) (l : list A) (a : double) :
  fold_left (fun s x => PrimFloat.add s (f x)) l a = fold_left PrimFloat.add (f <$> l) a.
Proof.
  revert a. induction l as [|x l IH]; intros a; [reflexivity|].
  cbn [fold_left fmap list_fmap]. apply IH.
Qed.

Lemma fold_left_sumZ {A} (f : A -> Z) (l : list A) (a : Z) :
  fold_left (fun s x => s + f x) l a = a + sumZ (f <$> l).
Proof.
  revert a. induction l as [|x l IH]; intros a; cbn [fold_left fmap list_fmap sumZ].
  - symmetry. apply Z.add_0_r.
  - rewrite IH. apply eq_sym, Z.add_assoc.
Qed.

Lemma exercise_volume_spec ex : exercise_volume ex = volume_of_exercise ex.
Proof.
  unfold exercise_volume, volume_of_exercise, sum_doubles.
  apply (fold_left_sum_doubles set_volume).
Qed.

Lemma stamp_totalVolume uid now s :
  totalVolume (stamp uid now s) = Some (volume_of_session (exercises s)).
Proof.
  cbn [stamp totalVolume]. f_equal. unfold volume_of_session, sum_doubles.
  rewrite (fold_left_sum_doubles exercise_volume). f_equal.
  apply list_fmap_ext. intros i ex _. apply exercise_volume_spec.
Qed.

Lemma stamp_totalSets uid now s :
  totalSets (stamp uid now s) = Some (sets_of_session (exercises s)).
Proof.
  simpl. f_equal. rewrite (fold_left_sumZ setsCompleted). apply Z.add_0_l.
Qed.

(** ** What holds in every reachable state *)

Lemma exercise_inv_logged l ex : exercise_inv ex -> exercise_inv (logged l ex).
Proof.
  unfold exercise_inv, logged; cbn. intros H.
  destruct (Z.leb_spec (sets ex) (Z.of_nat (length (logsPerSet ex ++ [l])))) as [Hle|Hgt];
    [intros _; exact Hle|].
  intros Hc. specialize (H Hc). rewrite length_app in *. cbn in *. lia.
Qed.

Lemma inv_nextExercise st : inv st -> inv (nextExercise st).2.
Proof.
  unfold inv, nextExercise. destruct (workoutSession st) as [s|] eqn:Hs; cbn.
  - intros [HF Hi].
    destruct (Z.ltb_spec (Z.of_nat (currentExerciseIndex st))
                (Z.of_nat (length (exercises s)) - 1)) as [Hlt|Hge]; cbn; rewrite Hs.
    + split; [exact HF|]. intros _. lia.
    + split; assumption.
  - rewrite Hs. trivial.
Qed.

Lemma reachable_inv st : reachable st -> inv st.
Proof.
  induction 1 as [ | st w now _ _ | st st' n r wt now _ IH Hlog | st _ IH
                 | st _ IH | st _ IH | st db_add uid now _ IH | st _ _ ].
  - exact I.
  - unfold inv; cbn. split.
    + apply Forall_fmap, Forall_true. intros ex. unfold exercise_inv; cbn. discriminate.
    + intros Hne. destruct (workout_exercises w); cbn in *; [congruence|lia].
  - unfold inv, logSet in *. destruct (workoutSession st) as [s|] eqn:Hs.
    + destruct (exercises s !! currentExerciseIndex st) as [ex|] eqn:Hex; [|discriminate].
      injection Hlog as <-. cbn. destruct IH as [HF Hi]. split.
      * apply Forall_insert; [exact HF|].
        apply exercise_inv_logged. eapply Forall_lookup_1; eauto.
      * rewrite length_insert. intros _. eapply lookup_lt_Some; eauto.
    + injection Hlog as <-. rewrite Hs. exact I.
  - apply inv_nextExercise, IH.
  - unfold inv, previousExercise in *. destruct (workoutSession st) as [s|] eqn:Hs; cbn.
    + destruct IH as [HF Hi].
      destruct (Z.ltb_spec 0 (Z.of_nat (currentExerciseIndex st))); cbn; rewrite Hs.
      * split; [exact HF|]. intros Hne. specialize (Hi Hne). lia.
      * split; assumption.
    + rewrite Hs. exact I.
  - unfold skipExercise, getCurrentExercise.
    destruct (workoutSession st) as [s|] eqn:Hs; [|apply inv_nextExercise, IH].
    destruct (exercises s !! currentExerciseIndex st) as [ex|] eqn:Hex;
      [|apply inv_nextExercise, IH].
    apply inv_nextExercise. unfold inv in *. rewrite Hs in IH. cbn.
    destruct IH as [HF Hi]. split.
    + apply Forall_insert; [exact HF|].
      pose proof (Forall_lookup_1 _ _ _ _ HF Hex) as He.
      unfold exercise_inv in *; cbn. exact He.
    + rewrite length_insert. intros _. eapply lookup_lt_Some; eauto.
  - unfold inv, finishSession in *. destruct (workoutSession st) as [s|] eqn:Hs.
    + destruct (db_add (stamp uid now s)); cbn; [exact I|exact IH].
    + cbn. rewrite Hs. exact I.
  - exact I.
Qed.

Lemma isWorkoutComplete_iff st s :
  workoutSession st = Some s ->
  isWorkoutComplete st = true <->
  (forall ex, ex ∈ exercises s -> completed ex = true \/ skipped ex = true).
Proof.
  intros Hs. unfold isWorkoutComplete. rewrite Hs, forallb_forall.
  split; intros H ex Hin.
  - apply list_elem_of_In in Hin. specialize (H ex Hin).
    unfold finished in H. now apply orb_true_iff in H.
  - apply list_elem_of_In in Hin. unfold finished.
    apply orb_true_iff. now apply H.
Qed.

(** ** The example sessions are reachable *)

Lemma reachable_st_started : reachable st_started.
Proof. apply r_startSession, r_new. Defined.

Lemma reachable_st_logged : reachable st_logged.
Proof.
  eapply r_logSet; [eapply r_logSet; [exact reachable_st_started|]|]; reflexivity.
Defined.

(** ** The claims *)

(** C7. During an active session (a reachable state whose session has
    exercises) [logSet] succeeds, appends exactly one set log to the
    current exercise and leaves the other exercises alone; afterwards the
    current exercise is completed exactly when its number of logged sets
    has reached its target [sets]; and [isWorkoutComplete] is [true] if
    and only if every exercise of the session is completed or skipped. *)
Theorem logSet_completes_exactly st s n r wt now :
  reachable st ->
  workoutSession st = Some s ->
  exercises s <> [] ->
  exists ex ex' st' s',
    getCurrentExercise st = Value ex /\
    logSet n r wt now st = Ok st' /\
    workoutSession st' = Some s' /\
    currentExerciseIndex st' = currentExerciseIndex st /\
    getCurrentExercise st' = Value ex' /\
    logsPerSet ex' =
      logsPerSet ex ++ [{| setNumber := n; reps := r; weight := wt; timestamp := now |}] /\
    setsCompleted ex' = Z.of_nat (length (logsPerSet ex')) /\
    sets ex' = sets ex /\
    (completed ex' = true <-> sets ex' <= Z.of_nat (length (logsPerSet ex'))) /\
    length (exercises s') = length (exercises s) /\
    (forall j, j <> currentExerciseIndex st -> exercises s' !! j = exercises s !! j) /\
    (isWorkoutComplete st = true <->
       forall e, e ∈ exercises s -> completed e = true \/ skipped e = true) /\
    (isWorkoutComplete st' = true <->
       forall e, e ∈ exercises s' -> completed e = true \/ skipped e = true).
Proof.
  intros Hr Hs Hne.
  pose proof (reachable_inv st Hr) as Hinv. unfold inv in Hinv. rewrite Hs in Hinv.
  destruct Hinv as [HF Hi]. specialize (Hi Hne).
  destruct (lookup_lt_is_Some_2 _ _ Hi) as [ex Hex].
  pose (l := {| setNumber := n; reps := r; weight := wt; timestamp := now |}).
  pose (s' := set_exercises (<[currentExerciseIndex st := logged l ex]> (exercises s)) s).
  exists ex, (logged l ex), (set_session (Some s') st), s'.
  assert (Hget' : exercises s' !! currentExerciseIndex st = Some (logged l ex)).
  { cbn. now apply list_lookup_insert_eq. }
  repeat split.
  - unfold getCurrentExercise. now rewrite Hs, Hex.
  - unfold logSet. now rewrite Hs, Hex.
  - unfold getCurrentExercise. cbn -[logged]. cbn in Hget'. now rewrite Hget'.
  - cbn. intros Hc.
    destruct (Z.leb_spec (sets ex) (Z.of_nat (length (logsPerSet ex ++ [l])))) as [Hle|Hgt];
      [exact Hle|].
    pose proof (Forall_lookup_1 _ _ _ _ HF Hex Hc) as Hold.
    rewrite length_app. cbn. lia.
  - cbn. intros Hle. apply Z.leb_le in Hle. now rewrite Hle.
  - cbn. apply length_insert.
  - intros j Hj. cbn. now apply list_lookup_insert_ne.
  - now apply isWorkoutComplete_iff.
  - now apply isWorkoutComplete_iff.
  - now apply (isWorkoutComplete_iff (set_session (Some s') st) s').
  - now apply (isWorkoutComplete_iff (set_session (Some s') st) s').
Qed.

Lemma logSet_completes_exactly_witness :
  exists ex ex' st' s',
    getCurrentExercise st_started = Value ex /\
    logSet 1 10%float 20%float 2000 st_started = Ok st' /\
    workoutSession st' = Some s' /\
    currentExerciseIndex st' = currentExerciseIndex st_started /\
    getCurrentExercise st' = Value ex' /\
    logsPerSet ex' =
      logsPerSet ex ++
        [{| setNumber := 1; reps := 10%float; weight := 20%float; timestamp := 2000 |}] /\
    setsCompleted ex' = Z.of_nat (length (logsPerSet ex')) /\
    sets ex' = sets ex /\
    (completed ex' = true <-> sets ex' <= Z.of_nat (length (logsPerSet ex'))) /\
    length (exercises s') = length (fresh <$> [bench; row]) /\
    (forall j, j <> currentExerciseIndex st_started ->
       exercises s' !! j = (fresh <$> [bench; row]) !! j) /\
    (isWorkoutComplete st_started = true <->
       forall e, e ∈ fresh <$> [bench; row] -> completed e = true \/ skipped e = true) /\
    (isWorkoutComplete st' = true <->
       forall e, e ∈ exercises s' -> completed e = true \/ skipped e = true).
Proof.
  apply (logSet_completes_exactly st_started (startSession push_day 1000 new).1
           1 10%float 20%float 2000).
  - exact reachable_st_started.
  - reflexivity.
  - discriminate.
Defined.

(** C8. For every active session, the session that [finishSession]
    hands to the History write and returns has [totalVolume] equal to the
    sum over all exercises of the sum of reps times weight over that
    exercise's logged sets, and [totalSets] equal to the sum of the
    exercises' completed set counts; an exercise whose logged sets are
    [{reps:10, weight:20}] and [{reps:8, weight:25}] contributes 400.
    Volumes are JavaScript numbers: products and sums are those of
    double-precision arithmetic, the terms added from the left. *)
Theorem finishSession_totals db_add uid now st s historyId :
  workoutSession st = Some s ->
  db_add (stamp uid now s) = Ok historyId ->
  exists done v,
    (finishSession db_add uid now st).1.1 = Value done /\
    exercises done = exercises s /\
    totalVolume done = Some v /\
    v = volume_of_session (exercises s) /\
    totalSets done = Some (sets_of_session (exercises s)) /\
    (forall ex l1 l2,
       ex ∈ exercises s -> logsPerSet ex = [l1; l2] ->
       reps l1 = 10%float -> weight l1 = 20%float ->
       reps l2 = 8%float -> weight l2 = 25%float ->
       exercise_volume ex = 400%float /\ volume_of_exercise ex = 400%float).
Proof.
  intros Hs Hadd.
  exists (with_id historyId (stamp uid now s)), (volume_of_session (exercises s)).
  split; [unfold finishSession; now rewrite Hs, Hadd|].
  split; [reflexivity|].
  split; [apply stamp_totalVolume|].
  split; [reflexivity|].
  split; [apply stamp_totalSets|].
  intros ex l1 l2 _ Hlogs Hr1 Hw1 Hr2 Hw2.
  assert (Hvol : volume_of_exercise ex = 400%float).
  { unfold volume_of_exercise, sum_doubles. rewrite Hlogs.
    cbn [fmap list_fmap fold_left]. unfold set_volume.
    rewrite Hr1, Hr2, Hw1, Hw2. vm_compute. reflexivity. }
  split; [|exact Hvol].
  now rewrite exercise_volume_spec.
Qed.

Lemma finishSession_totals_witness :
  exists done v,
    (finishSession db_add_ok (VNum 3) 63000 st_logged).1.1 = Value done /\
    exercises done = [logged {| setNumber := 2; reps := 8%float; weight := 25%float; timestamp := 3000 |}
                        (logged {| setNumber := 1; reps := 10%float; weight := 20%float;
                                   timestamp := 2000 |} (fresh bench));
                      fresh row] /\
    totalVolume done = Some v /\
    v = 400%float /\
    totalSets done = Some 2.
Proof.
  destruct (finishSession_totals db_add_ok (VNum 3) 63000 st_logged
              (match workoutSession st_logged with Some s => s | None => (startSession push_day 1000 new).1 end)
              (VNum 42) eq_refl eq_refl)
    as (done & v & Hret & Hex & Hv & Hspec & Hsets & _).
  exists done, v. repeat split; assumption.
Defined.

(** C10. Without an active session every session method returns at
    once: [logSet] leaves the manager as it is, [getCurrentExercise],
    [nextExercise], [previousExercise] and [finishSession] return [null]
    (without touching the state, writing History or reporting anything),
    [isWorkoutComplete] is [false] and [getSessionProgress] is 0. *)
Theorem no_session_is_noop cw i n r wt now db_add uid :
  let st := {| currentWorkout := cw; workoutSession := None;
               currentExerciseIndex := i |} in
  logSet n r wt now st = Ok st /\
  getCurrentExercise st = Null /\
  nextExercise st = (Null, st) /\
  previousExercise st = (Null, st) /\
  finishSession db_add uid now st = (Null, st, []) /\
  isWorkoutComplete st = false /\
  getSessionProgress st = Some 0.
Proof. cbn. repeat split. Qed.

(** ** [finishSession] when the History write throws *)

(** C6, as stated, fails: a failed [finishSession] leaves the session in
    place but not unchanged.  On the started example session the History
    write throws, [null] comes back, and [workoutSession] now carries
    [endTime], [userId], [durationMinutes], [totalSets] and
    [totalVolume]. *)
Lemma finishSession_failure_stamps_session :
  (finishSession db_add_fails (VNum 3) 63000 st_logged).1.1 = Null /\
  workoutSession (finishSession db_add_fails (VNum 3) 63000 st_logged).1.2
    <> workoutSession st_logged /\
  (endTime <$> workoutSession st_logged) = Some None /\
  (endTime <$> workoutSession (finishSession db_add_fails (VNum 3) 63000 st_logged).1.2)
    = Some (Some 63000).
Proof. repeat split. cbn. intros H. discriminate H. Qed.

(** C6, amended.  If the History write throws, [finishSession] reports
    the error (logger and toast), returns [null] and does not clear the
    session: [currentWorkout] and [currentExerciseIndex] are unchanged and
    [workoutSession] is the same session with the same exercises and
    logged sets, now stamped with [endTime], [userId], [durationMinutes],
    [totalSets] and [totalVolume].  The session is cleared exactly when
    the History write does not throw. *)
Theorem finishSession_failure_keeps_session db_add uid now st s :
  workoutSession st = Some s ->
  (forall e, db_add (stamp uid now s) = Throw e ->
     finishSession db_add uid now st =
       (Null,
        {| currentWorkout := currentWorkout st;
           workoutSession := Some (stamp uid now s);
           currentExerciseIndex := currentExerciseIndex st |},
        [LoggerError "Error finishing session:" e;
         ToastError "Erro ao salvar histórico do treino"]) /\
     exercises (stamp uid now s) = exercises s /\
     startTime (stamp uid now s) = startTime s /\
     workoutId (stamp uid now s) = workoutId s /\
     workoutName (stamp uid now s) = workoutName s /\
     endTime (stamp uid now s) = Some now /\
     userId (stamp uid now s) = Some uid) /\
  (workoutSession (finishSession db_add uid now st).1.2 = None <->
   exists historyId, db_add (stamp uid now s) = Ok historyId) /\
  (forall historyId, db_add (stamp uid now s) = Ok historyId ->
     (finishSession db_add uid now st).1.2 = new).
Proof.
  intros Hs. unfold finishSession. rewrite Hs. split; [|split].
  - intros e He. rewrite He. repeat split.
  - destruct (db_add (stamp uid now s)) as [h|e]; cbn; split.
    + eauto.
    + reflexivity.
    + discriminate.
    + intros [h Hh]. discriminate Hh.
  - intros h Hh. now rewrite Hh.
Qed.

Lemma finishSession_failure_keeps_session_witness :
  finishSession db_add_fails (VNum 3) 63000 st_logged =
    (Null,
     {| currentWorkout := Some push_day;
        workoutSession :=
          Some (stamp (VNum 3) 63000
                  (match workoutSession st_logged with
                   | Some s => s
                   | None => (startSession push_day 1000 new).1
                   end));
        currentExerciseIndex := 0 |},
     [LoggerError "Error finishing session:" ConstraintError;
      ToastError "Erro ao salvar histórico do treino"]).
Proof.
  apply (finishSession_failure_keeps_session db_add_fails (VNum 3) 63000 st_logged
           (match workoutSession st_logged with
            | Some s => s
            | None => (startSession push_day 1000 new).1
            end) eq_refl).
  reflexivity.
Defined.

(** ** A whole session *)

(** Two exercises of three sets each: after three sets the first one is
    completed and the workout is not; [nextExercise] returns the second;
    after three more sets the workout is complete, and [finishSession]
    returns 6 sets, the volume 2*10*12 + 8*12.5 twice, and the minutes
    between start and end. *)
Example two_exercises_three_sets :
  exists st1 st2 ex1 ex2 done,
    three_sets 0 (startSession shoulders 0 new).2 = Ok st1 /\
    getCurrentExercise st1 = Value ex1 /\ completed ex1 = true /\
    isWorkoutComplete st1 = false /\
    (nextExercise st1).1 = Value ex2 /\ exerciseId ex2 = 35 /\
    three_sets 180000 (nextExercise st1).2 = Ok st2 /\
    isWorkoutComplete st2 = true /\
    getSessionProgress st2 = Some 100 /\
    (finishSession (fun _ => Ok (VNum 1)) (VNum 3) 330000 st2).1.1 = Value done /\
    totalSets done = Some 6 /\
    durationMinutes done = Some 6 /\
    (exists v, totalVolume done = Some v /\ v = 680%float) /\
    (finishSession (fun _ => Ok (VNum 1)) (VNum 3) 330000 st2).1.2 = new.
Proof.
  do 5 eexists.
  repeat match goal with |- _ /\ _ => split end; try reflexivity.
  eexists. split; reflexivity.
Qed.

(** Volumes are doubles, as in JavaScript: three sets of one repetition
    at 0.1 add up to the double next above 0.3, and a weight that
    [parseFloat] could not read makes the volume [NaN]. *)
Example volume_in_double_precision :
  let tenth := {| setNumber := 1; reps := 1%float; weight := 0.1%float; timestamp := 0 |} in
  let unread := {| setNumber := 1; reps := 1%float; weight := nan; timestamp := 0 |} in
  exercise_volume (logged tenth (logged tenth (logged tenth bench)))
  = 0.30000000000000004%float /\
  PrimFloat.ltb 0.3%float (exercise_volume (logged tenth (logged tenth (logged tenth bench))))
  = true /\
  PrimFloat.is_nan (exercise_volume (logged unread (logged tenth bench))) = true.
Proof. repeat split; vm_compute; reflexivity. Qed.

End WorkoutsFacts.

(* ===================================================================== *)
(** * Part VIII.  Local Store and Sync Adapter: properties                *)
(* ===================================================================== *)

Module StoreFacts.
Import StoreSpec.

(** ** Running the monad in proofs *)

Ltac mrun :=
  unfold bind, ret, throw, try_catch, get_world, modify, tick,
         console_log, console_warn, console_error in *;
  cbn in *.

Lemma bind_ok {A B} (m : M A) (f : A -> M B) w a w1 :
  m w = (Ok a, w1) -> bind m f w = f a w1.
Proof. intros H. unfold bind. now rewrite H. Qed.

Lemma bind_throw {A B} (m : M A) (f : A -> M B) w e w1 :
  m w = (Throw e, w1) -> bind m f w = (Throw e, w1).
Proof. intros H. unfold bind. now rewrite H. Qed.

(** ** Frame properties: what the two stores leave alone *)

Lemma transaction_inv store w r w' :
  IDB.transaction store w = (r, w') -> w' = w.
Proof.
  unfold IDB.transaction. destruct (idb w !! store); intros [= _ <-]; reflexivity.
Qed.

Lemma Database_add_frame env c store data w r w' :
  Database.add env c store data w = (r, w') ->
  same_adapter w w' /\ same_cloud w w' /\
  (forall e, r = Throw e -> same_local w w').
Proof.
  unfold Database.add, Database.not_ready, IDB.store_add, IDB.commit. mrun.
  destruct (db_handle w) eqn:Hh; cbn.
  - unfold IDB.transaction. destruct (idb w !! store) as [os|]; cbn.
    + destruct (IDB.resolve_key store os _) as [k|e]; cbn.
      * destruct (rows os !! k); cbn; intros [= <- <-]; cbn;
          (repeat split; auto; try discriminate).
      * intros [= <- <-]. repeat split; auto.
    + intros [= <- <-]. repeat split; auto.
  - destruct c; cbn; intros [= <- <-]; cbn; repeat split; auto; discriminate.
Qed.

Lemma Database_update_frame env c store data w r w' :
  Database.update env c store data w = (r, w') ->
  same_adapter w w' /\ same_cloud w w' /\
  (forall e, r = Throw e -> same_local w w').
Proof.
  unfold Database.update, Database.not_ready, IDB.store_put, IDB.commit. mrun.
  destruct (db_handle w) eqn:Hh; cbn.
  - unfold IDB.transaction. destruct (idb w !! store) as [os|]; cbn.
    + destruct (IDB.resolve_key store os _) as [k|e]; cbn;
        intros [= <- <-]; cbn; (repeat split; auto; try discriminate).
    + intros [= <- <-]. repeat split; auto.
  - destruct c; cbn; intros [= <- <-]; cbn; repeat split; auto; discriminate.
Qed.

Lemma FirebaseDB_add_frame env store data w r w' :
  FirebaseDB.add env store data w = (r, w') ->
  same_adapter w w' /\ same_local w w' /\ ticks w' = S (ticks w) /\
  cloud_updates w' = cloud_updates w /\
  match r with
  | Ok id =>
      cloud_add env (ticks w) store (<["createdAt" := VStr (now env)]> data) = inr id /\
      cloud_docs w' =
        cloud_docs w ++ [(store, id, <["createdAt" := VStr (now env)]> data)]
  | Throw e =>
      cloud_add env (ticks w) store (<["createdAt" := VStr (now env)]> data) = inl e /\
      cloud_docs w' = cloud_docs w
  end.
Proof.
  unfold FirebaseDB.add. mrun.
  destruct (cloud_add env (ticks w) store _) as [e|id] eqn:Hc; cbn;
    intros [= <- <-]; cbn; repeat split; auto.
Qed.

Lemma FirebaseDB_update_frame env store data w r w' :
  FirebaseDB.update env store data w = (r, w') ->
  same_adapter w w' /\ same_local w w' /\ ticks w' = S (ticks w) /\
  cloud_docs w' = cloud_docs w /\
  match r with
  | Ok d =>
      d = data /\
      cloud_updates w' =
        cloud_updates w ++
          [(store, data !! "id", <["updatedAt" := VStr (now env)]> data)]
  | Throw e => cloud_updates w' = cloud_updates w
  end.
Proof.
  unfold FirebaseDB.update. mrun.
  destruct (cloud_update env (ticks w) store _) as [e|] eqn:Hc; cbn;
    intros [= <- <-]; cbn; repeat split; auto.
Qed.

Lemma remote_write_frame env op store data w r w' :
  remote_write env op store data w = (r, w') ->
  same_adapter w w' /\ same_local w w'.
Proof.
  destruct op; unfold remote_write, bind, ret.
  - destruct (FirebaseDB.add env store data w) as [[i|e] w1] eqn:Ha;
      apply FirebaseDB_add_frame in Ha; intros [= <- <-]; tauto.
  - destruct (FirebaseDB.update env store data w) as [[d|e] w1] eqn:Hu;
      apply FirebaseDB_update_frame in Hu; intros [= <- <-]; tauto.
Qed.

Lemma mirror_write_frame env c op store data r w res w' :
  mirror_write env c op store data r w = (res, w') ->
  same_adapter w w' /\ same_cloud w w' /\
  (forall e, res = Throw e -> same_local w w').
Proof.
  destruct op; cbn; [apply Database_add_frame|apply Database_update_frame].
Qed.

(** ** Dual writes in cloud mode *)

Lemma getDB_cloud w : cloud_enabled w -> DbAdapter.getDB w = DbAdapter.FirebaseDB.
Proof. intros [Hu Hm]. unfold DbAdapter.getDB. now rewrite Hu, Hm. Qed.

(** C2. In cloud mode, when the Remote Store write of an [add] fails,
    the [add] fails with that error and the Local Store mirror write is
    not attempted: the local stores and the console are as before (no row
    written, no not-ready warning), and Firestore holds no new document. *)
Theorem remote_add_failure_fails_add env c store data w e w1 :
  cloud_enabled w ->
  FirebaseDB.add env store data w = (Throw e, w1) ->
  DbAdapter.add env c store data w = (Throw e, w1) /\
  idb w1 = idb w /\
  console w1 = console w /\
  cloud_docs w1 = cloud_docs w.
Proof.
  intros Hc Hadd. split.
  - unfold DbAdapter.add. unfold bind at 1. unfold get_world at 1.
    rewrite (getDB_cloud w Hc).
    rewrite (bind_throw _ _ w e w1); [reflexivity|].
    now rewrite (bind_throw _ _ w e w1 Hadd).
  - apply FirebaseDB_add_frame in Hadd.
    destruct Hadd as (_ & (Hi & _ & Hcon & _) & _ & _ & _ & Hd). auto.
Qed.

Lemma remote_add_failure_fails_add_witness :
  let w := cloud_world env_users_rejected in
  let w1 := (FirebaseDB.add env_users_rejected "users" ana w).2 in
  DbAdapter.add env_users_rejected DbV3 "users" ana w
    = (Throw (FirebaseError "permission-denied"), w1) /\
  idb w1 = idb w /\
  console w1 = console w /\
  cloud_docs w1 = cloud_docs w.
Proof.
  apply (remote_add_failure_fails_add env_users_rejected DbV3 "users" ana
           (cloud_world env_users_rejected) (FirebaseError "permission-denied")).
  - split; vm_compute; reflexivity.
  - vm_compute. reflexivity.
Defined.

(** C1, as stated, fails.  In cloud mode the seeded exercise 1 is added
    again: Firestore stores it under a new id, the local mirror write
    hits the existing key 1 and rejects with [ConstraintError], and so
    does [database.add]; nothing is written to the console. *)
Lemma mirror_failure_rejects_add :
  let w := cloud_world env_up in
  let w1 := (FirebaseDB.add env_up "exercises" supino w).2 in
  let w2 :=
    (Database.add env_up DbV3 "exercises" (<["cloudId" := VStr "doc4"]> supino) w1).2 in
  FirebaseDB.add env_up "exercises" supino w = (Ok "doc4", w1) /\
  Database.add env_up DbV3 "exercises" (<["cloudId" := VStr "doc4"]> supino) w1
    = (Throw ConstraintError, w2) /\
  DbAdapter.add env_up DbV3 "exercises" supino w = (Throw ConstraintError, w2) /\
  (DbAdapter.add env_up DbV3 "exercises" supino w).1 <> Ok (VStr "doc4") /\
  console w2 = console w.
Proof.
  cbv zeta. split; [vm_compute; reflexivity|].
  split; [vm_compute; reflexivity|].
  split; [vm_compute; reflexivity|].
  split; [vm_compute; discriminate|].
  vm_compute; reflexivity.
Qed.

(** C1, amended.  In cloud mode, when the Remote Store write of [add] or
    [update] succeeds and the Local Store mirror write that follows
    fails, the [add]/[update] call fails with the mirror's error; the
    remote write is not rolled back (Firestore is as the remote write left
    it), the local stores are unchanged and nothing is logged. *)
Theorem mirror_failure_propagates env c op store data w r w1 e w2 :
  cloud_enabled w ->
  remote_write env op store data w = (Ok r, w1) ->
  mirror_write env c op store data r w1 = (Throw e, w2) ->
  adapter_write env c op store data w = (Throw e, w2) /\
  cloud_docs w2 = cloud_docs w1 /\
  cloud_updates w2 = cloud_updates w1 /\
  idb w2 = idb w1 /\
  console w2 = console w1.
Proof.
  intros Hc Hr Hm.
  pose proof (remote_write_frame _ _ _ _ _ _ _ Hr) as [(Hu & _) _].
  pose proof (mirror_write_frame _ _ _ _ _ _ _ _ _ Hm) as (_ & (Hd & Hup & _) & Hl).
  destruct (Hl e eq_refl) as (Hi & _ & Hcon & _).
  split; [|auto].
  destruct Hc as [Hc1 Hc2]. rewrite Hc1 in Hu.
  destruct op; cbn [adapter_write remote_write mirror_write] in *.
  - unfold DbAdapter.add, DbAdapter.getDB.
    unfold bind, get_world, ret in *. rewrite Hc1, Hc2. cbn [andb].
    rewrite Hr, Hu, Hm. reflexivity.
  - unfold DbAdapter.update, DbAdapter.getDB.
    unfold bind, get_world, ret in *. rewrite Hc1, Hc2. cbn [andb].
    rewrite Hr, Hu, Hm. reflexivity.
Qed.

Lemma mirror_failure_propagates_witness :
  let w := cloud_world env_up in
  let w1 := (remote_write env_up OpAdd "exercises" supino w).2 in
  let w2 := (mirror_write env_up DbV3 OpAdd "exercises" supino (VStr "doc4") w1).2 in
  adapter_write env_up DbV3 OpAdd "exercises" supino w = (Throw ConstraintError, w2) /\
  cloud_docs w2 = cloud_docs w1 /\
  cloud_updates w2 = cloud_updates w1 /\
  idb w2 = idb w1 /\
  console w2 = console w1.
Proof.
  apply (mirror_failure_propagates env_up DbV3 OpAdd "exercises" supino
           (cloud_world env_up) (VStr "doc4")).
  - split; vm_compute; reflexivity.
  - vm_compute. reflexivity.
  - vm_compute. reflexivity.
Defined.

(** ** The Local Store before [init()] has completed *)

(** The guarded copy of [database.js] ([DbV3]): while [this.db] is
    [null] each of the six operations logs its warning and returns its
    benign result, [null] for [add], [get] and [update], an empty array
    for [getAll] and [getByIndex], [undefined] for [delete]; it does not
    throw and changes nothing else. *)
Lemma Database_v3_not_ready_is_benign env w store data id indexName v :
  db_handle w = false ->
  Database.add env DbV3 store data w = (Ok VNull, warned "add" w) /\
  Database.get DbV3 store id w = (Ok VNull, warned "get" w) /\
  Database.getAll DbV3 store w = (Ok [], warned "getAll" w) /\
  Database.getByIndex DbV3 store indexName v w = (Ok [], warned "getByIndex" w) /\
  Database.update env DbV3 store data w = (Ok VNull, warned "update" w) /\
  Database.delete DbV3 store id w = (Ok VUndef, warned "delete" w).
Proof.
  intros Hh.
  unfold Database.add, Database.get, Database.getAll, Database.getByIndex,
         Database.update, Database.delete, Database.not_ready, warned.
  mrun. rewrite Hh. cbn. repeat split.
Qed.

Lemma Database_v3_not_ready_is_benign_witness :
  let w := boot AdapterA in
  Database.add env_up DbV3 "users" ana w = (Ok VNull, warned "add" w) /\
  Database.get DbV3 "users" (VNum 1) w = (Ok VNull, warned "get" w) /\
  Database.getAll DbV3 "users" w = (Ok [], warned "getAll" w) /\
  Database.getByIndex DbV3 "users" "email" (VStr "ana@example.com") w
    = (Ok [], warned "getByIndex" w) /\
  Database.update env_up DbV3 "users" ana w = (Ok VNull, warned "update" w) /\
  Database.delete DbV3 "users" (VNum 1) w = (Ok VUndef, warned "delete" w).
Proof.
  apply (Database_v3_not_ready_is_benign env_up (boot AdapterA) "users" ana (VNum 1)
           "email" (VStr "ana@example.com")).
  reflexivity.
Defined.

(** C5 on the unguarded copy of [database.js] ([DbV2]).  Before
    [init()] every operation rejects with the [TypeError] of
    [this.db.transaction] on [null]; nothing is logged and nothing benign
    is returned. *)
Theorem Database_v2_not_ready_rejects env a store data id indexName v :
  let w := boot a in
  Database.add env DbV2 store data w = (Throw TypeError, w) /\
  Database.get DbV2 store id w = (Throw TypeError, w) /\
  Database.getAll DbV2 store w = (Throw TypeError, w) /\
  Database.getByIndex DbV2 store indexName v w = (Throw TypeError, w) /\
  Database.update env DbV2 store data w = (Throw TypeError, w) /\
  Database.delete DbV2 store id w = (Throw TypeError, w).
Proof. cbn. repeat split. Qed.

(** ** Enabling cloud mode *)

(** In local-only mode [database.add] is the Local Store's [add]. *)
Lemma adapter_add_local env c store data w :
  useFirebase w = false ->
  DbAdapter.add env c store data w = Database.add env c store data w.
Proof.
  intros Hu. unfold DbAdapter.add, DbAdapter.getDB.
  unfold bind, get_world, ret. rewrite Hu. cbn [andb].
  destruct (Database.add env c store data w) as [[r|e] w2] eqn:Ha; [|reflexivity].
  apply Database_add_frame in Ha. destruct Ha as ((Hu' & _) & _).
  rewrite Hu', Hu. reflexivity.
Qed.

(** Both copies, handshake failing with an exception (the dynamic import
    rejects): when the Local Store opens, [enableCloud] resolves,
    [isCloudEnabled()] is [false] afterwards, the warning is logged, and
    [add] is then exactly the Local Store's [add], with Firestore left
    alone. *)
Lemma enableCloud_import_fails env a c w :
  idb_open_ok env (ticks w) = true ->
  idb_version w <= DB_VERSION c ->
  import_ok env (S (ticks w)) = false ->
  exists w1,
    DbAdapter.enableCloud env a c w = (Ok tt, w1) /\
    DbAdapter.isCloudEnabled w1 = false /\
    (exists msg, last (console w1) = Some (Warn msg)) /\
    cloud_docs w1 = cloud_docs w /\
    forall store data,
      DbAdapter.add env c store data w1 = Database.add env c store data w1 /\
      cloud_docs (DbAdapter.add env c store data w1).2 = cloud_docs w.
Proof.
  intros Hopen Hver Himp.
  assert (Hlt : (DB_VERSION c <? idb_version w) = false) by (apply Z.ltb_ge; lia).
  assert (H : exists w1, DbAdapter.enableCloud env a c w = (Ok tt, w1) /\
                useFirebase w1 = false /\
                (exists msg, last (console w1) = Some (Warn msg)) /\
                cloud_docs w1 = cloud_docs w).
  { unfold DbAdapter.enableCloud, DbAdapter.initDatabase, Database.init,
           DbAdapter.import_firebase_config.
    mrun. rewrite Hopen, Hlt. cbn.
    destruct (idb_version w <? DB_VERSION c); cbn; destruct a; cbn; rewrite Himp; cbn;
      (eexists; split; [reflexivity|]; cbn; split; [reflexivity|];
       split; [rewrite last_snoc; eauto|reflexivity]). }
  destruct H as (w1 & Hrun & Hu & Hwarn & Hd).
  exists w1. repeat split; auto.
  - now apply adapter_add_local.
  - rewrite (adapter_add_local env c store data w1 Hu).
    destruct (Database.add env c store data w1) as [r w2] eqn:Ha.
    apply Database_add_frame in Ha. destruct Ha as (_ & (Hd' & _) & _).
    cbn. congruence.
Qed.

(** The first copy tests the result of [initFirebase]: when the SDK
    fails inside it and the adapter is in local-only mode, it stays
    there. *)
Lemma enableCloud_copyA_init_false env c w :
  idb_open_ok env (ticks w) = true ->
  idb_version w <= DB_VERSION c ->
  import_ok env (S (ticks w)) = true ->
  sdk_init_ok env (S (S (ticks w))) = false ->
  useFirebase w = false ->
  exists w1,
    DbAdapter.enableCloud env AdapterA c w = (Ok tt, w1) /\
    DbAdapter.isCloudEnabled w1 = false.
Proof.
  intros Hopen Hver Himp Hsdk Hu.
  assert (Hlt : (DB_VERSION c <? idb_version w) = false) by (apply Z.ltb_ge; lia).
  unfold DbAdapter.enableCloud, DbAdapter.initDatabase, Database.init,
         DbAdapter.import_firebase_config, initFirebase.
  mrun. rewrite Hopen, Hlt. cbn.
  destruct (idb_version w <? DB_VERSION c); cbn; rewrite Himp; cbn; rewrite Hsdk; cbn;
    eexists; (split; [reflexivity|exact Hu]).
Qed.

(** The second copy does not: whatever [initFirebase] returns,
    [useFirebase] becomes [true]. *)
Lemma enableCloud_copyB_init_false env c w :
  idb_open_ok env (ticks w) = true ->
  idb_version w <= DB_VERSION c ->
  import_ok env (S (ticks w)) = true ->
  sdk_init_ok env (S (S (ticks w))) = false ->
  exists w1,
    DbAdapter.enableCloud env AdapterB c w = (Ok tt, w1) /\
    DbAdapter.isCloudEnabled w1 = true /\
    DbAdapter.getDB w1 = DbAdapter.FirebaseDB.
Proof.
  intros Hopen Hver Himp Hsdk.
  assert (Hlt : (DB_VERSION c <? idb_version w) = false) by (apply Z.ltb_ge; lia).
  unfold DbAdapter.enableCloud, DbAdapter.initDatabase, Database.init,
         DbAdapter.import_firebase_config, initFirebase.
  mrun. rewrite Hopen, Hlt. cbn.
  destruct (idb_version w <? DB_VERSION c); cbn; rewrite Himp; cbn; rewrite Hsdk; cbn;
    eexists; (split; [reflexivity|split; reflexivity]).
Qed.

(** C4 on the second copy of [db-adapter.js].  The page has loaded, the
    module imports, and the Firebase SDK fails inside [initFirebase],
    which logs the error and returns [false].  [enableCloud] resolves,
    but [isCloudEnabled()] is [true], [getDB()] is the Remote Store, and
    the next [add] is sent to Firestore and rejects; the Local Store
    receives nothing. *)
Theorem enableCloud_copyB_failed_handshake :
  let r := DbAdapter.enableCloud env_sdk_down AdapterB DbV3 (boot AdapterB) in
  let r' := DbAdapter.add env_sdk_down DbV3 "workouts" leg_day r.2 in
  r.1 = Ok tt /\
  console r.2 = [Error "Firebase initialization error:" (Some (FirebaseError "init"));
                 Log "Firebase cloud sync enabled"] /\
  DbAdapter.isCloudEnabled r.2 = true /\
  DbAdapter.getDB r.2 = DbAdapter.FirebaseDB /\
  r'.1 = Throw (FirebaseError "invalid-argument") /\
  idb r'.2 = idb r.2.
Proof. cbv zeta. repeat (match goal with |- _ /\ _ => split end); vm_compute; reflexivity. Qed.

(** ** Reconciliation: records and keys *)

Lemma keyPath_cases store : keyPath store = "key" \/ keyPath store = "id".
Proof. unfold keyPath. destruct (decide (store = "settings")); auto. Qed.

Lemma keyPath_not_cloudId store : keyPath store <> "cloudId".
Proof. destruct (keyPath_cases store) as [-> | ->]; discriminate. Qed.

Lemma keyPath_not_updatedAt store : keyPath store <> "updatedAt".
Proof. destruct (keyPath_cases store) as [-> | ->]; discriminate. Qed.

Lemma to_key_of_key k : to_key (Some (of_key k)) = Some k.
Proof. now destruct k. Qed.

Lemma to_key_Some v k : to_key v = Some k -> v = Some (of_key k).
Proof.
  destruct v as [[]|]; cbn; intros [= <-]; reflexivity.
Qed.

Lemma key_of_stored store k o : key_of store (IDB.stored store k o) = Some k.
Proof.
  unfold key_of, IDB.stored. rewrite lookup_insert_eq. apply to_key_of_key.
Qed.

Lemma key_of_rewritten env store id item :
  key_of store (rewritten env id item) = key_of store item.
Proof.
  unfold key_of, rewritten.
  rewrite lookup_insert_ne by (apply not_eq_sym, keyPath_not_updatedAt).
  now rewrite lookup_insert_ne by (apply not_eq_sym, keyPath_not_cloudId).
Qed.

Lemma stored_id store k item :
  key_of store item = Some k -> IDB.stored store k item = item.
Proof.
  intros Hk. apply to_key_Some in Hk. unfold IDB.stored. now apply insert_id.
Qed.

Lemma resolve_key_of store os item k :
  key_of store item = Some k -> IDB.resolve_key store os item = Ok k.
Proof.
  unfold key_of, IDB.resolve_key. intros Hk.
  destruct (item !! keyPath store) as [[]|]; cbn in *; try discriminate;
    now injection Hk as <-.
Qed.

Lemma rewritten_has_cloudId env store k id item :
  id <> "" -> ~ lacks_cloudId (IDB.stored store k (rewritten env id item)).
Proof.
  intros Hid. unfold lacks_cloudId, IDB.stored, rewritten.
  rewrite lookup_insert_ne by apply keyPath_not_cloudId.
  rewrite lookup_insert_ne by discriminate.
  rewrite lookup_insert_eq. cbn.
  destruct (String.eqb_spec id ""); [contradiction|discriminate].
Qed.

Lemma elem_of_records store os item :
  item ∈ IDB.records store os <->
  exists k o, rows os !! k = Some o /\ item = IDB.stored store k o.
Proof.
  unfold IDB.records. rewrite list_elem_of_fmap. split.
  - intros ([k o] & -> & Hin). rewrite merge_sort_Permutation in Hin.
    apply elem_of_map_to_list in Hin. eauto.
  - intros (k & o & Hk & ->). exists (k, o). split; [reflexivity|].
    rewrite merge_sort_Permutation. now apply elem_of_map_to_list.
Qed.

Lemma records_keys store os :
  key_of store <$> IDB.records store os
  = Some <$> (merge_sort IDB.row_le (map_to_list (rows os))).*1.
Proof.
  unfold IDB.records. rewrite <- !list_fmap_compose.
  apply list_fmap_ext. intros i [k o] _. cbn. apply key_of_stored.
Qed.

Lemma records_NoDup store os : NoDup (key_of store <$> IDB.records store os).
Proof.
  rewrite records_keys. apply (NoDup_fmap_2 _).
  rewrite merge_sort_Permutation. apply NoDup_fst_map_to_list.
Qed.

Lemma records_have_keys store os :
  Forall (fun item => is_Some (key_of store item)) (IDB.records store os).
Proof.
  apply Forall_forall. intros item Hin. apply elem_of_records in Hin.
  destruct Hin as (k & o & _ & ->). rewrite key_of_stored. eauto.
Qed.

(** ** Reconciliation: one record *)

Lemma sync_item_skip env c store item w :
  ~ lacks_cloudId item ->
  DbAdapter.sync_item env c store item w = (Ok tt, w).
Proof.
  unfold lacks_cloudId, DbAdapter.sync_item. intros H.
  destruct (truthy (item !! "cloudId")); [reflexivity|contradiction].
Qed.

Lemma sync_item_upload env c store item w os k id :
  db_handle w = true ->
  idb w !! store = Some os ->
  key_of store item = Some k ->
  lacks_cloudId item ->
  cloud_add env (ticks w) store (<["createdAt" := VStr (now env)]> item) = inr id ->
  exists w' os',
    DbAdapter.sync_item env c store item w = (Ok tt, w') /\
    idb w' = <[store := os']> (idb w) /\
    rows os' = <[k := IDB.stored store k (rewritten env id item)]> (rows os) /\
    cloud_docs w' = cloud_docs w ++ [uploaded env id (store, item)] /\
    console w' = console w /\
    same_mode w w'.
Proof.
  intros Hh Hs Hk Hl Hadd.
  unfold lacks_cloudId in Hl.
  pose proof (resolve_key_of store os (rewritten env id item) k) as Hres.
  rewrite key_of_rewritten in Hres. specialize (Hres Hk).
  unfold rewritten in Hres.
  unfold DbAdapter.sync_item, FirebaseDB.add, Database.update, IDB.store_put,
         IDB.transaction, IDB.commit.
  rewrite Hl. mrun. rewrite Hadd. cbn. rewrite Hh. cbn. rewrite Hs. cbn.
  rewrite Hres. cbn.
  eexists _, _. split; [reflexivity|]. cbn.
  split; [reflexivity|]. cbn. split; [reflexivity|].
  split; [reflexivity|]. split; [reflexivity|]. repeat split; assumption.
Qed.

(** ** Reconciliation: the records of one store *)

Lemma sync_items_spec env c store :
  uploads_succeed env ->
  forall items w os,
    db_handle w = true ->
    idb w !! store = Some os ->
    Forall (fun item => is_Some (key_of store item)) items ->
    NoDup (key_of store <$> items) ->
    exists w' os' ids,
      for_each items (DbAdapter.sync_item env c store) w = (Ok tt, w') /\
      idb w' = <[store := os']> (idb w) /\
      same_mode w w' /\
      console w' = console w /\
      cloud_docs w' =
        cloud_docs w ++
          zip_with (uploaded env) ids
            ((fun item => (store, item)) <$> filter lacks_cloudId items) /\
      (forall k, Some k ∉ key_of store <$> filter lacks_cloudId items ->
                 rows os' !! k = rows os !! k) /\
      Forall2 (fun id item =>
                 id <> "" /\
                 exists k, key_of store item = Some k /\
                           rows os' !! k = Some (IDB.stored store k (rewritten env id item)))
              ids (filter lacks_cloudId items).
Proof.
  intros Hup. induction items as [|item items IH]; intros w os Hh Hs Hkeys Hnd.
  - exists w, os, []. cbn. repeat split; auto.
    + now rewrite insert_id.
    + now rewrite app_nil_r.
  - apply Forall_cons in Hkeys as [[k Hk] Hkeys].
    rewrite fmap_cons in Hnd. apply NoDup_cons in Hnd as [Hnotin Hnd].
    destruct (decide (lacks_cloudId item)) as [Hl|Hl].
    + destruct (Hup (ticks w) store (<["createdAt" := VStr (now env)]> item))
        as (id & Hadd & Hid).
      destruct (sync_item_upload env c store item w os k id Hh Hs Hk Hl Hadd)
        as (w1 & os1 & Hrun & Hidb1 & Hrows1 & Hdocs1 & Hcon1 & Hm1).
      assert (Hh1 : db_handle w1 = true) by (destruct Hm1 as (-> & _); exact Hh).
      assert (Hs1 : idb w1 !! store = Some os1) by (rewrite Hidb1; apply lookup_insert_eq).
      destruct (IH w1 os1 Hh1 Hs1 Hkeys Hnd)
        as (w' & os' & ids & Hrun' & Hidb' & Hm' & Hcon' & Hdocs' & Hframe' & Hrw').
      assert (Hkeep : rows os' !! k = rows os1 !! k).
      { apply Hframe'. intros Hin. apply Hnotin. rewrite Hk.
        apply list_elem_of_fmap in Hin as (it & Hit & Hin).
        apply list_elem_of_filter in Hin as [_ Hin].
        apply list_elem_of_fmap. eauto. }
      exists w', os', (id :: ids).
      rewrite filter_cons_True by exact Hl.
      split; [cbn; now rewrite (bind_ok _ _ w tt w1 Hrun)|].
      split; [rewrite Hidb', Hidb1; apply insert_insert_eq|].
      split; [destruct Hm1 as (? & ? & ?), Hm' as (? & ? & ?);
              repeat split; congruence|].
      split; [congruence|].
      split; [rewrite Hdocs', Hdocs1, <- app_assoc; reflexivity|].
      split.
      { intros k' Hk'. rewrite fmap_cons, Hk in Hk'.
        apply not_elem_of_cons in Hk' as [Hne Hk'].
        rewrite (Hframe' k' Hk'), Hrows1.
        apply lookup_insert_ne. congruence. }
      constructor; [|exact Hrw'].
      split; [exact Hid|]. exists k. split; [exact Hk|].
      rewrite Hkeep, Hrows1. apply lookup_insert_eq.
    + rewrite filter_cons_False by exact Hl.
      destruct (IH w os Hh Hs Hkeys Hnd)
        as (w' & os' & ids & Hrun' & Hrest).
      exists w', os', ids. split; [|exact Hrest].
      cbn. now rewrite (bind_ok _ _ w tt w (sync_item_skip env c store item w Hl)).
Qed.

(** ** Reconciliation: one store *)

Lemma local_records_ext w w' store :
  idb w' !! store = idb w !! store -> local_records w' store = local_records w store.
Proof. unfold local_records. now intros ->. Qed.

Lemma pending_in_ext w w' store :
  idb w' !! store = idb w !! store -> pending_in w' store = pending_in w store.
Proof. unfold pending_in. intros H. now rewrite (local_records_ext w w' store H). Qed.

Lemma pending_ext stores w w' :
  (forall s, s ∈ stores -> idb w' !! s = idb w !! s) ->
  pending stores w' = pending stores w.
Proof.
  unfold pending. induction stores as [|s stores IH]; intros H; [reflexivity|].
  rewrite !bind_cons. rewrite (pending_in_ext w w' s) by (apply H; left).
  rewrite IH; [reflexivity|]. intros s' Hs'. apply H. now right.
Qed.

Lemma filter_none {A} (P : A -> Prop) `{forall x, Decision (P x)} (l : list A) :
  (forall x, x ∈ l -> ~ P x) -> filter P l = [].
Proof.
  induction l as [|x l IH]; intros Hl; [reflexivity|].
  rewrite filter_cons_False by (apply Hl; left).
  apply IH. intros y Hy. apply Hl. now right.
Qed.

Lemma Forall2_impl_elem {A B} (P Q : A -> B -> Prop) (l : list A) (k : list B) :
  Forall2 P l k -> (forall x y, y ∈ k -> P x y -> Q x y) -> Forall2 Q l k.
Proof.
  induction 1 as [|x y l k Hxy _ IH]; intros HPQ; constructor.
  - apply HPQ; [left|exact Hxy].
  - apply IH. intros x' y' Hy'. apply HPQ. now right.
Qed.

Lemma getAll_open c store w os :
  db_handle w = true -> idb w !! store = Some os ->
  Database.getAll c store w = (Ok (IDB.records store os), w).
Proof.
  intros Hh Hs. unfold Database.getAll, IDB.store_getAll, IDB.transaction.
  unfold bind, get_world, ret. rewrite Hh. cbn [negb]. now rewrite Hs.
Qed.

Lemma getAll_missing c store w :
  db_handle w = true -> idb w !! store = None ->
  Database.getAll c store w = (Throw NotFoundError, w).
Proof.
  intros Hh Hs. unfold Database.getAll, IDB.store_getAll, IDB.transaction.
  unfold bind, get_world, ret. rewrite Hh. cbn [negb]. now rewrite Hs.
Qed.

Lemma sync_store_spec env c store :
  uploads_succeed env ->
  forall w,
    db_handle w = true ->
    exists w' ids,
      DbAdapter.sync_store env c store w = (Ok tt, w') /\
      same_mode w w' /\
      (forall s, s <> store -> idb w' !! s = idb w !! s) /\
      cloud_docs w' = cloud_docs w ++ zip_with (uploaded env) ids (pending_in w store) /\
      Forall2 (fun id p => id <> "" /\ rewritten env id p.2 ∈ local_records w' p.1)
              ids (pending_in w store) /\
      pending_in w' store = [].
Proof.
  intros Hup w Hh.
  unfold DbAdapter.sync_store, DbAdapter.sync_store_body, try_catch.
  destruct (idb w !! store) as [os|] eqn:Hs.
  - assert (Hlr : local_records w store = IDB.records store os)
      by (unfold local_records; now rewrite Hs).
    unfold pending_in at 1 2. rewrite Hlr.
    rewrite (bind_ok _ _ w _ w (getAll_open c store w os Hh Hs)).
    destruct (sync_items_spec env c store Hup (IDB.records store os) w os Hh Hs
                (records_have_keys store os) (records_NoDup store os))
      as (w' & os' & ids & Hrun & Hidb & Hm & Hcon & Hdocs & Hframe & Hrw).
    rewrite Hrun. exists w', ids.
    assert (Hs' : idb w' !! store = Some os') by (rewrite Hidb; apply lookup_insert_eq).
    split; [reflexivity|]. split; [exact Hm|].
    split; [intros s Hne; rewrite Hidb; now apply lookup_insert_ne|].
    split; [exact Hdocs|].
    split.
    + apply Forall2_fmap_r. eapply Forall2_impl; [exact Hrw|].
      intros id item (Hid & k & Hk & Hrow). cbn. split; [exact Hid|].
      unfold local_records. rewrite Hs'. apply elem_of_records.
      exists k, (IDB.stored store k (rewritten env id item)). split; [exact Hrow|].
      assert (Hk' : key_of store (rewritten env id item) = Some k)
        by (now rewrite key_of_rewritten).
      now rewrite !(stored_id store k _ Hk').
    + unfold pending_in, local_records. rewrite Hs'.
      assert (Hnone : filter lacks_cloudId (IDB.records store os') = []);
        [|now rewrite Hnone].
      apply filter_none. intros item Hin.
      apply elem_of_records in Hin as (k & o & Hrow & ->).
      destruct (decide (Some k ∈ key_of store <$>
                          filter lacks_cloudId (IDB.records store os))) as [Hin|Hnin].
      * apply list_elem_of_fmap in Hin as (it & Hit & Hin).
        apply list_elem_of_lookup in Hin as [i Hi].
        destruct (Forall2_lookup_r _ _ _ _ _ Hrw Hi) as (id & _ & Hid & k' & Hk' & Hrow').
        assert (k' = k) by congruence. subst k'.
        rewrite Hrow in Hrow'. injection Hrow' as ->.
        rewrite (stored_id store k (IDB.stored store k (rewritten env id it)))
          by apply key_of_stored.
        now apply rewritten_has_cloudId.
      * rewrite (Hframe k Hnin) in Hrow. intros Hl. apply Hnin.
        apply list_elem_of_fmap. exists (IDB.stored store k o).
        split; [now rewrite key_of_stored|].
        apply list_elem_of_filter. split; [exact Hl|].
        apply elem_of_records. eauto.
  - rewrite (bind_throw _ _ w _ w (getAll_missing c store w Hh Hs)).
    unfold console_error, modify. eexists _, []. cbn.
    split; [reflexivity|]. split; [repeat split|].
    assert (Hlr : local_records w store = [])
      by (unfold local_records; now rewrite Hs).
    unfold pending_in, local_records. cbn. rewrite Hs. cbn.
    split; [reflexivity|]. split; [now rewrite app_nil_r|].
    split; [constructor|]. reflexivity.
Qed.

(** ** Reconciliation: all stores *)

Lemma pending_in_store w store p : p ∈ pending_in w store -> p.1 = store.
Proof.
  unfold pending_in. intros Hin. apply list_elem_of_fmap in Hin as (item & -> & _).
  reflexivity.
Qed.

Lemma sync_stores_spec env c :
  uploads_succeed env ->
  forall stores w,
    NoDup stores ->
    db_handle w = true ->
    exists w' ids,
      for_each stores (DbAdapter.sync_store env c) w = (Ok tt, w') /\
      same_mode w w' /\
      (forall s, s ∉ stores -> idb w' !! s = idb w !! s) /\
      cloud_docs w' = cloud_docs w ++ zip_with (uploaded env) ids (pending stores w) /\
      Forall2 (fun id p => id <> "" /\ rewritten env id p.2 ∈ local_records w' p.1)
              ids (pending stores w) /\
      pending stores w' = [].
Proof.
  intros Hup. induction stores as [|s stores IH]; intros w Hnd Hh.
  - exists w, []. cbn. repeat split; auto. now rewrite app_nil_r.
  - apply NoDup_cons in Hnd as [Hs Hnd].
    destruct (sync_store_spec env c s Hup w Hh)
      as (w1 & ids1 & Hrun1 & Hm1 & Hframe1 & Hdocs1 & Hrw1 & Hnone1).
    assert (Hh1 : db_handle w1 = true) by (destruct Hm1 as (-> & _); exact Hh).
    destruct (IH w1 Hnd Hh1) as (w' & ids2 & Hrun2 & Hm2 & Hframe2 & Hdocs2 & Hrw2 & Hnone2).
    assert (Hsame : pending stores w1 = pending stores w).
    { apply pending_ext. intros s' Hs'. apply Hframe1. intros ->. contradiction. }
    exists w', (ids1 ++ ids2). unfold pending. rewrite !bind_cons. fold (pending stores w).
    fold (pending stores w').
    split; [cbn; now rewrite (bind_ok _ _ w tt w1 Hrun1)|].
    split; [destruct Hm1 as (? & ? & ?), Hm2 as (? & ? & ?); repeat split; congruence|].
    split.
    { intros s' Hs'. apply not_elem_of_cons in Hs' as [Hne Hs'].
      rewrite (Hframe2 s' Hs'). now apply Hframe1. }
    split.
    { rewrite Hdocs2, Hdocs1, Hsame, <- app_assoc. f_equal.
      symmetry. apply zip_with_app. eapply Forall2_length; eauto. }
    split.
    { apply Forall2_app.
      - eapply Forall2_impl_elem; [exact Hrw1|]. intros id p Hp [Hid Hin].
        split; [exact Hid|]. rewrite (pending_in_store w s p Hp) in *.
        now rewrite (local_records_ext w1 w' s (Hframe2 s Hs)).
      - now rewrite <- Hsame. }
    rewrite Hnone2, app_nil_r. rewrite (pending_in_ext w1 w' s (Hframe2 s Hs)).
    exact Hnone1.
Qed.

(** ** Cloud mode implies an open Local Store *)

Lemma adapter_inv_boot a : adapter_inv (boot a).
Proof. unfold adapter_inv; cbn. discriminate. Qed.

Lemma adapter_inv_initDatabase env a c w r w' :
  adapter_inv w -> DbAdapter.initDatabase env a c w = (r, w') -> adapter_inv w'.
Proof.
  unfold adapter_inv, DbAdapter.initDatabase, Database.init,
         DbAdapter.import_firebase_config, initFirebase.
  intros Hinv. mrun.
  destruct (idb_open_ok env (ticks w)); cbn; [|intros [= <- <-]; exact Hinv].
  destruct (DB_VERSION c <? idb_version w); cbn; [intros [= <- <-]; exact Hinv|].
  destruct (idb_version w <? DB_VERSION c); cbn;
    (destruct (useCloud w); cbn;
     [ destruct a; cbn;
       (destruct (import_ok env (S (ticks w))); cbn;
        [ destruct (sdk_init_ok env (S (S (ticks w)))); cbn;
          intros [= <- <-]; cbn; try (intros _; split; reflexivity);
          intros Hu; destruct (Hinv Hu); split; reflexivity
        | intros [= <- <-]; cbn; discriminate ])
     | destruct a; cbn; intros [= <- <-]; cbn; try discriminate;
       intros Hu; destruct (Hinv Hu); split; [assumption|reflexivity] ]).
Qed.

Lemma adapter_inv_enableCloud env a c w r w' :
  adapter_inv w -> DbAdapter.enableCloud env a c w = (r, w') -> adapter_inv w'.
Proof.
  intros Hinv. unfold DbAdapter.enableCloud. unfold bind at 1. unfold modify at 1.
  unfold bind at 1.
  destruct (DbAdapter.initDatabase env a c (set_useCloud true w)) as [[b|e] w1] eqn:Hi;
    cbn; intros [= <- <-];
    exact (adapter_inv_initDatabase env a c (set_useCloud true w) _ w1 Hinv Hi).
Qed.

Lemma adapter_inv_disableCloud w r w' :
  DbAdapter.disableCloud w = (r, w') -> adapter_inv w'.
Proof.
  unfold DbAdapter.disableCloud, adapter_inv. mrun. intros [= <- <-]. cbn. discriminate.
Qed.

(** ** Worlds the application can reach *)

#[global] Instance same_mode_preorder : PreOrder same_mode.
Proof.
  split.
  - intros w. repeat split.
  - intros w1 w2 w3 (? & ? & ?) (? & ? & ?). repeat split; congruence.
Qed.

Lemma for_each_rel {A} (R : relation World) `{!PreOrder R} (l : list A) (f : A -> M unit) :
  (forall x w r w', f x w = (r, w') -> R w w') ->
  forall w r w', for_each l f w = (r, w') -> R w w'.
Proof.
  intros Hf. induction l as [|x l IH]; intros w r w'; cbn.
  - unfold ret. intros [= <- <-]. reflexivity.
  - unfold bind. destruct (f x w) as [[[]|e] w1] eqn:Hx.
    + intros Hl. etransitivity; [eapply Hf; eauto|eapply IH; eauto].
    + intros [= <- <-]. eapply Hf; eauto.
Qed.

Lemma same_adapter_flags w w' : same_adapter w w' -> same_mode w w'.
Proof. intros (? & ? & ? & ?). repeat split; assumption. Qed.

Lemma Database_getAll_flags c store w r w' :
  Database.getAll c store w = (r, w') -> same_mode w w'.
Proof.
  unfold Database.getAll, Database.not_ready, IDB.store_getAll, IDB.transaction.
  mrun. destruct (db_handle w) eqn:Hh; cbn.
  - destruct (idb w !! store) as [os|]; cbn; intros [= <- <-]; repeat split.
  - destruct c; cbn; intros [= <- <-]; cbn; repeat split.
Qed.

Lemma Database_delete_flags c store id w r w' :
  Database.delete c store id w = (r, w') -> same_mode w w'.
Proof.
  unfold Database.delete, Database.not_ready, IDB.store_delete, IDB.transaction,
         IDB.commit.
  mrun. destruct (db_handle w) eqn:Hh; cbn.
  - destruct (idb w !! store) as [os|]; cbn;
      [destruct id; cbn|]; intros [= <- <-]; repeat split.
  - destruct c; cbn; intros [= <- <-]; cbn; repeat split.
Qed.

Lemma sync_item_flags env c store item w r w' :
  DbAdapter.sync_item env c store item w = (r, w') -> same_mode w w'.
Proof.
  unfold DbAdapter.sync_item.
  destruct (negb (truthy (item !! "cloudId"))); [|intros [= <- <-]; reflexivity].
  unfold bind at 1.
  destruct (FirebaseDB.add env store item w) as [[id|e] w1] eqn:Ha;
    apply FirebaseDB_add_frame in Ha; destruct Ha as (Ha%same_adapter_flags & _).
  - unfold bind at 1.
    destruct (Database.update env c store _ w1) as [[v|e] w2] eqn:Hu;
      apply Database_update_frame in Hu; destruct Hu as (Hu%same_adapter_flags & _);
      cbn; intros [= <- <-]; etransitivity; eauto.
  - now intros [= <- <-].
Qed.

Lemma sync_store_flags env c store w r w' :
  DbAdapter.sync_store env c store w = (r, w') -> same_mode w w'.
Proof.
  unfold DbAdapter.sync_store, try_catch.
  destruct (DbAdapter.sync_store_body env c store w) as [[[]|e] w1] eqn:Hb.
  - intros [= <- <-]. revert Hb. unfold DbAdapter.sync_store_body, bind.
    destruct (Database.getAll c store w) as [[items|e] w0] eqn:Hg;
      apply Database_getAll_flags in Hg; [|discriminate].
    intros Hl. etransitivity; [exact Hg|].
    eapply (for_each_rel same_mode); [|exact Hl]. intros x. apply sync_item_flags.
  - unfold console_error, modify. intros [= <- <-].
    assert (H1 : same_mode w w1).
    { revert Hb. unfold DbAdapter.sync_store_body, bind.
      destruct (Database.getAll c store w) as [[items|e0] w0] eqn:Hg;
        apply Database_getAll_flags in Hg; [|now intros [= <- <-]].
      intros Hl. etransitivity; [exact Hg|].
      eapply (for_each_rel same_mode); [|exact Hl]. intros x. apply sync_item_flags. }
    destruct H1 as (? & ? & ?). repeat split; assumption.
Qed.

Lemma syncToCloud_flags env c w r w' :
  DbAdapter.syncToCloud env c w = (r, w') -> same_mode w w'.
Proof.
  unfold DbAdapter.syncToCloud. unfold bind at 1. unfold get_world at 1.
  destruct (negb (useFirebase w) || negb (firebaseModule w)).
  - unfold console_warn, modify, bind, ret. intros [= <- <-]. repeat split.
  - unfold bind.
    destruct (for_each (STORES c) (DbAdapter.sync_store env c) w) as [[[]|e] w1] eqn:Hl;
      intros [= <- <-];
      (eapply (for_each_rel same_mode); [|exact Hl]; intros x; apply sync_store_flags).
Qed.

(** The mirror write of [add] and [update], after a first write that
    left the flags alone. *)
Lemma mirror_tail_flags (mirror : M value) (r1 : value) w w1 r w' :
  same_mode w w1 ->
  (forall r2 w2, mirror w1 = (r2, w2) -> same_mode w1 w2) ->
  (let* w0 := get_world in
   (if useFirebase w0 then mirror ;; ret tt else ret tt) ;; ret r1) w1 = (r, w') ->
  same_mode w w'.
Proof.
  intros H1 Hm. unfold bind at 1. unfold get_world at 1. unfold bind at 1. unfold ret.
  destruct (useFirebase w1); [|now intros [= <- <-]].
  unfold bind.
  destruct (mirror w1) as [[v|e] w2] eqn:H2; specialize (Hm _ _ eq_refl);
    intros [= <- <-]; etransitivity; eauto.
Qed.

Lemma adapter_add_flags env c store data w r w' :
  DbAdapter.add env c store data w = (r, w') -> same_mode w w'.
Proof.
  unfold DbAdapter.add. unfold bind at 1. unfold get_world at 1.
  destruct (DbAdapter.getDB w); unfold bind at 1.
  - destruct (Database.add env c store data w) as [[id|e] w1] eqn:H;
      apply Database_add_frame in H as (H%same_adapter_flags & _);
      [|now intros [= <- <-]].
    apply mirror_tail_flags; [exact H|].
    intros r2 w2 (H2%same_adapter_flags & _)%Database_add_frame. exact H2.
  - destruct ((let* i := FirebaseDB.add env store data in ret (VStr i)) w)
      as [[id|e] w1] eqn:H;
      apply (remote_write_frame env OpAdd) in H as (H%same_adapter_flags & _);
      [|now intros [= <- <-]].
    apply mirror_tail_flags; [exact H|].
    intros r2 w2 (H2%same_adapter_flags & _)%Database_add_frame. exact H2.
Qed.

Lemma adapter_update_flags env c store data w r w' :
  DbAdapter.update env c store data w = (r, w') -> same_mode w w'.
Proof.
  unfold DbAdapter.update. unfold bind at 1. unfold get_world at 1.
  destruct (DbAdapter.getDB w); unfold bind at 1.
  - destruct (Database.update env c store data w) as [[id|e] w1] eqn:H;
      apply Database_update_frame in H as (H%same_adapter_flags & _);
      [|now intros [= <- <-]].
    apply mirror_tail_flags; [exact H|].
    intros r2 w2 (H2%same_adapter_flags & _)%Database_update_frame. exact H2.
  - destruct ((let* d := FirebaseDB.update env store data in ret (VObj d)) w)
      as [[id|e] w1] eqn:H;
      apply (remote_write_frame env OpUpdate) in H as (H%same_adapter_flags & _);
      [|now intros [= <- <-]].
    apply mirror_tail_flags; [exact H|].
    intros r2 w2 (H2%same_adapter_flags & _)%Database_update_frame. exact H2.
Qed.

Lemma adapter_inv_same_mode w w' : same_mode w w' -> adapter_inv w -> adapter_inv w'.
Proof. unfold adapter_inv. intros (-> & -> & ->). auto. Qed.

Lemma adapter_inv_Database_init env c w r w' :
  Database.init env c w = (r, w') -> adapter_inv w -> adapter_inv w'.
Proof.
  unfold adapter_inv, Database.init. mrun.
  destruct (idb_open_ok env (ticks w)); cbn; [|intros [= <- <-]; auto].
  destruct (DB_VERSION c <? idb_version w); cbn; [intros [= <- <-]; auto|].
  destruct (idb_version w <? DB_VERSION c); cbn; intros [= <- <-]; cbn;
    intros Hinv Hu; destruct (Hinv Hu); auto.
Qed.

Lemma reachable_adapter_inv env a c w : reachable env a c w -> adapter_inv w.
Proof.
  induction 1 as [ | w _ IH | w store data _ IH | w store data _ IH | w store id _ IH
                 | w _ IH | w _ IH | w _ IH | w store data _ IH | w store data _ IH
                 | w _ IH ].
  - apply adapter_inv_boot.
  - destruct (Database.init env c w) as [r w'] eqn:H.
    exact (adapter_inv_Database_init env c w r w' H IH).
  - destruct (Database.add env c store data w) as [r w'] eqn:H.
    apply Database_add_frame in H as (H%same_adapter_flags & _).
    exact (adapter_inv_same_mode w w' H IH).
  - destruct (Database.update env c store data w) as [r w'] eqn:H.
    apply Database_update_frame in H as (H%same_adapter_flags & _).
    exact (adapter_inv_same_mode w w' H IH).
  - destruct (Database.delete c store id w) as [r w'] eqn:H.
    apply Database_delete_flags in H. exact (adapter_inv_same_mode w w' H IH).
  - unfold DbAdapter.init, bind.
    destruct (DbAdapter.initDatabase env a c w) as [[b|e] w'] eqn:H;
      apply (adapter_inv_initDatabase env a c w _ w' IH) in H; exact H.
  - destruct (DbAdapter.enableCloud env a c w) as [r w'] eqn:H.
    exact (adapter_inv_enableCloud env a c w r w' IH H).
  - destruct (DbAdapter.disableCloud w) as [r w'] eqn:H.
    exact (adapter_inv_disableCloud w r w' H).
  - destruct (DbAdapter.add env c store data w) as [r w'] eqn:H.
    apply adapter_add_flags in H. exact (adapter_inv_same_mode w w' H IH).
  - destruct (DbAdapter.update env c store data w) as [r w'] eqn:H.
    apply adapter_update_flags in H. exact (adapter_inv_same_mode w w' H IH).
  - destruct (DbAdapter.syncToCloud env c w) as [r w'] eqn:H.
    apply syncToCloud_flags in H. exact (adapter_inv_same_mode w w' H IH).
Qed.

(** On every reachable world, [isCloudEnabled()] means that [getDB()]
    is the Remote Store and that the Local Store is open: the
    preconditions of the theorems on cloud mode. *)
Lemma reachable_cloud_mode env a c w :
  reachable env a c w ->
  DbAdapter.isCloudEnabled w = true ->
  cloud_enabled w /\ db_handle w = true.
Proof.
  intros Hr Hu. destruct (reachable_adapter_inv env a c w Hr Hu) as [Hm Hh].
  repeat split; assumption.
Qed.

(** ** Reconciliation never throws *)

Lemma for_each_app {A} (l1 l2 : list A) (f : A -> M unit) w :
  for_each (l1 ++ l2) f w =
  match for_each l1 f w with
  | (Ok _, w1) => for_each l2 f w1
  | (Throw e, w1) => (Throw e, w1)
  end.
Proof.
  revert w. induction l1 as [|x l1 IH]; intros w; [reflexivity|].
  cbn. unfold bind. destruct (f x w) as [[[]|e] w1]; [apply IH|reflexivity].
Qed.

Lemma for_each_prefix {A} (l : list A) (f : A -> M unit) :
  (forall x w r w', f x w = (r, w') -> console w `prefix_of` console w') ->
  forall w r w', for_each l f w = (r, w') -> console w `prefix_of` console w'.
Proof.
  intros Hf. induction l as [|x l IH]; intros w r w'; cbn.
  - unfold ret. intros [= <- <-]. reflexivity.
  - unfold bind. destruct (f x w) as [[[]|e] w1] eqn:Hx.
    + intros Hl. etransitivity; [eapply Hf; eauto|eapply IH; eauto].
    + intros [= <- <-]. eapply Hf; eauto.
Qed.

Lemma Database_update_prefix env c store data w r w' :
  Database.update env c store data w = (r, w') -> console w `prefix_of` console w'.
Proof.
  unfold Database.update, Database.not_ready, IDB.store_put, IDB.transaction, IDB.commit.
  mrun. destruct (db_handle w); cbn.
  - destruct (idb w !! store) as [os|]; cbn;
      [destruct (IDB.resolve_key store os _); cbn|]; intros [= <- <-]; reflexivity.
  - destruct c; cbn; intros [= <- <-]; cbn; [reflexivity|]. now apply prefix_app_r.
Qed.

Lemma Database_getAll_prefix c store w r w' :
  Database.getAll c store w = (r, w') -> console w `prefix_of` console w'.
Proof.
  unfold Database.getAll, Database.not_ready, IDB.store_getAll, IDB.transaction.
  mrun. destruct (db_handle w); cbn.
  - destruct (idb w !! store) as [os|]; cbn; intros [= <- <-]; reflexivity.
  - destruct c; cbn; intros [= <- <-]; cbn; [reflexivity|]. now apply prefix_app_r.
Qed.

Lemma sync_item_prefix env c store item w r w' :
  DbAdapter.sync_item env c store item w = (r, w') -> console w `prefix_of` console w'.
Proof.
  unfold DbAdapter.sync_item.
  destruct (negb (truthy (item !! "cloudId"))); [|intros [= <- <-]; reflexivity].
  unfold bind at 1.
  destruct (FirebaseDB.add env store item w) as [[id|e] w1] eqn:Ha;
    apply FirebaseDB_add_frame in Ha; destruct Ha as (_ & (_ & _ & Hcon & _) & _).
  - unfold bind at 1.
    destruct (Database.update env c store _ w1) as [[v|e] w2] eqn:Hu;
      apply Database_update_prefix in Hu; cbn; intros [= <- <-]; now rewrite <- Hcon.
  - intros [= <- <-]. now rewrite Hcon.
Qed.

Lemma sync_store_body_prefix env c store w r w' :
  DbAdapter.sync_store_body env c store w = (r, w') -> console w `prefix_of` console w'.
Proof.
  unfold DbAdapter.sync_store_body, bind.
  destruct (Database.getAll c store w) as [[items|e] w1] eqn:Hg;
    apply Database_getAll_prefix in Hg.
  - intros Hl. etransitivity; [exact Hg|].
    eapply for_each_prefix; [|exact Hl]. intros x. apply sync_item_prefix.
  - now intros [= <- <-].
Qed.

Lemma sync_store_total env c store w :
  exists w', DbAdapter.sync_store env c store w = (Ok tt, w') /\
             console w `prefix_of` console w'.
Proof.
  unfold DbAdapter.sync_store, try_catch.
  destruct (DbAdapter.sync_store_body env c store w) as [[[]|e] w1] eqn:Hb;
    apply sync_store_body_prefix in Hb.
  - eauto.
  - unfold console_error, modify. eexists. split; [reflexivity|]. cbn.
    etransitivity; [exact Hb|]. now apply prefix_app_r.
Qed.

Lemma sync_stores_total env c stores w :
  exists w', for_each stores (DbAdapter.sync_store env c) w = (Ok tt, w') /\
             console w `prefix_of` console w'.
Proof.
  revert w. induction stores as [|s stores IH]; intros w.
  - exists w. split; reflexivity.
  - destruct (sync_store_total env c s w) as (w1 & H1 & P1).
    destruct (IH w1) as (w' & H' & P').
    exists w'. split; [cbn; now rewrite (bind_ok _ _ w tt w1 H1)|].
    etransitivity; eauto.
Qed.

Lemma syncToCloud_cloud env c w :
  cloud_enabled w ->
  DbAdapter.syncToCloud env c w =
    (Ok true, (for_each (STORES c) (DbAdapter.sync_store env c) w).2).
Proof.
  intros [Hu Hm]. unfold DbAdapter.syncToCloud.
  unfold bind at 1. unfold get_world at 1. rewrite Hu, Hm. cbn [negb orb].
  destruct (sync_stores_total env c (STORES c) w) as (w' & Hrun & _).
  now rewrite (bind_ok _ _ w tt w' Hrun), Hrun.
Qed.

(** In cloud mode [syncToCloud] resolves with [true] in every
    environment. *)
Lemma syncToCloud_total env c w :
  cloud_enabled w -> exists w', DbAdapter.syncToCloud env c w = (Ok true, w').
Proof. intros Hc. rewrite (syncToCloud_cloud env c w Hc). eauto. Qed.

(** ** The claims on reconciliation *)

(** Closes a conjunction of closed equations by evaluation. *)
Ltac by_evaluation :=
  cbv zeta;
  repeat match goal with |- _ /\ _ => split end;
  vm_compute; reflexivity.

Lemma STORES_NoDup c : NoDup (STORES c).
Proof. destruct c; apply (bool_decide_unpack _); vm_compute; exact I. Qed.

Lemma env_up_uploads_succeed : uploads_succeed env_up.
Proof. intros t coll d. eexists. split; [reflexivity|]. cbn. discriminate. Defined.

(** C3. In cloud mode with the Local Store open, if every upload is
    accepted, a run of [syncToCloud] returns [true], creates one Firestore
    document for each local record lacking a [cloudId] (those and no
    others, in the order of the stores and of their keys), and rewrites
    each such record locally with the id Firestore assigned; after it no
    local record lacks a [cloudId], and a second run returns [true] and
    uploads nothing. *)
Theorem syncToCloud_idempotent env c w :
  cloud_enabled w ->
  db_handle w = true ->
  uploads_succeed env ->
  exists w1 w2 ids,
    DbAdapter.syncToCloud env c w = (Ok true, w1) /\
    length ids = length (pending (STORES c) w) /\
    cloud_docs w1 = cloud_docs w ++ zip_with (uploaded env) ids (pending (STORES c) w) /\
    Forall2 (fun id p => id <> "" /\ rewritten env id p.2 ∈ local_records w1 p.1)
            ids (pending (STORES c) w) /\
    pending (STORES c) w1 = [] /\
    DbAdapter.syncToCloud env c w1 = (Ok true, w2) /\
    cloud_docs w2 = cloud_docs w1.
Proof.
  intros Hc Hh Hup.
  destruct (sync_stores_spec env c Hup (STORES c) w (STORES_NoDup c) Hh)
    as (w1 & ids & Hrun & Hm & _ & Hdocs & Hrw & Hnone).
  assert (Hc1 : cloud_enabled w1).
  { destruct Hc as [? ?], Hm as (? & ? & ?). split; congruence. }
  assert (Hh1 : db_handle w1 = true) by (destruct Hm as (-> & _); exact Hh).
  destruct (sync_stores_spec env c Hup (STORES c) w1 (STORES_NoDup c) Hh1)
    as (w2 & ids' & Hrun' & _ & _ & Hdocs' & _ & _).
  exists w1, w2, ids.
  split; [rewrite (syncToCloud_cloud env c w Hc); now rewrite Hrun|].
  split; [eapply Forall2_length; eauto|].
  split; [exact Hdocs|]. split; [exact Hrw|]. split; [exact Hnone|].
  split; [rewrite (syncToCloud_cloud env c w1 Hc1); now rewrite Hrun'|].
  rewrite Hdocs', Hnone. rewrite zip_with_nil_r. apply app_nil_r.
Qed.

Lemma syncToCloud_idempotent_witness :
  exists w1 w2 ids,
    DbAdapter.syncToCloud env_up DbV3 (cloud_world env_up) = (Ok true, w1) /\
    length ids = length (pending (STORES DbV3) (cloud_world env_up)) /\
    cloud_docs w1 =
      cloud_docs (cloud_world env_up) ++
        zip_with (uploaded env_up) ids (pending (STORES DbV3) (cloud_world env_up)) /\
    Forall2 (fun id p => id <> "" /\ rewritten env_up id p.2 ∈ local_records w1 p.1)
            ids (pending (STORES DbV3) (cloud_world env_up)) /\
    pending (STORES DbV3) w1 = [] /\
    DbAdapter.syncToCloud env_up DbV3 w1 = (Ok true, w2) /\
    cloud_docs w2 = cloud_docs w1.
Proof.
  apply (syncToCloud_idempotent env_up DbV3 (cloud_world env_up)).
  - split; vm_compute; reflexivity.
  - vm_compute; reflexivity.
  - exact env_up_uploads_succeed.
Defined.

(** The run of C3 on the example data: the user, the workout and the
    exercise are uploaded, in the order of [STORES], and a second run
    adds nothing. *)
Example syncToCloud_twice :
  let w1 := (DbAdapter.syncToCloud env_up DbV3 (cloud_world env_up)).2 in
  let w2 := (DbAdapter.syncToCloud env_up DbV3 w1).2 in
  length (pending (STORES DbV3) (cloud_world env_up)) = 3%nat /\
  (fun d => (d.1.1, d.1.2)) <$> cloud_docs w1
    = [("users", "doc4"); ("workouts", "doc5"); ("exercises", "doc6")] /\
  (fun o => o !! "cloudId") <$> local_records w1 "workouts" = [Some (VStr "doc5")] /\
  pending (STORES DbV3) w1 = [] /\
  cloud_docs w2 = cloud_docs w1.
Proof. by_evaluation. Qed.

(** C9. In cloud mode, when the [try] block of one collection throws
    (the stores before it having been processed), the error is caught and
    written to the console, the loop goes on with the collections after
    it, starting from the world the failure left, and [syncToCloud]
    resolves with [true]; the logged error is still on the console at the
    end. *)
Theorem syncToCloud_continues_after_failure env c w pre store post w1 e w2 :
  cloud_enabled w ->
  STORES c = pre ++ store :: post ->
  for_each pre (DbAdapter.sync_store env c) w = (Ok tt, w1) ->
  DbAdapter.sync_store_body env c store w1 = (Throw e, w2) ->
  let logged := Error ("Error syncing " +:+ store +:+ ":") (Some e) in
  let w3 := set_console (console w2 ++ [logged]) w2 in
  exists w',
    DbAdapter.sync_store env c store w1 = (Ok tt, w3) /\
    for_each post (DbAdapter.sync_store env c) w3 = (Ok tt, w') /\
    DbAdapter.syncToCloud env c w = (Ok true, w') /\
    logged ∈ console w'.
Proof.
  intros Hc Hsplit Hpre Hbody logged w3.
  assert (Hs : DbAdapter.sync_store env c store w1 = (Ok tt, w3)).
  { unfold DbAdapter.sync_store, try_catch. now rewrite Hbody. }
  destruct (sync_stores_total env c post w3) as (w' & Hpost & Hprefix).
  exists w'. split; [exact Hs|]. split; [exact Hpost|]. split.
  - rewrite (syncToCloud_cloud env c w Hc), Hsplit, for_each_app, Hpre.
    cbn. rewrite (bind_ok _ _ w1 tt w3 Hs). now rewrite Hpost.
  - destruct Hprefix as [k ->]. cbn. apply elem_of_app. left.
    apply elem_of_app. right. left.
Qed.

Lemma syncToCloud_continues_after_failure_witness :
  let w := cloud_world env_users_rejected in
  let e := FirebaseError "permission-denied" in
  let w2 := (DbAdapter.sync_store_body env_users_rejected DbV3 "users" w).2 in
  let logged := Error "Error syncing users:" (Some e) in
  let w3 := set_console (console w2 ++ [logged]) w2 in
  exists w',
    DbAdapter.sync_store env_users_rejected DbV3 "users" w = (Ok tt, w3) /\
    for_each ["workouts"; "exercises"; "history"; "assessments"; "progress";
              "students"; "checkins"; "settings"]
      (DbAdapter.sync_store env_users_rejected DbV3) w3 = (Ok tt, w') /\
    DbAdapter.syncToCloud env_users_rejected DbV3 w = (Ok true, w') /\
    logged ∈ console w'.
Proof.
  apply (syncToCloud_continues_after_failure env_users_rejected DbV3
           (cloud_world env_users_rejected) [] "users"
           ["workouts"; "exercises"; "history"; "assessments"; "progress";
            "students"; "checkins"; "settings"]
           (cloud_world env_users_rejected) (FirebaseError "permission-denied")).
  - split; vm_compute; reflexivity.
  - reflexivity.
  - reflexivity.
  - vm_compute. reflexivity.
Defined.

(** The run of C9 on the example data: Firestore rejects the [users]
    collection, the error is logged, and the workout and the exercise of
    the later collections are uploaded all the same. *)
Example syncToCloud_users_rejected :
  let r := DbAdapter.syncToCloud env_users_rejected DbV3 (cloud_world env_users_rejected) in
  r.1 = Ok true /\
  console r.2 = [Log "Firebase initialized";
                 Error "Error syncing users:" (Some (FirebaseError "permission-denied"))] /\
  (fun d => (d.1.1, d.1.2)) <$> cloud_docs r.2
    = [("workouts", "doc5"); ("exercises", "doc6")] /\
  (fun o => o !! "cloudId") <$> local_records r.2 "users" = [None].
Proof. by_evaluation. Qed.

End StoreFacts.

(* ===================================================================== *)
(** * Part IX.  The Local Store: further properties                       *)
(* ===================================================================== *)

Module LocalStoreFacts.
Import StoreSpec StoreFacts PersistenceSpec.

(** ** The operations on an open store *)

Lemma add_open env c store data w :
  db_handle w = true ->
  Database.add env c store data w
  = IDB.store_add store (<["createdAt" := VStr (now env)]> data) w.
Proof. intros Hh. unfold Database.add, bind, get_world. now rewrite Hh. Qed.

Lemma update_open env c store data w :
  db_handle w = true ->
  Database.update env c store data w
  = IDB.store_put store (<["updatedAt" := VStr (now env)]> data) w.
Proof. intros Hh. unfold Database.update, bind, get_world. now rewrite Hh. Qed.

Lemma get_open c store id w :
  db_handle w = true -> Database.get c store id w = IDB.store_get store id w.
Proof. intros Hh. unfold Database.get, bind, get_world. now rewrite Hh. Qed.

Lemma store_add_ok store v w id w1 :
  IDB.store_add store v w = (Ok id, w1) ->
  exists os k,
    idb w !! store = Some os /\ IDB.resolve_key store os v = Ok k /\
    rows os !! k = None /\ id = of_key k /\
    w1 = set_idb (<[store := written store os k v]> (idb w)) w.
Proof.
  unfold IDB.store_add, IDB.transaction, IDB.commit. mrun.
  destruct (idb w !! store) as [os|] eqn:Hs; cbn; [|discriminate].
  destruct (IDB.resolve_key store os v) as [k|e] eqn:Hk; cbn; [|discriminate].
  destruct (rows os !! k) eqn:Hr; cbn; [discriminate|].
  intros [= <- <-]. exists os, k. repeat split; auto.
Qed.

Lemma store_put_ok store v w id w1 :
  IDB.store_put store v w = (Ok id, w1) ->
  exists os k,
    idb w !! store = Some os /\ IDB.resolve_key store os v = Ok k /\
    id = of_key k /\
    w1 = set_idb (<[store := written store os k v]> (idb w)) w.
Proof.
  unfold IDB.store_put, IDB.transaction, IDB.commit. mrun.
  destruct (idb w !! store) as [os|] eqn:Hs; cbn; [|discriminate].
  destruct (IDB.resolve_key store os v) as [k|e] eqn:Hk; cbn; [|discriminate].
  intros [= <- <-]. exists os, k. repeat split; auto.
Qed.

Lemma store_get_at store id w os k :
  idb w !! store = Some os -> to_key (Some id) = Some k ->
  IDB.store_get store id w
  = (Ok (match rows os !! k with
         | Some o => VObj (IDB.stored store k o)
         | None => VUndef
         end), w).
Proof.
  intros Hs Hk. unfold IDB.store_get, IDB.transaction. mrun. rewrite Hs. cbn.
  rewrite Hk. destruct (rows os !! k); reflexivity.
Qed.

Lemma stored_stored store k v :
  IDB.stored store k (IDB.stored store k v) = IDB.stored store k v.
Proof. unfold IDB.stored. apply insert_insert_eq. Qed.

Lemma of_key_inj k k' : of_key k = of_key k' -> k = k'.
Proof. destruct k, k'; cbn; congruence. Qed.

Lemma to_key_ne id id' k :
  to_key (Some id) = Some k -> id' <> id -> to_key (Some id') <> Some k.
Proof.
  intros Hk Hne Hk'. apply to_key_Some in Hk, Hk'. congruence.
Qed.

(** Reading any other id gives the same answer before and after a write
    to key [k]. *)
Lemma get_other c store id' w w1 os os1 k :
  db_handle w = true -> db_handle w1 = true ->
  idb w !! store = Some os -> idb w1 !! store = Some os1 ->
  (forall k', k' <> k -> rows os1 !! k' = rows os !! k') ->
  to_key (Some id') <> Some k ->
  (Database.get c store id' w1).1 = (Database.get c store id' w).1.
Proof.
  intros Hh Hh1 Hs Hs1 Hrows Hne. rewrite !get_open by assumption.
  destruct (to_key (Some id')) as [k'|] eqn:Hk'.
  - rewrite (store_get_at store id' w os k' Hs Hk'),
            (store_get_at store id' w1 os1 k' Hs1 Hk'). cbn.
    rewrite Hrows; [reflexivity|congruence].
  - unfold IDB.store_get, IDB.transaction. mrun. rewrite Hs, Hs1. cbn.
    now rewrite Hk'.
Qed.

(** ** The records of a store after a write *)

Lemma records_insert store os os1 k v :
  rows os1 = <[k := IDB.stored store k v]> (rows os) ->
  rows os !! k = None ->
  forall item, item ∈ IDB.records store os1 <->
               item = IDB.stored store k v \/ item ∈ IDB.records store os.
Proof.
  intros Hrows Hfree item. rewrite !elem_of_records. split.
  - intros (k' & o & Hk' & ->). rewrite Hrows in Hk'.
    destruct (decide (k' = k)) as [->|Hne].
    + rewrite lookup_insert_eq in Hk'. injection Hk' as <-.
      left. apply stored_stored.
    + rewrite lookup_insert_ne in Hk' by congruence. right. eauto.
  - intros [->|(k' & o & Hk' & ->)].
    + exists k, (IDB.stored store k v). rewrite Hrows, lookup_insert_eq.
      split; [reflexivity|]. symmetry. apply stored_stored.
    + exists k', o. split; [|reflexivity]. rewrite Hrows.
      rewrite lookup_insert_ne; [exact Hk'|]. intros <-. congruence.
Qed.

Lemma add_records env c store data w id w1 :
  db_handle w = true ->
  Database.add env c store data w = (Ok id, w1) ->
  forall item, item ∈ local_records w1 store <->
               item = added env store id data \/ item ∈ local_records w store.
Proof.
  intros Hh Hadd. rewrite add_open in Hadd by exact Hh.
  apply store_add_ok in Hadd as (os & k & Hs & Hk & Hfree & -> & ->).
  unfold local_records. cbn. rewrite lookup_insert_eq, Hs.
  apply records_insert; [reflexivity|exact Hfree].
Qed.

Lemma update_records env c store data w id w1 :
  db_handle w = true ->
  Database.update env c store data w = (Ok id, w1) ->
  updated env store id data ∈ local_records w1 store.
Proof.
  intros Hh Hupd. rewrite update_open in Hupd by exact Hh.
  apply store_put_ok in Hupd as (os & k & Hs & Hk & -> & ->).
  unfold local_records. cbn. rewrite lookup_insert_eq.
  apply elem_of_records. exists k, (IDB.stored store k (<["updatedAt" := VStr (now env)]> data)).
  cbn. rewrite lookup_insert_eq. split; [reflexivity|]. symmetry. apply stored_stored.
Qed.

(** A record written without an in-line key gets a number. *)
Lemma add_generated_key env c store data w id w1 :
  db_handle w = true ->
  data !! keyPath store = None ->
  Database.add env c store data w = (Ok id, w1) ->
  exists n, id = VNum n.
Proof.
  intros Hh Hnone Hadd. rewrite add_open in Hadd by exact Hh.
  apply store_add_ok in Hadd as (os & k & Hs & Hk & Hfree & -> & ->).
  unfold IDB.resolve_key in Hk. rewrite lookup_insert_ne in Hk.
  - rewrite Hnone in Hk. destruct (autoIncrement store); [|discriminate].
    injection Hk as <-. eauto.
  - destruct (keyPath_cases store) as [-> | ->]; discriminate.
Qed.

(** What [get] resolves with depends on the handle and the store only. *)
Lemma get_ext c store id w w' :
  db_handle w' = db_handle w -> idb w' !! store = idb w !! store ->
  (Database.get c store id w').1 = (Database.get c store id w).1.
Proof.
  intros Hh Hs. unfold Database.get, bind, get_world. rewrite Hh.
  destruct (db_handle w); cbn [negb].
  - unfold IDB.store_get, IDB.transaction, bind. rewrite Hs.
    destruct (idb w !! store) as [os|]; [|reflexivity].
    destruct (to_key (Some id)); [|reflexivity].
    destruct (rows os !! k); reflexivity.
  - destruct c; reflexivity.
Qed.

Lemma delete_ok c store id w r w1 :
  db_handle w = true ->
  Database.delete c store id w = (Ok r, w1) ->
  exists os k,
    idb w !! store = Some os /\ to_key (Some id) = Some k /\ r = VUndef /\
    w1 = set_idb (<[store := {| keygen := keygen os; rows := delete k (rows os) |}]>
                    (idb w)) w.
Proof.
  intros Hh. unfold Database.delete, IDB.store_delete, IDB.transaction, IDB.commit.
  mrun. rewrite Hh. cbn.
  destruct (idb w !! store) as [os|] eqn:Hs; cbn; [|discriminate].
  destruct id; cbn; try discriminate; intros [= <- <-]; eexists _, _; eauto.
Qed.

Lemma delete_get_other c store id w r w1 :
  db_handle w = true ->
  Database.delete c store id w = (Ok r, w1) ->
  db_handle w1 = true /\
  forall id', id' <> id ->
    (Database.get c store id' w1).1 = (Database.get c store id' w).1.
Proof.
  intros Hh Hdel. apply delete_ok in Hdel as (os & k & Hs & Hk & _ & ->); [|exact Hh].
  split; [exact Hh|]. intros id' Hne.
  apply get_other with (os := os)
    (os1 := {| keygen := keygen os; rows := delete k (rows os) |}) (k := k);
    [exact Hh|exact Hh|exact Hs|cbn; apply lookup_insert_eq| |].
  - intros k' Hk'. cbn. now apply lookup_delete_ne.
  - now apply (to_key_ne id).
Qed.

(** An open store is not changed by reading it. *)
Lemma get_same_world c store id w :
  db_handle w = true -> (Database.get c store id w).2 = w.
Proof.
  intros Hh. rewrite get_open by exact Hh.
  unfold IDB.store_get, IDB.transaction, bind, ret, throw.
  destruct (idb w !! store) as [os|]; [|reflexivity].
  destruct (to_key (Some id)); [|reflexivity].
  destruct (rows os !! k); reflexivity.
Qed.

(** ** Read your write *)

Lemma added_fields env store id data f :
  f <> keyPath store -> f <> "createdAt" -> added env store id data !! f = data !! f.
Proof.
  intros Hf1 Hf2. unfold added.
  rewrite lookup_insert_ne by congruence. now rewrite lookup_insert_ne by congruence.
Qed.

Lemma updated_fields env store id data f :
  f <> keyPath store -> f <> "updatedAt" -> updated env store id data !! f = data !! f.
Proof.
  intros Hf1 Hf2. unfold updated.
  rewrite lookup_insert_ne by congruence. now rewrite lookup_insert_ne by congruence.
Qed.

Lemma add_get env c store data w id w1 :
  db_handle w = true ->
  Database.add env c store data w = (Ok id, w1) ->
  Database.get c store id w1 = (Ok (VObj (added env store id data)), w1) /\
  added env store id data ∈ local_records w1 store.
Proof.
  intros Hh Hadd. rewrite add_open in Hadd by exact Hh.
  apply store_add_ok in Hadd as (os & k & Hs & Hk & Hfree & -> & ->).
  assert (Hs1 : idb (set_idb (<[store := written store os k
                       (<["createdAt" := VStr (now env)]> data)]> (idb w)) w) !! store
                = Some (written store os k (<["createdAt" := VStr (now env)]> data)))
    by (cbn; apply lookup_insert_eq).
  split.
  - rewrite get_open by exact Hh.
    rewrite (store_get_at _ _ _ _ k Hs1 (to_key_of_key k)). cbn.
    rewrite lookup_insert_eq. now rewrite stored_stored.
  - unfold local_records. rewrite Hs1. apply elem_of_records.
    exists k, (IDB.stored store k (<["createdAt" := VStr (now env)]> data)).
    split; [cbn; apply lookup_insert_eq|]. now rewrite stored_stored.
Qed.

(** X1. On an open store, when [add] resolves with an id, [get] with
    that id resolves with the record: the data given, stamped with
    [createdAt] and carrying the id under the key path; [getAll] lists it,
    and every other field is the caller's. *)
Theorem add_then_get env c store data w id w1 :
  db_handle w = true ->
  Database.add env c store data w = (Ok id, w1) ->
  Database.get c store id w1 = (Ok (VObj (added env store id data)), w1) /\
  added env store id data ∈ local_records w1 store /\
  (forall f, f <> keyPath store -> f <> "createdAt" ->
             added env store id data !! f = data !! f).
Proof.
  intros Hh Hadd. destruct (add_get env c store data w id w1 Hh Hadd) as [Hget Hin].
  split; [exact Hget|]. split; [exact Hin|]. intros f. apply added_fields.
Qed.

Lemma add_then_get_witness :
  let w := local_world in
  let w1 := (Database.add env_offline DbV3 "users" bia w).2 in
  Database.get DbV3 "users" (VNum 2) w1
    = (Ok (VObj (added env_offline "users" (VNum 2) bia)), w1) /\
  added env_offline "users" (VNum 2) bia ∈ local_records w1 "users" /\
  (forall f, f <> keyPath "users" -> f <> "createdAt" ->
             added env_offline "users" (VNum 2) bia !! f = bia !! f).
Proof.
  apply (add_then_get env_offline DbV3 "users" bia local_world (VNum 2)).
  - vm_compute; reflexivity.
  - vm_compute; reflexivity.
Defined.

(** ** Ids are never reused by [add] *)

Lemma add_all_fresh env c store ds : forall w ids w' os,
  db_handle w = true ->
  idb w !! store = Some os ->
  add_all env c store ds w = (Ok ids, w') ->
  exists os',
    idb w' !! store = Some os' /\ db_handle w' = true /\
    (forall k o, rows os !! k = Some o -> rows os' !! k = Some o) /\
    NoDup ids /\
    Forall (fun id => exists k, id = of_key k /\ rows os !! k = None /\
                                is_Some (rows os' !! k)) ids.
Proof.
  induction ds as [|d ds IH]; intros w ids w' os Hh Hs; cbn.
  - unfold ret. intros [= <- <-]. exists os. repeat split; auto. constructor.
  - unfold bind at 1.
    destruct (Database.add env c store d w) as [[i|e] w1] eqn:Hadd; [|discriminate].
    rewrite add_open in Hadd by exact Hh.
    apply store_add_ok in Hadd as (os0 & k & Hs0 & Hk & Hfree & -> & ->).
    rewrite Hs in Hs0. injection Hs0 as <-.
    unfold bind at 1.
    destruct (add_all env c store ds _) as [[ids'|e] w2] eqn:Hrest; [|discriminate].
    unfold ret. intros [= <- <-].
    eapply IH in Hrest as (os' & Hs' & Hh' & Hkeep & Hnd & Hall);
      [|exact Hh|cbn; apply lookup_insert_eq].
    exists os'. split; [exact Hs'|]. split; [exact Hh'|].
    assert (Hk' : is_Some (rows os' !! k)).
    { eexists. apply Hkeep. cbn. apply lookup_insert_eq. }
    split; [|split].
    + intros k0 o Ho. apply Hkeep. cbn.
      rewrite lookup_insert_ne; [exact Ho|]. intros <-. congruence.
    + constructor; [|exact Hnd]. intros Hin.
      rewrite Forall_forall in Hall. destruct (Hall _ Hin) as (k' & Heq & Hnone & _).
      apply of_key_inj in Heq as <-. cbn in Hnone.
      rewrite lookup_insert_eq in Hnone. discriminate.
    + constructor; [eauto|].
      eapply Forall_impl; [exact Hall|]. cbn.
      intros id (k' & -> & Hnone & Hsome). exists k'. repeat split; auto.
      destruct (decide (k = k')) as [<-|Hne]; [exact Hfree|].
      now rewrite lookup_insert_ne in Hnone.
Qed.

(** X2. On an open store, the ids returned by any sequence of
    successful [add] calls are pairwise distinct, none of them was the key
    of a record that existed before, and every record that existed before
    is still there unchanged: [add] never overwrites. *)
Theorem add_ids_distinct env c store ds w ids w' :
  db_handle w = true ->
  add_all env c store ds w = (Ok ids, w') ->
  NoDup ids /\
  (forall item, item ∈ local_records w store -> item ∈ local_records w' store) /\
  (forall id item, id ∈ ids -> item ∈ local_records w store ->
                   item !! keyPath store <> Some id).
Proof.
  intros Hh Hrun. destruct (idb w !! store) as [os|] eqn:Hs.
  - destruct (add_all_fresh env c store ds w ids w' os Hh Hs Hrun)
      as (os' & Hs' & _ & Hkeep & Hnd & Hall).
    split; [exact Hnd|]. split.
    + unfold local_records. rewrite Hs, Hs'. intros item Hin.
      apply elem_of_records in Hin as (k & o & Hk & ->).
      apply elem_of_records. eauto.
    + unfold local_records. rewrite Hs. intros id item Hid Hin Heq.
      apply elem_of_records in Hin as (k & o & Hk & ->).
      rewrite Forall_forall in Hall. destruct (Hall _ Hid) as (k' & -> & Hnone & _).
      unfold IDB.stored in Heq. rewrite lookup_insert_eq in Heq.
      injection Heq as Heq. apply of_key_inj in Heq as ->. congruence.
  - destruct ds as [|d ds]; cbn in Hrun.
    + unfold ret in Hrun. injection Hrun as <- <-.
      split; [constructor|]. split; [auto|]. intros id item Hid. inversion Hid.
    + unfold bind at 1 in Hrun. rewrite add_open in Hrun by exact Hh.
      unfold IDB.store_add, IDB.transaction in Hrun. unfold bind at 1 in Hrun.
      rewrite Hs in Hrun. discriminate.
Qed.

Lemma add_ids_distinct_witness :
  let w := local_world in
  let r := add_all env_offline DbV3 "workouts" [leg_day; leg_day; leg_day] w in
  NoDup [VNum 2; VNum 3; VNum 4] /\
  (forall item, item ∈ local_records w "workouts" ->
                item ∈ local_records r.2 "workouts") /\
  (forall id item, id ∈ [VNum 2; VNum 3; VNum 4] ->
                   item ∈ local_records w "workouts" ->
                   item !! keyPath "workouts" <> Some id).
Proof.
  apply (add_ids_distinct env_offline DbV3 "workouts" [leg_day; leg_day; leg_day]
           local_world [VNum 2; VNum 3; VNum 4]
           (add_all env_offline DbV3 "workouts" [leg_day; leg_day; leg_day] local_world).2).
  - vm_compute; reflexivity.
  - vm_compute; reflexivity.
Defined.

(** An [add] whose record carries an id that is already a key of the
    store rejects with [ConstraintError] and leaves the world as it was. *)
Lemma add_taken_key_rejects env c store data w os k o :
  db_handle w = true ->
  idb w !! store = Some os ->
  key_of store data = Some k ->
  rows os !! k = Some o ->
  Database.add env c store data w = (Throw ConstraintError, w).
Proof.
  intros Hh Hs Hk Ho. rewrite add_open by exact Hh.
  assert (Hres : IDB.resolve_key store os (<["createdAt" := VStr (now env)]> data) = Ok k).
  { apply resolve_key_of. unfold key_of in *.
    rewrite lookup_insert_ne; [exact Hk|].
    destruct (keyPath_cases store) as [-> | ->]; discriminate. }
  unfold IDB.store_add, IDB.transaction. mrun. rewrite Hs. cbn. rewrite Hres. cbn.
  now rewrite Ho.
Qed.

Lemma add_taken_key_rejects_witness :
  Database.add env_offline DbV3 "exercises" supino local_world
  = (Throw ConstraintError, local_world).
Proof.
  apply (add_taken_key_rejects env_offline DbV3 "exercises" supino local_world
           (default IDB.empty_store (idb local_world !! "exercises")) (KNum 1)
           (IDB.stored "exercises" (KNum 1)
              (<["createdAt" := VStr (now env_offline)]> supino))).
  - vm_compute; reflexivity.
  - vm_compute; reflexivity.
  - vm_compute; reflexivity.
  - vm_compute; reflexivity.
Defined.

(** ** [update] replaces, [delete] removes *)

Lemma update_get env c store data w id w1 :
  db_handle w = true ->
  Database.update env c store data w = (Ok id, w1) ->
  Database.get c store id w1 = (Ok (VObj (updated env store id data)), w1) /\
  (forall id', id' <> id ->
     (Database.get c store id' w1).1 = (Database.get c store id' w).1).
Proof.
  intros Hh Hupd. rewrite update_open in Hupd by exact Hh.
  apply store_put_ok in Hupd as (os & k & Hs & Hk & -> & ->).
  set (v := <["updatedAt" := VStr (now env)]> data).
  assert (Hs1 : idb (set_idb (<[store := written store os k v]> (idb w)) w) !! store
                = Some (written store os k v)) by (cbn; apply lookup_insert_eq).
  split.
  - rewrite get_open by exact Hh.
    rewrite (store_get_at _ _ _ _ k Hs1 (to_key_of_key k)). cbn.
    rewrite lookup_insert_eq. now rewrite stored_stored.
  - intros id' Hne.
    apply get_other with (os := os) (os1 := written store os k v) (k := k);
      [exact Hh|exact Hh|exact Hs|exact Hs1| |].
    + intros k' Hk'. cbn. now apply lookup_insert_ne.
    + apply (to_key_ne (of_key k)); [apply to_key_of_key|exact Hne].
Qed.

(** X3. On an open store, when [update] resolves with an id, [get]
    with that id resolves with exactly the record given, stamped with
    [updatedAt] and carrying the id: nothing of a record stored under
    that id before survives (not even its [createdAt], unless the caller
    passes it).  Reading any other id gives what it gave before. *)
Theorem update_replaces env c store data w id w1 :
  db_handle w = true ->
  Database.update env c store data w = (Ok id, w1) ->
  Database.get c store id w1 = (Ok (VObj (updated env store id data)), w1) /\
  (forall f, f <> keyPath store -> f <> "updatedAt" ->
             updated env store id data !! f = data !! f) /\
  (forall id', id' <> id ->
     (Database.get c store id' w1).1 = (Database.get c store id' w).1).
Proof.
  intros Hh Hupd. destruct (update_get env c store data w id w1 Hh Hupd) as [Hget Hoth].
  split; [exact Hget|]. split; [|exact Hoth]. intros f. apply updated_fields.
Qed.

Lemma update_replaces_witness :
  let w := local_world in
  let data := <["id" := VNum 1]> bia in
  let w1 := (Database.update env_offline DbV3 "users" data w).2 in
  Database.get DbV3 "users" (VNum 1) w1
    = (Ok (VObj (updated env_offline "users" (VNum 1) data)), w1) /\
  (forall f, f <> keyPath "users" -> f <> "updatedAt" ->
             updated env_offline "users" (VNum 1) data !! f = data !! f) /\
  (forall id', id' <> VNum 1 ->
     (Database.get DbV3 "users" id' w1).1 = (Database.get DbV3 "users" id' w).1).
Proof.
  apply (update_replaces env_offline DbV3 "users" (<["id" := VNum 1]> bia) local_world
           (VNum 1)).
  - vm_compute; reflexivity.
  - vm_compute; reflexivity.
Defined.

Lemma set_idb_same w : set_idb (idb w) w = w.
Proof. now destruct w. Qed.

(** X4. On an open store that exists, [delete] with a valid key always
    resolves, whether or not a record has that id; afterwards [get] with
    that id gives [undefined], every other id reads as before, and a
    second [delete] resolves again and changes nothing.  Deleting an id
    that is not there changes nothing either. *)
Theorem delete_is_idempotent c store id w os k :
  db_handle w = true ->
  idb w !! store = Some os ->
  to_key (Some id) = Some k ->
  exists w1,
    Database.delete c store id w = (Ok VUndef, w1) /\
    Database.get c store id w1 = (Ok VUndef, w1) /\
    (forall id', id' <> id ->
       (Database.get c store id' w1).1 = (Database.get c store id' w).1) /\
    Database.delete c store id w1 = (Ok VUndef, w1) /\
    (rows os !! k = None -> w1 = w).
Proof.
  intros Hh Hs Hk.
  set (os1 := {| keygen := keygen os; rows := delete k (rows os) |}).
  exists (set_idb (<[store := os1]> (idb w)) w).
  assert (Hs1 : idb (set_idb (<[store := os1]> (idb w)) w) !! store = Some os1)
    by (cbn; apply lookup_insert_eq).
  assert (Hdel : forall w0 os0, db_handle w0 = true -> idb w0 !! store = Some os0 ->
            Database.delete c store id w0
            = (Ok VUndef,
               set_idb (<[store := {| keygen := keygen os0;
                                      rows := delete k (rows os0) |}]> (idb w0)) w0)).
  { intros w0 os0 Hh0 Hs0. unfold Database.delete, IDB.store_delete, IDB.transaction,
      IDB.commit. mrun. rewrite Hh0. cbn. rewrite Hs0. cbn. cbn in Hk. rewrite Hk.
    reflexivity. }
  split; [apply Hdel; assumption|]. split; [|split; [|split]].
  - rewrite get_open by exact Hh.
    rewrite (store_get_at _ _ _ _ k Hs1 Hk). cbn. now rewrite lookup_delete_eq.
  - intros id' Hne.
    apply get_other with (os := os) (os1 := os1) (k := k);
      [exact Hh|exact Hh|exact Hs|exact Hs1| |].
    + intros k' Hk'. cbn. now apply lookup_delete_ne.
    + now apply (to_key_ne id).
  - rewrite (Hdel _ os1); [|exact Hh|exact Hs1]. f_equal.
    replace {| keygen := keygen os1; rows := delete k (rows os1) |} with os1
      by (unfold os1; cbn; f_equal; symmetry; apply delete_id, lookup_delete_eq).
    unfold set_idb. cbn. now rewrite insert_insert_eq.
  - intros Hnone.
    assert (Hid : <[store := os1]> (idb w) = idb w).
    { apply insert_id. rewrite Hs. unfold os1. rewrite delete_id by exact Hnone.
      now destruct os. }
    rewrite Hid. apply set_idb_same.
Qed.

Lemma delete_is_idempotent_witness :
  exists w1,
    Database.delete DbV3 "users" (VNum 1) local_world = (Ok VUndef, w1) /\
    Database.get DbV3 "users" (VNum 1) w1 = (Ok VUndef, w1) /\
    (forall id', id' <> VNum 1 ->
       (Database.get DbV3 "users" id' w1).1
       = (Database.get DbV3 "users" id' local_world).1) /\
    Database.delete DbV3 "users" (VNum 1) w1 = (Ok VUndef, w1) /\
    (rows (default IDB.empty_store (idb local_world !! "users")) !! KNum 1 = None ->
     w1 = local_world).
Proof.
  apply (delete_is_idempotent DbV3 "users" (VNum 1) local_world
           (default IDB.empty_store (idb local_world !! "users")) (KNum 1)).
  - vm_compute; reflexivity.
  - vm_compute; reflexivity.
  - reflexivity.
Defined.

(** ** Opening the database *)

Lemma upgrade_fold_keeps (l : list string) (i : gmap string ObjectStore) s os :
  i !! s = Some os ->
  foldr (fun s acc => match acc !! s with
                      | Some _ => acc
                      | None => <[s := IDB.empty_store]> acc
                      end) i l !! s = Some os.
Proof.
  intros Hs. induction l as [|x l IH]; cbn; [exact Hs|].
  destruct (foldr _ i l !! x) eqn:Hx; [exact IH|].
  rewrite lookup_insert_ne; [exact IH|]. intros <-. congruence.
Qed.

Lemma upgrade_fold_creates (l : list string) (i : gmap string ObjectStore) s :
  s ∈ l ->
  is_Some (foldr (fun s acc => match acc !! s with
                               | Some _ => acc
                               | None => <[s := IDB.empty_store]> acc
                               end) i l !! s).
Proof.
  induction l as [|x l IH]; [intros H; inversion H|].
  intros Hin. cbn. destruct (decide (s = x)) as [->|Hne].
  - destruct (foldr _ i l !! x) eqn:Hx; [rewrite Hx; eauto|].
    rewrite lookup_insert_eq. eauto.
  - apply elem_of_cons in Hin as [?|Hin]; [contradiction|].
    destruct (foldr _ i l !! x) eqn:Hx; [now apply IH|].
    rewrite lookup_insert_ne by congruence. now apply IH.
Qed.

Lemma upgrade_fold_new (l : list string) (i : gmap string ObjectStore) s :
  i !! s = None ->
  foldr (fun s acc => match acc !! s with
                      | Some _ => acc
                      | None => <[s := IDB.empty_store]> acc
                      end) i l !! s
  = if bool_decide (s ∈ l) then Some IDB.empty_store else None.
Proof.
  intros Hs. induction l as [|x l IH]; cbn.
  - rewrite bool_decide_eq_false_2; [exact Hs|]. intros H; inversion H.
  - destruct (decide (s = x)) as [->|Hne].
    + rewrite (bool_decide_eq_true_2 (x ∈ x :: l)) by constructor.
      destruct (foldr _ i l !! x) eqn:Hx.
      * rewrite Hx. rewrite IH in Hx. case_bool_decide; congruence.
      * apply lookup_insert_eq.
    + assert (Hiff : bool_decide (s ∈ x :: l) = bool_decide (s ∈ l)).
      { apply bool_decide_ext. rewrite elem_of_cons. tauto. }
      rewrite Hiff. destruct (foldr _ i l !! x) eqn:Hx; [exact IH|].
      rewrite lookup_insert_ne by congruence. exact IH.
Qed.

Lemma init_ok env c w w1 :
  Database.init env c w = (Ok tt, w1) ->
  idb_open_ok env (ticks w) = true /\ idb_version w <= DB_VERSION c /\
  db_handle w1 = true /\ idb_version w1 = DB_VERSION c /\
  console w1 = console w /\
  idb w1 = if idb_version w <? DB_VERSION c then IDB.upgrade c (idb w) else idb w.
Proof.
  unfold Database.init, tick, console_error. mrun.
  destruct (idb_open_ok env (ticks w)) eqn:Hopen; cbn; [|discriminate].
  destruct (DB_VERSION c <? idb_version w) eqn:Hlt; cbn; [discriminate|].
  apply Z.ltb_ge in Hlt.
  destruct (idb_version w <? DB_VERSION c) eqn:Hup; cbn; intros [= <-]; cbn.
  - repeat split; auto.
  - apply Z.ltb_ge in Hup. repeat split; auto. lia.
Qed.

Lemma init_keeps_stores env c w w1 :
  Database.init env c w = (Ok tt, w1) ->
  db_handle w1 = true /\
  (forall s os, idb w !! s = Some os -> idb w1 !! s = Some os).
Proof.
  intros Hinit. apply init_ok in Hinit as (_ & _ & Hh & _ & _ & Hidb).
  split; [exact Hh|]. intros s os Hs. rewrite Hidb.
  destruct (idb_version w <? DB_VERSION c); [|exact Hs]. now apply upgrade_fold_keeps.
Qed.

(** X5. When [init] resolves, the handle is set, every store that
    existed keeps its key generator and all its rows, every store of the
    copy's schema exists if the database was older than the copy, and a
    store that was absent is created empty exactly when the upgrade ran
    and the schema names it.  Nothing is logged. *)
Theorem init_keeps_data env c w w1 :
  Database.init env c w = (Ok tt, w1) ->
  db_handle w1 = true /\
  console w1 = console w /\
  (forall s os, idb w !! s = Some os -> idb w1 !! s = Some os) /\
  (forall s, local_records w s <> [] -> local_records w1 s = local_records w s) /\
  (idb_version w < DB_VERSION c -> forall s, s ∈ STORES c -> is_Some (idb w1 !! s)) /\
  (forall s, idb w !! s = None ->
     idb w1 !! s = if (idb_version w <? DB_VERSION c) && bool_decide (s ∈ STORES c)
                   then Some IDB.empty_store else None).
Proof.
  intros Hinit. destruct (init_keeps_stores env c w w1 Hinit) as [_ Hkeep].
  apply init_ok in Hinit as (_ & _ & Hh & _ & Hc & Hidb).
  split; [exact Hh|]. split; [exact Hc|]. split; [exact Hkeep|].
  split; [|split].
  - intros s. unfold local_records. destruct (idb w !! s) as [os|] eqn:Hs; [|congruence].
    now rewrite (Hkeep s os Hs).
  - intros Hlt s Hin. rewrite Hidb.
    apply Z.ltb_lt in Hlt. rewrite Hlt. now apply upgrade_fold_creates.
  - intros s Hs. rewrite Hidb.
    destruct (idb_version w <? DB_VERSION c); cbn; [|exact Hs].
    now apply upgrade_fold_new.
Qed.

Lemma init_keeps_data_witness :
  let w := (Database.add env_offline DbV2 "users" ana
              (Database.init env_offline DbV2 (boot AdapterA)).2).2 in
  let w1 := (Database.init env_offline DbV3 w).2 in
  db_handle w1 = true /\
  console w1 = console w /\
  (forall s os, idb w !! s = Some os -> idb w1 !! s = Some os) /\
  (forall s, local_records w s <> [] -> local_records w1 s = local_records w s) /\
  (idb_version w < DB_VERSION DbV3 ->
   forall s, s ∈ STORES DbV3 -> is_Some (idb w1 !! s)) /\
  (forall s, idb w !! s = None ->
     idb w1 !! s = if (idb_version w <? DB_VERSION DbV3) && bool_decide (s ∈ STORES DbV3)
                   then Some IDB.empty_store else None).
Proof.
  apply (init_keeps_data env_offline DbV3
           (Database.add env_offline DbV2 "users" ana
              (Database.init env_offline DbV2 (boot AdapterA)).2).2).
  vm_compute; reflexivity.
Defined.

(** X6. Once a database has been opened by a copy with a higher
    [DB_VERSION], [init] of a copy with a lower one always rejects with
    [VersionError]: it logs through [console.error], creates or changes no
    store, and leaves the handle as it was.  In particular the version 2
    copy cannot open a database the version 3 copy has opened. *)
Theorem init_older_copy_rejects env env' c c' w w1 :
  Database.init env c w = (Ok tt, w1) ->
  DB_VERSION c' < DB_VERSION c ->
  idb_open_ok env' (ticks w1) = true ->
  exists w2,
    Database.init env' c' w1 = (Throw VersionError, w2) /\
    idb w2 = idb w1 /\ idb_version w2 = idb_version w1 /\
    db_handle w2 = db_handle w1 /\
    console w2 = console w1 ++ [Error "[DB] Error opening database:" (Some VersionError)].
Proof.
  intros Hinit Hlt Hopen. apply init_ok in Hinit as (_ & _ & _ & Hv & _ & _).
  eexists. split.
  - unfold Database.init, tick, console_error. mrun. cbn.
    rewrite Hopen. cbn. rewrite Hv.
    apply Z.ltb_lt in Hlt. rewrite Hlt. cbn. reflexivity.
  - cbn. repeat split; reflexivity.
Qed.

Lemma init_older_copy_rejects_witness :
  let w1 := (Database.init env_offline DbV3 (boot AdapterA)).2 in
  exists w2,
    Database.init env_offline DbV2 w1 = (Throw VersionError, w2) /\
    idb w2 = idb w1 /\ idb_version w2 = idb_version w1 /\
    db_handle w2 = db_handle w1 /\
    console w2 = console w1 ++ [Error "[DB] Error opening database:" (Some VersionError)].
Proof.
  apply (init_older_copy_rejects env_offline env_offline DbV3 DbV2
           (boot AdapterA) (Database.init env_offline DbV3 (boot AdapterA)).2).
  - vm_compute; reflexivity.
  - vm_compute; reflexivity.
  - reflexivity.
Defined.

(** ** Indexes *)

Lemma index_not_keyPath store f : f ∈ indexNames store -> f <> keyPath store.
Proof.
  unfold indexNames, keyPath. intros Hin Heq.
  repeat case_decide; subst; try discriminate;
    repeat match goal with
           | H : _ ∈ _ :: _ |- _ => apply elem_of_cons in H as [H|H]; [try discriminate|]
           | H : _ ∈ [] |- _ => inversion H
           end.
Qed.

Lemma getByIndex_open c store f v w os k :
  db_handle w = true -> idb w !! store = Some os ->
  f ∈ indexNames store -> to_key (Some v) = Some k ->
  Database.getByIndex c store f v w
  = (Ok (filter (fun o => to_key (o !! f) = Some k) (IDB.records store os)), w).
Proof.
  intros Hh Hs Hf Hk. unfold Database.getByIndex, IDB.index_getAll, IDB.transaction.
  mrun. rewrite Hh. cbn. rewrite Hs. cbn.
  rewrite bool_decide_eq_true_2 by exact Hf. cbn in Hk. now rewrite Hk.
Qed.

(** X7. On an open store, after a successful [add] of a record whose
    field [f] holds a valid key, [getByIndex] on the declared index [f]
    with that value resolves with a list that contains the new record;
    the list holds exactly the records of the store whose field [f] is
    that key, so every record the same query returned before the [add] is
    still returned. *)
Theorem add_then_getByIndex env c store data w id w1 f v k :
  db_handle w = true ->
  Database.add env c store data w = (Ok id, w1) ->
  f ∈ indexNames store -> f <> "createdAt" ->
  data !! f = Some v -> to_key (Some v) = Some k ->
  exists rs,
    Database.getByIndex c store f v w1 = (Ok rs, w1) /\
    added env store id data ∈ rs /\
    (forall r, r ∈ rs <-> r ∈ local_records w1 store /\ to_key (r !! f) = Some k) /\
    (forall rs0, (Database.getByIndex c store f v w).1 = Ok rs0 ->
                 forall r, r ∈ rs0 -> r ∈ rs).
Proof.
  intros Hh Hadd Hf Hca Hv Hk.
  destruct (add_get env c store data w id w1 Hh Hadd) as (_ & Hin).
  pose proof (add_records env c store data w id w1 Hh Hadd) as Hkeep.
  rewrite add_open in Hadd by exact Hh.
  apply store_add_ok in Hadd as (os & k0 & Hs & _ & _ & -> & ->).
  set (w1 := set_idb _ w) in *.
  assert (Hs1 : exists os1, idb w1 !! store = Some os1)
    by (eexists; cbn; apply lookup_insert_eq).
  destruct Hs1 as (os1 & Hs1).
  assert (Hrec1 : local_records w1 store = IDB.records store os1)
    by (unfold local_records; now rewrite Hs1).
  assert (Hrec : local_records w store = IDB.records store os)
    by (unfold local_records; now rewrite Hs).
  exists (filter (fun o => to_key (o !! f) = Some k) (IDB.records store os1)).
  split; [apply getByIndex_open; auto|].
  rewrite <- Hrec1. split; [|split].
  - apply list_elem_of_filter. split; [|exact Hin].
    rewrite added_fields; [now rewrite Hv|now apply index_not_keyPath|exact Hca].
  - intros r. rewrite list_elem_of_filter. tauto.
  - intros rs0. rewrite (getByIndex_open c store f v w os k Hh Hs Hf Hk). cbn.
    intros [= <-] r. rewrite <- Hrec, !list_elem_of_filter. intros [? ?].
    split; [assumption|]. apply Hkeep. now right.
Qed.

Lemma add_then_getByIndex_witness :
  let w := local_world in
  let w1 := (Database.add env_offline DbV3 "users" bia w).2 in
  exists rs,
    Database.getByIndex DbV3 "users" "email" (VStr "bia@example.com") w1 = (Ok rs, w1) /\
    added env_offline "users" (VNum 2) bia ∈ rs /\
    (forall r, r ∈ rs <-> r ∈ local_records w1 "users" /\
                          to_key (r !! "email") = Some (KStr "bia@example.com")) /\
    (forall rs0,
       (Database.getByIndex DbV3 "users" "email" (VStr "bia@example.com") w).1 = Ok rs0 ->
       forall r, r ∈ rs0 -> r ∈ rs).
Proof.
  apply (add_then_getByIndex env_offline DbV3 "users" bia local_world (VNum 2)
           (Database.add env_offline DbV3 "users" bia local_world).2
           "email" (VStr "bia@example.com") (KStr "bia@example.com")).
  - vm_compute; reflexivity.
  - vm_compute; reflexivity.
  - apply list_elem_of_here.
  - discriminate.
  - vm_compute; reflexivity.
  - reflexivity.
Defined.

(** [getByIndex] on a name the store's schema does not declare as an
    index rejects with [NotFoundError], whatever the store holds. *)
Lemma getByIndex_undeclared c store f v w os :
  db_handle w = true -> idb w !! store = Some os ->
  f ∉ indexNames store ->
  Database.getByIndex c store f v w = (Throw NotFoundError, w).
Proof.
  intros Hh Hs Hf. unfold Database.getByIndex, IDB.index_getAll, IDB.transaction.
  mrun. rewrite Hh. cbn. rewrite Hs. cbn.
  now rewrite bool_decide_eq_false_2 by exact Hf.
Qed.

(** ** Settings *)

(** X8. On an open store, when [setSetting key value] resolves,
    [getSetting key] resolves with that value, and [getSetting] of every
    other key gives what it gave before. *)
Theorem setSetting_then_getSetting env c key v w r w1 :
  db_handle w = true ->
  DatabaseSettings.setSetting env c key v w = (Ok r, w1) ->
  DatabaseSettings.getSetting c key w1 = (Ok v, w1) /\
  (forall key', key' <> key ->
     (DatabaseSettings.getSetting c key' w1).1
     = (DatabaseSettings.getSetting c key' w).1).
Proof.
  intros Hh Hset. unfold DatabaseSettings.setSetting in Hset.
  destruct (update_get env c "settings" _ w r w1 Hh Hset) as (Hget & Hother).
  assert (Hr : r = key).
  { rewrite update_open in Hset by exact Hh.
    apply store_put_ok in Hset as (os & k & _ & Hk & -> & _).
    unfold IDB.resolve_key in Hk. rewrite lookup_insert_ne in Hk by discriminate.
    change (keyPath "settings") with "key" in Hk. rewrite lookup_insert_eq in Hk.
    destruct key; cbn in Hk; try discriminate; injection Hk as <-; reflexivity. }
  subst r. split.
  - unfold DatabaseSettings.getSetting. unfold bind at 1. rewrite Hget.
    unfold ret. f_equal.
  - intros key' Hne. specialize (Hother key' Hne).
    unfold DatabaseSettings.getSetting, bind, ret.
    destruct (Database.get c "settings" key' w1) as [[x|e] w2],
             (Database.get c "settings" key' w) as [[y|e'] w3]; cbn in *;
      try discriminate; now injection Hother as ->.
Qed.

Lemma setSetting_then_getSetting_witness :
  let w := local_world in
  let w1 := (DatabaseSettings.setSetting env_offline DbV3 (VStr "theme") (VStr "dark") w).2 in
  DatabaseSettings.getSetting DbV3 (VStr "theme") w1 = (Ok (VStr "dark"), w1) /\
  (forall key', key' <> VStr "theme" ->
     (DatabaseSettings.getSetting DbV3 key' w1).1
     = (DatabaseSettings.getSetting DbV3 key' w).1).
Proof.
  apply (setSetting_then_getSetting env_offline DbV3 (VStr "theme") (VStr "dark")
           local_world (VStr "theme")).
  - vm_compute; reflexivity.
  - vm_compute; reflexivity.
Defined.

(** ** Adding and deleting *)

Lemma records_rows store os os' :
  rows os' = rows os -> IDB.records store os' = IDB.records store os.
Proof. unfold IDB.records. now intros ->. Qed.

(** X24. Adding a record and deleting it again restores the records of
    the store, and the id is not given out again: on an open store, for
    data without an in-line key, when [add] resolves with an id and
    [delete] of that id resolves, [getAll] lists what it listed before the
    [add]; and a later [add] of data without an in-line key resolves with
    a different, larger id. *)
Theorem add_delete_add env c store data data' w id w1 r w2 id' w3 :
  db_handle w = true ->
  data !! keyPath store = None -> data' !! keyPath store = None ->
  Database.add env c store data w = (Ok id, w1) ->
  Database.delete c store id w1 = (Ok r, w2) ->
  Database.add env c store data' w2 = (Ok id', w3) ->
  local_records w2 store = local_records w store /\
  exists n n', id = VNum n /\ id' = VNum n' /\ n < n'.
Proof.
  intros Hh Hnone Hnone' Hadd Hdel Hadd'.
  rewrite add_open in Hadd by exact Hh.
  apply store_add_ok in Hadd as (os & k & Hs & Hk & Hfree & -> & ->).
  unfold IDB.resolve_key in Hk. rewrite lookup_insert_ne in Hk
    by (destruct (keyPath_cases store) as [-> | ->]; discriminate).
  rewrite Hnone in Hk. destruct (autoIncrement store) eqn:Hauto; [|discriminate].
  injection Hk as <-.
  apply delete_ok in Hdel as (os1 & k1 & Hs1 & Hk1 & _ & ->); [|exact Hh].
  cbn in Hs1. rewrite lookup_insert_eq in Hs1. injection Hs1 as <-.
  cbn in Hk1. injection Hk1 as <-.
  rewrite add_open in Hadd' by exact Hh.
  apply store_add_ok in Hadd' as (os2 & k2 & Hs2 & Hk2 & _ & -> & _).
  cbn in Hs2. rewrite lookup_insert_eq in Hs2. injection Hs2 as <-.
  unfold IDB.resolve_key in Hk2. rewrite lookup_insert_ne in Hk2
    by (destruct (keyPath_cases store) as [-> | ->]; discriminate).
  rewrite Hnone', Hauto in Hk2. injection Hk2 as <-. cbn.
  split.
  - unfold local_records. cbn. rewrite lookup_insert_eq, Hs.
    apply records_rows. cbn. rewrite delete_insert_eq. now apply delete_id.
  - rewrite Z.leb_refl.
    exists (keygen os), (keygen os + 1). split; [reflexivity|]. split; [reflexivity|lia].
Qed.

Lemma add_delete_add_witness :
  let w := local_world in
  let w1 := (Database.add env_offline DbV3 "users" bia w).2 in
  let w2 := (Database.delete DbV3 "users" (VNum 2) w1).2 in
  local_records w2 "users" = local_records w "users" /\
  exists n n', VNum 2 = VNum n /\ VNum 3 = VNum n' /\ n < n'.
Proof.
  apply (add_delete_add env_offline DbV3 "users" bia bia local_world (VNum 2)
           (Database.add env_offline DbV3 "users" bia local_world).2 VUndef
           (Database.delete DbV3 "users" (VNum 2)
              (Database.add env_offline DbV3 "users" bia local_world).2).2
           (VNum 3)
           (Database.add env_offline DbV3 "users" bia
              (Database.delete DbV3 "users" (VNum 2)
                 (Database.add env_offline DbV3 "users" bia local_world).2).2).2).
  - vm_compute; reflexivity.
  - vm_compute; reflexivity.
  - vm_compute; reflexivity.
  - vm_compute; reflexivity.
  - vm_compute; reflexivity.
  - vm_compute; reflexivity.
Defined.

End LocalStoreFacts.

(* ===================================================================== *)
(** * Part X.  The Sync Adapter: further properties                       *)
(* ===================================================================== *)

Module AdapterFacts.
Import StoreSpec StoreFacts PersistenceSpec LocalStoreFacts.

(** ** Adding in cloud mode *)

Lemma adapter_add_cloud env c store data w id w1 :
  cloud_enabled w ->
  DbAdapter.add env c store data w = (Ok id, w1) ->
  exists i w' lid,
    FirebaseDB.add env store data w = (Ok i, w') /\ id = VStr i /\
    Database.add env c store (<["cloudId" := VStr i]> data) w' = (Ok lid, w1).
Proof.
  intros Hc. pose proof (getDB_cloud w Hc) as Hg. destruct Hc as [Hu0 _].
  unfold DbAdapter.add, bind, get_world, ret. rewrite Hg.
  destruct (FirebaseDB.add env store data w) as [[i|e] w'] eqn:Hr; [|discriminate].
  pose proof (FirebaseDB_add_frame _ _ _ _ _ _ Hr) as ((Hu & _) & _).
  rewrite Hu, Hu0.
  destruct (Database.add env c store (<["cloudId" := VStr i]> data) w')
    as [[lid|e] w2] eqn:Hm; [|discriminate].
  intros [= <- <-]. exists i, w', lid. auto.
Qed.

Lemma adapter_update_cloud env c store data w r w1 :
  cloud_enabled w ->
  DbAdapter.update env c store data w = (Ok r, w1) ->
  exists w' lid,
    FirebaseDB.update env store data w = (Ok data, w') /\ r = VObj data /\
    Database.update env c store data w' = (Ok lid, w1).
Proof.
  intros Hc. pose proof (getDB_cloud w Hc) as Hg. destruct Hc as [Hu0 _].
  unfold DbAdapter.update, bind, get_world, ret. rewrite Hg.
  destruct (FirebaseDB.update env store data w) as [[d|e] w'] eqn:Hr; [|discriminate].
  pose proof (FirebaseDB_update_frame _ _ _ _ _ _ Hr) as ((Hu & _) & _ & _ & _ & -> & _).
  rewrite Hu, Hu0.
  destruct (Database.update env c store data w') as [[lid|e] w2] eqn:Hm; [|discriminate].
  intros [= <- <-]. exists w', lid. auto.
Qed.

Lemma added_cloudId env store lid (i : value) data :
  added env store lid (<["cloudId" := i]> data) !! "cloudId" = Some i.
Proof.
  unfold added. rewrite lookup_insert_ne by apply keyPath_not_cloudId.
  rewrite lookup_insert_ne by discriminate. apply lookup_insert_eq.
Qed.

(** X9. In cloud mode, when [add] resolves, the id it returns is the
    Firestore document id, and Firestore holds one new document, the data
    stamped with [createdAt].  The Local Store holds a mirror of it under
    a key of its own, carrying the document id as [cloudId]; every record
    it held before is still there; with a non-empty document id the
    records lacking a [cloudId] are the same as before, so a later
    [syncToCloud] does not upload the mirror again.  When the data has no
    in-line key, the local key differs from the returned id, and reading
    the Local Store with the returned id gives what it gave before the
    [add]: the returned id does not address the mirror. *)
Theorem cloud_add_mirror env c store data w id w1 :
  cloud_enabled w -> db_handle w = true ->
  DbAdapter.add env c store data w = (Ok id, w1) ->
  exists i lid,
    let mirror := added env store lid (<["cloudId" := VStr i]> data) in
    id = VStr i /\
    cloud_docs w1 = cloud_docs w ++ [(store, i, <["createdAt" := VStr (now env)]> data)] /\
    Database.get c store lid w1 = (Ok (VObj mirror), w1) /\
    mirror !! "cloudId" = Some (VStr i) /\
    (forall item, item ∈ local_records w1 store <->
                  item = mirror \/ item ∈ local_records w store) /\
    (i <> "" -> forall p, p ∈ pending_in w1 store <-> p ∈ pending_in w store) /\
    (data !! keyPath store = None ->
       lid <> id /\ (Database.get c store id w1).1 = (Database.get c store id w).1).
Proof.
  intros Hc Hh Hadd.
  destruct (adapter_add_cloud env c store data w id w1 Hc Hadd)
    as (i & w' & lid & Hr & -> & Hm).
  apply FirebaseDB_add_frame in Hr as (Ha & Hl & _ & _ & _ & Hdocs).
  destruct Ha as (_ & _ & _ & Hh'). destruct Hl as (Hidb & _).
  assert (Hh1 : db_handle w' = true) by congruence.
  pose proof (Database_add_frame _ _ _ _ _ _ _ Hm) as (_ & (Hd1 & _) & _).
  destruct (add_get env c store _ w' lid w1 Hh1 Hm) as (Hget & _).
  pose proof (add_records env c store _ w' lid w1 Hh1 Hm) as Hrec.
  assert (Hrecw : local_records w' store = local_records w store)
    by (apply local_records_ext; now rewrite Hidb).
  rewrite Hrecw in Hrec.
  exists i, lid. cbn zeta.
  split; [reflexivity|]. split; [congruence|]. split; [exact Hget|].
  split; [apply added_cloudId|]. split; [exact Hrec|]. split.
  - intros Hi p. unfold pending_in. rewrite !list_elem_of_fmap.
    split; intros (item & -> & Hin); exists item; (split; [reflexivity|]);
      apply list_elem_of_filter in Hin as [Hlack Hin]; apply list_elem_of_filter;
      (split; [exact Hlack|]).
    + apply Hrec in Hin as [->|Hin]; [|exact Hin]. exfalso.
      unfold lacks_cloudId in Hlack. rewrite added_cloudId in Hlack. cbn in Hlack.
      destruct (String.eqb_spec i ""); [contradiction|discriminate].
    + apply Hrec. now right.
  - intros Hnone.
    assert (Hnone' : <["cloudId" := VStr i]> data !! keyPath store = None).
    { rewrite lookup_insert_ne; [exact Hnone|]. intros Heq. symmetry in Heq.
      now apply keyPath_not_cloudId in Heq. }
    destruct (add_generated_key env c store _ w' lid w1 Hh1 Hnone' Hm) as [n ->].
    split; [discriminate|].
    transitivity (Database.get c store (VStr i) w').1; [|apply get_ext; congruence].
    rewrite add_open in Hm by exact Hh1.
    apply store_add_ok in Hm as (os & k & Hs & _ & _ & Hk & ->).
    destruct k as [m|s]; [|discriminate]. cbn in Hk. injection Hk as ->.
    apply get_other with (os := os) (os1 := written store os (KNum m)
             (<["createdAt" := VStr (now env)]> (<["cloudId" := VStr i]> data)))
             (k := KNum m);
      [exact Hh1|exact Hh1|exact Hs|cbn; apply lookup_insert_eq| |cbn; discriminate].
    intros k' Hk'. cbn. now apply lookup_insert_ne.
Qed.

Lemma cloud_add_mirror_witness :
  let w := cloud_world env_up in
  let w1 := (DbAdapter.add env_up DbV3 "workouts" leg_day w).2 in
  exists i lid,
    let mirror := added env_up "workouts" lid (<["cloudId" := VStr i]> leg_day) in
    VStr "doc4" = VStr i /\
    cloud_docs w1
      = cloud_docs w ++ [("workouts", i, <["createdAt" := VStr (now env_up)]> leg_day)] /\
    Database.get DbV3 "workouts" lid w1 = (Ok (VObj mirror), w1) /\
    mirror !! "cloudId" = Some (VStr i) /\
    (forall item, item ∈ local_records w1 "workouts" <->
                  item = mirror \/ item ∈ local_records w "workouts") /\
    (i <> "" -> forall p, p ∈ pending_in w1 "workouts" <-> p ∈ pending_in w "workouts") /\
    (leg_day !! keyPath "workouts" = None ->
       lid <> VStr "doc4" /\
       (Database.get DbV3 "workouts" (VStr "doc4") w1).1
       = (Database.get DbV3 "workouts" (VStr "doc4") w).1).
Proof.
  apply (cloud_add_mirror env_up DbV3 "workouts" leg_day (cloud_world env_up)
           (VStr "doc4")).
  - split; vm_compute; reflexivity.
  - vm_compute; reflexivity.
  - vm_compute; reflexivity.
Defined.

(** ** What is pending gets uploaded *)

Lemma Forall2_zip_elem {A B C} (P : A -> B -> Prop) (f : A -> B -> C) l k y :
  Forall2 P l k -> y ∈ k -> exists x, P x y /\ f x y ∈ zip_with f l k.
Proof.
  induction 1 as [|x y' l k Hxy _ IH]; intros Hin; [inversion Hin|].
  apply elem_of_cons in Hin as [->|Hin].
  - exists x. split; [exact Hxy|]. cbn. left.
  - destruct (IH Hin) as (x' & HP & Hz). exists x'. split; [exact HP|]. cbn. now right.
Qed.

Lemma pending_is_uploaded env c w p :
  cloud_enabled w -> db_handle w = true -> uploads_succeed env ->
  p ∈ pending (STORES c) w ->
  exists w' cloudId,
    DbAdapter.syncToCloud env c w = (Ok true, w') /\ cloudId <> "" /\
    uploaded env cloudId p ∈ cloud_docs w' /\
    rewritten env cloudId p.2 ∈ local_records w' p.1.
Proof.
  intros Hc Hh Hup Hp.
  destruct (sync_stores_spec env c Hup (STORES c) w (STORES_NoDup c) Hh)
    as (w' & ids & Hrun & _ & _ & Hdocs & Hrw & _).
  destruct (Forall2_zip_elem _ (uploaded env) _ _ p Hrw Hp) as (i & [Hi Hin] & Hz).
  exists w', i. split.
  - rewrite (syncToCloud_cloud env c w Hc). now rewrite Hrun.
  - split; [exact Hi|]. split; [|exact Hin]. rewrite Hdocs. apply elem_of_app. now right.
Qed.

Lemma elem_of_pending stores w store item :
  store ∈ stores -> item ∈ local_records w store -> lacks_cloudId item ->
  (store, item) ∈ pending stores w.
Proof.
  intros Hs Hin Hl. unfold pending. apply list_elem_of_bind. exists store.
  split; [|exact Hs]. unfold pending_in. apply list_elem_of_fmap.
  exists item. split; [reflexivity|]. now apply list_elem_of_filter.
Qed.

(** ** [initDatabase] and the Local Store *)



(** ** From local mode to the cloud *)



(** ** Updating in cloud mode *)

(** X11. In cloud mode, when [update] resolves for data carrying no
    [cloudId], Firestore has received the update, and the Local Store
    holds the data under its key as a record lacking a [cloudId], whatever
    was stored under that key before.  The record is therefore pending:
    if uploads are accepted, the next [syncToCloud] also creates a new
    Firestore document for it. *)
Theorem cloud_update_requeues env c store data w r w1 :
  cloud_enabled w -> db_handle w = true ->
  store ∈ STORES c -> truthy (data !! "cloudId") = false ->
  DbAdapter.update env c store data w = (Ok r, w1) ->
  exists lid,
    let item := updated env store lid data in
    r = VObj data /\
    cloud_updates w1
      = cloud_updates w ++ [(store, data !! "id", <["updatedAt" := VStr (now env)]> data)] /\
    cloud_docs w1 = cloud_docs w /\
    Database.get c store lid w1 = (Ok (VObj item), w1) /\
    (store, item) ∈ pending (STORES c) w1 /\
    (uploads_succeed env ->
     exists w2 cloudId,
       DbAdapter.syncToCloud env c w1 = (Ok true, w2) /\ cloudId <> "" /\
       (store, cloudId, <["createdAt" := VStr (now env)]> item) ∈ cloud_docs w2).
Proof.
  intros Hc Hh Hst Hcid Hupd.
  destruct (adapter_update_cloud env c store data w r w1 Hc Hupd)
    as (w' & lid & Hr & -> & Hm).
  apply FirebaseDB_update_frame in Hr as (Ha & Hl & _ & Hdocs & _ & Hups).
  destruct Ha as (Hu' & Hm' & _ & Hh').
  assert (Hh1 : db_handle w' = true) by congruence.
  pose proof (Database_update_frame _ _ _ _ _ _ _ Hm)
    as ((Hu1 & Hm1 & _ & Hh2) & (Hd1 & Hup1 & _) & _).
  destruct (update_get env c store data w' lid w1 Hh1 Hm) as (Hget & _).
  pose proof (update_records env c store data w' lid w1 Hh1 Hm) as Hin.
  assert (Hlack : lacks_cloudId (updated env store lid data)).
  { unfold lacks_cloudId. rewrite updated_fields; [exact Hcid| |discriminate].
    intros Heq. symmetry in Heq. now apply keyPath_not_cloudId in Heq. }
  pose proof (elem_of_pending _ _ _ _ Hst Hin Hlack) as Hp.
  exists lid. cbn zeta. split; [reflexivity|]. split; [congruence|].
  split; [congruence|]. split; [exact Hget|]. split; [exact Hp|].
  intros Hup.
  assert (Hc1 : cloud_enabled w1) by (destruct Hc; split; congruence).
  destruct (pending_is_uploaded env c w1 _ Hc1 ltac:(congruence) Hup Hp)
    as (w2 & i & Hrun & Hi & Hdoc & _).
  exists w2, i. auto.
Qed.

Lemma cloud_update_requeues_witness :
  let w := (DbAdapter.syncToCloud env_up DbV3 (cloud_world env_up)).2 in
  let data := <["id" := VNum 1]> leg_day in
  let w1 := (DbAdapter.update env_up DbV3 "workouts" data w).2 in
  exists lid,
    let item := updated env_up "workouts" lid data in
    VObj data = VObj data /\
    cloud_updates w1
      = cloud_updates w
        ++ [("workouts", data !! "id", <["updatedAt" := VStr (now env_up)]> data)] /\
    cloud_docs w1 = cloud_docs w /\
    Database.get DbV3 "workouts" lid w1 = (Ok (VObj item), w1) /\
    ("workouts", item) ∈ pending (STORES DbV3) w1 /\
    (uploads_succeed env_up ->
     exists w2 cloudId,
       DbAdapter.syncToCloud env_up DbV3 w1 = (Ok true, w2) /\ cloudId <> "" /\
       ("workouts", cloudId, <["createdAt" := VStr (now env_up)]> item) ∈ cloud_docs w2).
Proof.
  apply (cloud_update_requeues env_up DbV3 "workouts" (<["id" := VNum 1]> leg_day)
           (DbAdapter.syncToCloud env_up DbV3 (cloud_world env_up)).2).
  - split; vm_compute; reflexivity.
  - vm_compute; reflexivity.
  - apply (bool_decide_unpack _). vm_compute. exact I.
  - vm_compute; reflexivity.
  - vm_compute; reflexivity.
Defined.

(** ** Deleting and settings in cloud mode *)

Lemma FirebaseDBRest_delete_frame cenv store id w r w' :
  FirebaseDBRest.delete cenv store id w = (r, w') ->
  same_adapter w w' /\ idb w' = idb w /\
  forall v, r = Ok v -> v = VBool true.
Proof.
  unfold FirebaseDBRest.delete. mrun.
  destruct (cloud_deleteDoc cenv (ticks w) store (js_String id)); cbn;
    intros [= <- <-]; cbn; repeat split; auto; intros v [= <-]; reflexivity.
Qed.

Lemma adapter_delete_cloud cenv c store id w r w2 :
  cloud_enabled w ->
  DbAdapterRest.delete cenv c store id w = (Ok r, w2) ->
  exists w1 u,
    FirebaseDBRest.delete cenv store id w = (Ok (VBool true), w1) /\
    Database.delete c store id w1 = (Ok u, w2) /\ r = VBool true.
Proof.
  intros Hc. pose proof (getDB_cloud w Hc) as Hg. destruct Hc as [Hu0 _].
  unfold DbAdapterRest.delete, bind, get_world, ret. rewrite Hg.
  destruct (FirebaseDBRest.delete cenv store id w) as [[v|e] w1] eqn:Hr; [|discriminate].
  pose proof (FirebaseDBRest_delete_frame _ _ _ _ _ _ Hr) as ((Hu & _) & _ & Hv).
  rewrite (Hv v eq_refl) in *. rewrite Hu, Hu0.
  destruct (Database.delete c store id w1) as [[u|e] w3] eqn:Hd; [|discriminate].
  intros [= <- <-]. exists w1, u. auto.
Qed.

(** X12. In cloud mode, deleting with the id that [add] returned does
    not remove the record's local mirror: when the data had no in-line key
    and both calls resolve, the Local Store still holds the mirror under
    its own key, still carrying the document id as [cloudId]. *)
Theorem cloud_delete_leaves_mirror env cenv c store data w id w1 r w2 :
  cloud_enabled w -> db_handle w = true -> data !! keyPath store = None ->
  DbAdapter.add env c store data w = (Ok id, w1) ->
  DbAdapterRest.delete cenv c store id w1 = (Ok r, w2) ->
  exists i lid,
    let mirror := added env store lid (<["cloudId" := VStr i]> data) in
    id = VStr i /\ r = VBool true /\
    Database.get c store lid w2 = (Ok (VObj mirror), w2) /\
    mirror !! "cloudId" = Some id.
Proof.
  intros Hc Hh Hnone Hadd Hdel.
  destruct (adapter_add_cloud env c store data w id w1 Hc Hadd)
    as (i & w' & lid & Hr & -> & Hm).
  apply FirebaseDB_add_frame in Hr as (Ha & _).
  destruct Ha as (Hu' & Hm' & _ & Hh').
  assert (Hh1 : db_handle w' = true) by congruence.
  pose proof (Database_add_frame _ _ _ _ _ _ _ Hm) as ((Hu1 & Hm1 & _ & Hh2) & _).
  assert (Hc1 : cloud_enabled w1) by (destruct Hc; split; congruence).
  assert (Hnone' : <["cloudId" := VStr i]> data !! keyPath store = None).
  { rewrite lookup_insert_ne; [exact Hnone|]. intros Heq. symmetry in Heq.
    now apply keyPath_not_cloudId in Heq. }
  destruct (add_generated_key env c store _ w' lid w1 Hh1 Hnone' Hm) as [n ->].
  destruct (add_get env c store _ w' (VNum n) w1 Hh1 Hm) as (Hget & _).
  destruct (adapter_delete_cloud cenv c store (VStr i) w1 r w2 Hc1 Hdel)
    as (w1a & u & Hrd & Hld & ->).
  apply FirebaseDBRest_delete_frame in Hrd as ((_ & _ & _ & Hh1a) & Hidb & _).
  assert (Hh1a' : db_handle w1a = true) by congruence.
  destruct (delete_get_other c store (VStr i) w1a u w2 Hh1a' Hld) as (Hh2' & Hoth).
  exists i, (VNum n). cbn zeta. split; [reflexivity|]. split; [reflexivity|].
  split; [|apply added_cloudId].
  rewrite (surjective_pairing (Database.get c store (VNum n) w2)).
  rewrite get_same_world by exact Hh2'. f_equal.
  rewrite Hoth by discriminate.
  rewrite (get_ext c store (VNum n) w1 w1a) by congruence.
  now rewrite Hget.
Qed.

Lemma cloud_delete_leaves_mirror_witness :
  let w := cloud_world env_up in
  let w1 := (DbAdapter.add env_up DbV3 "workouts" leg_day w).2 in
  let w2 := (DbAdapterRest.delete cenv_up DbV3 "workouts" (VStr "doc4") w1).2 in
  exists i lid,
    let mirror := added env_up "workouts" lid (<["cloudId" := VStr i]> leg_day) in
    VStr "doc4" = VStr i /\ VBool true = VBool true /\
    Database.get DbV3 "workouts" lid w2 = (Ok (VObj mirror), w2) /\
    mirror !! "cloudId" = Some (VStr "doc4").
Proof.
  apply (cloud_delete_leaves_mirror env_up cenv_up DbV3 "workouts" leg_day
           (cloud_world env_up) (VStr "doc4")
           (DbAdapter.add env_up DbV3 "workouts" leg_day (cloud_world env_up)).2
           (VBool true)).
  - split; vm_compute; reflexivity.
  - vm_compute; reflexivity.
  - vm_compute; reflexivity.
  - vm_compute; reflexivity.
  - vm_compute; reflexivity.
Defined.

Lemma getSetting_ext c key w w' :
  db_handle w' = db_handle w -> idb w' !! "settings" = idb w !! "settings" ->
  (DatabaseSettings.getSetting c key w').1 = (DatabaseSettings.getSetting c key w).1.
Proof.
  intros Hh Hs. pose proof (get_ext c "settings" key w w' Hh Hs) as Hget.
  unfold DatabaseSettings.getSetting, bind, ret.
  destruct (Database.get c "settings" key w') as [[x|e] w2],
           (Database.get c "settings" key w) as [[y|e'] w3]; cbn in *;
    try discriminate; [now injection Hget as ->|exact Hget].
Qed.

(** X13. In cloud mode [setSetting] writes to Firestore only: whether
    it resolves or rejects, the Local Store is unchanged (unlike [add],
    [update] and [delete], it has no mirror write).  Once cloud mode is
    off again, [getSetting] of every key, the one just written included,
    gives what the Local Store gave before the write. *)
Theorem cloud_setSetting_not_mirrored env cenv c key v w r w1 :
  cloud_enabled w ->
  DbAdapterRest.setSetting env cenv c key v w = (r, w1) ->
  idb w1 = idb w /\ console w1 = console w /\
  (forall x, r = Ok x -> x = VBool true) /\
  forall key',
    (DbAdapterRest.getSetting cenv c key' (DbAdapter.disableCloud w1).2).1
    = (DatabaseSettings.getSetting c key' w).1.
Proof.
  intros Hc. pose proof (getDB_cloud w Hc) as Hg.
  unfold DbAdapterRest.setSetting. unfold bind at 1. unfold get_world at 1. rewrite Hg.
  unfold FirebaseDBRest.setSetting, bind, tick, ret, throw.
  destruct (cloud_setDoc cenv (ticks w) "settings" _ _); intros [= <- <-]; cbn;
    (split; [reflexivity|]); (split; [reflexivity|]);
    (split; [intros x [= <-]; reflexivity|]); intros key';
    unfold DbAdapterRest.getSetting, DbAdapter.getDB, bind, get_world; cbn;
    apply getSetting_ext; reflexivity.
Qed.

Lemma cloud_setSetting_not_mirrored_witness :
  let w := cloud_world env_up in
  let w1 := (DbAdapterRest.setSetting env_up cenv_up DbV3 (VStr "theme") (VStr "light") w).2 in
  idb w1 = idb w /\ console w1 = console w /\
  (forall x, Ok (VBool true) = Ok x -> x = VBool true) /\
  forall key',
    (DbAdapterRest.getSetting cenv_up DbV3 key' (DbAdapter.disableCloud w1).2).1
    = (DatabaseSettings.getSetting DbV3 key' w).1.
Proof.
  apply (cloud_setSetting_not_mirrored env_up cenv_up DbV3 (VStr "theme") (VStr "light")
           (cloud_world env_up) (Ok (VBool true))).
  - split; vm_compute; reflexivity.
  - vm_compute; reflexivity.
Defined.

(** ** [syncToCloud] never loses local data *)

Lemma synced_from_refl item : synced_from item item.
Proof. split; auto. Qed.

Lemma synced_from_trans a b c : synced_from a b -> synced_from b c -> synced_from a c.
Proof.
  intros [Hab1 Hab2] [Hbc1 Hbc2]. split.
  - intros Ha. specialize (Hab1 Ha). subst b. now apply Hbc1.
  - intros f Hf1 Hf2. rewrite Hbc2, Hab2; auto.
Qed.

Lemma rows_synced_refl store os : rows_synced store os os.
Proof. intros k. destruct (rows os !! k); [apply synced_from_refl|exact I]. Qed.

Lemma rows_synced_trans store a b c :
  rows_synced store a b -> rows_synced store b c -> rows_synced store a c.
Proof.
  intros Hab Hbc k. specialize (Hab k). specialize (Hbc k).
  destruct (rows a !! k), (rows b !! k), (rows c !! k); try tauto.
  eapply synced_from_trans; eauto.
Qed.

Lemma rows_synced_ext store os os' :
  rows os' = rows os -> rows_synced store os os'.
Proof. intros H k. rewrite H. destruct (rows os !! k); [apply synced_from_refl|exact I]. Qed.

Lemma stores_synced_refl i : stores_synced i i.
Proof. intros s. destruct (i !! s); [apply rows_synced_refl|exact I]. Qed.

Lemma stores_synced_trans a b c :
  stores_synced a b -> stores_synced b c -> stores_synced a c.
Proof.
  intros Hab Hbc s. specialize (Hab s). specialize (Hbc s).
  destruct (a !! s), (b !! s), (c !! s); try tauto.
  eapply rows_synced_trans; eauto.
Qed.

Lemma stores_synced_insert i store os os' :
  i !! store = Some os -> rows_synced store os os' ->
  stores_synced i (<[store := os']> i).
Proof.
  intros Hs Hr s. destruct (decide (s = store)) as [->|Hne].
  - now rewrite Hs, lookup_insert_eq.
  - rewrite lookup_insert_ne by congruence.
    destruct (i !! s); [apply rows_synced_refl|exact I].
Qed.

#[global] Instance keeps_local_preorder : PreOrder keeps_local.
Proof.
  split.
  - intros w _. split; [reflexivity|]. split; [reflexivity|apply stores_synced_refl].
  - intros w1 w2 w3 H12 H23 Hh. destruct (H12 Hh) as (Hm & Hd & Hs).
    assert (Hh2 : db_handle w2 = true) by (destruct Hm as (-> & _); exact Hh).
    destruct (H23 Hh2) as (Hm' & Hd' & Hs').
    split; [etransitivity; eauto|]. split; [etransitivity; eauto|].
    eapply stores_synced_trans; eauto.
Qed.

Lemma keeps_local_same w w' :
  same_mode w w' -> cloud_docs w `prefix_of` cloud_docs w' -> idb w' = idb w ->
  keeps_local w w'.
Proof.
  intros Hm Hd Hi _. split; [exact Hm|]. split; [exact Hd|]. rewrite Hi.
  apply stores_synced_refl.
Qed.

Lemma synced_from_rewritten env store k id item :
  key_of store item = Some k -> lacks_cloudId item ->
  synced_from item (IDB.stored store k (rewritten env id item)).
Proof.
  intros Hk Hl. split; [intros Hn; contradiction|].
  intros f Hf1 Hf2. unfold IDB.stored, rewritten.
  destruct (decide (f = keyPath store)) as [->|Hne].
  - rewrite lookup_insert_eq. apply to_key_Some in Hk. now rewrite Hk.
  - rewrite lookup_insert_ne by congruence.
    rewrite lookup_insert_ne by congruence. now rewrite lookup_insert_ne by congruence.
Qed.

Lemma await_run {A} others p (call : M A) w :
  Interleaved.await others p call w = call (others p w).
Proof. reflexivity. Qed.

Lemma update_cloudId_row env c store item id w os k :
  db_handle w = true -> idb w !! store = Some os -> key_of store item = Some k ->
  exists v w' os',
    Database.update env c store (<["cloudId" := VStr id]> item) w = (Ok v, w') /\
    idb w' = <[store := os']> (idb w) /\
    rows os' = <[k := IDB.stored store k (rewritten env id item)]> (rows os) /\
    cloud_docs w' = cloud_docs w /\ same_mode w w'.
Proof.
  intros Hh Hs Hk.
  pose proof (resolve_key_of store os (rewritten env id item) k) as Hres.
  rewrite key_of_rewritten in Hres. specialize (Hres Hk). unfold rewritten in Hres.
  unfold Database.update, IDB.store_put, IDB.transaction, IDB.commit.
  mrun. rewrite Hh. cbn. rewrite Hs. cbn. rewrite Hres. cbn.
  eexists _, _, _. split; [reflexivity|]. cbn. repeat split.
Qed.

(** One turn of the inner loop, with other tasks that are [quiet]: the
    store is as before, or the row of the item has been rewritten. *)
Lemma sync_item_interleaved others env c store item w os k :
  quiet others -> db_handle w = true -> idb w !! store = Some os ->
  key_of store item = Some k ->
  exists r w' os',
    Interleaved.sync_item others env c store item w = (r, w') /\
    idb w' = <[store := os']> (idb w) /\
    same_mode w w' /\
    cloud_docs w `prefix_of` cloud_docs w' /\
    (r = Ok tt \/ os' = os) /\
    (os' = os \/
     lacks_cloudId item /\
     exists id, rows os' = <[k := IDB.stored store k (rewritten env id item)]> (rows os)).
Proof.
  intros Hq Hh Hs Hk. unfold Interleaved.sync_item.
  destruct (truthy (item !! "cloudId")) eqn:Hl; cbn [negb].
  { exists (Ok tt), w, os. split; [reflexivity|]. split; [now rewrite insert_id|].
    split; [reflexivity|]. split; [reflexivity|]. auto. }
  unfold bind at 1. rewrite await_run.
  destruct (Hq (AwaitAdd store item) w) as (Hm0 & Hd0 & Hi0).
  set (w0 := others (AwaitAdd store item) w) in *.
  destruct (FirebaseDB.add env store item w0) as [[id|e] w1] eqn:Hadd;
    apply FirebaseDB_add_frame in Hadd as (Ha1 & (Hi1 & _) & _ & _ & Hdocs1).
  - destruct Hdocs1 as [_ Hdocs1].
    unfold bind at 1. rewrite await_run.
    destruct (Hq (AwaitUpdate store item) w1) as (Hm2 & Hd2 & Hi2).
    set (w2 := others (AwaitUpdate store item) w1) in *.
    assert (Hm02 : same_mode w w2).
    { etransitivity; [exact Hm0|]. etransitivity; [|exact Hm2].
      now apply same_adapter_flags. }
    assert (Hh2 : db_handle w2 = true) by (destruct Hm02 as (-> & _); exact Hh).
    assert (Hi02 : idb w2 = idb w) by congruence.
    assert (Hs2 : idb w2 !! store = Some os) by (rewrite Hi02; exact Hs).
    destruct (update_cloudId_row env c store item id w2 os k Hh2 Hs2 Hk)
      as (v & w3 & os' & Hupd & Hi3 & Hrows & Hdocs3 & Hm3).
    rewrite Hupd. exists (Ok tt), w3, os'.
    split; [reflexivity|]. split; [now rewrite Hi3, Hi02|].
    split; [etransitivity; eauto|].
    split.
    { rewrite Hdocs3. etransitivity; [exact Hd0|]. etransitivity; [|exact Hd2].
      rewrite Hdocs1. now apply prefix_app_r. }
    split; [now left|]. right. split; [exact Hl|]. now exists id.
  - destruct Hdocs1 as [_ Hdocs1].
    exists (Throw e), w1, os. split; [reflexivity|].
    split; [rewrite Hi1, Hi0; now rewrite insert_id|].
    split; [etransitivity; [exact Hm0|now apply same_adapter_flags]|].
    split; [now rewrite Hdocs1|]. auto.
Qed.

Lemma sync_items_safe others env c store : quiet others -> forall items w os,
  db_handle w = true ->
  idb w !! store = Some os ->
  Forall (fun item => exists k o, key_of store item = Some k /\ rows os !! k = Some o /\
                                  item = IDB.stored store k o) items ->
  NoDup (key_of store <$> items) ->
  exists r w' os',
    for_each items (Interleaved.sync_item others env c store) w = (r, w') /\
    idb w' = <[store := os']> (idb w) /\
    same_mode w w' /\
    cloud_docs w `prefix_of` cloud_docs w' /\
    rows_synced store os os' /\
    (forall k, Some k ∉ key_of store <$> items -> rows os' !! k = rows os !! k).
Proof.
  intros Hq. induction items as [|item items IH]; intros w os Hh Hs Hrows Hnd.
  - exists (Ok tt), w, os. cbn. split; [reflexivity|]. split; [now rewrite insert_id|].
    split; [reflexivity|]. split; [reflexivity|]. split; [apply rows_synced_refl|auto].
  - apply Forall_cons in Hrows as [(k & o & Hk & Ho & Hitem) Hrows].
    rewrite fmap_cons in Hnd. apply NoDup_cons in Hnd as [Hnotin Hnd].
    destruct (sync_item_interleaved others env c store item w os k Hq Hh Hs Hk)
      as (r1 & w1 & os1 & Hrun & Hidb1 & Hm1 & Hdocs1 & Hres & Hrows1).
    assert (Hsync1 : rows_synced store os os1).
    { destruct Hrows1 as [->|(Hl & id & Hrows1)]; [apply rows_synced_refl|].
      intros k'. rewrite Hrows1. destruct (decide (k' = k)) as [->|Hne].
      - rewrite Ho, lookup_insert_eq, stored_stored, <- Hitem.
        now apply synced_from_rewritten.
      - rewrite lookup_insert_ne by congruence.
        destruct (rows os !! k'); [apply synced_from_refl|exact I]. }
    assert (Hframe1 : forall k', k' <> k -> rows os1 !! k' = rows os !! k').
    { intros k' Hne. destruct Hrows1 as [->|(_ & id & ->)]; [reflexivity|].
      now apply lookup_insert_ne. }
    destruct r1 as [[]|e].
    + assert (Hh1 : db_handle w1 = true) by (destruct Hm1 as (-> & _); exact Hh).
      assert (Hs1 : idb w1 !! store = Some os1)
        by (rewrite Hidb1; apply lookup_insert_eq).
      assert (Hrows' : Forall (fun item => exists k o,
                   key_of store item = Some k /\ rows os1 !! k = Some o /\
                   item = IDB.stored store k o) items).
      { apply Forall_forall. intros it Hit.
        rewrite Forall_forall in Hrows.
        destruct (Hrows it Hit) as (k' & o' & Hk' & Ho' & ->).
        exists k', o'. split; [exact Hk'|]. split; [|reflexivity].
        rewrite Hframe1; [exact Ho'|].
        intros ->. apply Hnotin. rewrite Hk, <- Hk'.
        apply list_elem_of_fmap. eauto. }
      destruct (IH w1 os1 Hh1 Hs1 Hrows' Hnd)
        as (r & w' & os' & Hrun' & Hidb' & Hm' & Hdocs' & Hsync' & Hframe').
      exists r, w', os'.
      split; [cbn; now rewrite (bind_ok _ _ w tt w1 Hrun)|].
      split; [rewrite Hidb', Hidb1; apply insert_insert_eq|].
      split; [etransitivity; eauto|].
      split; [etransitivity; eauto|].
      split; [now apply (rows_synced_trans store os os1 os')|].
      intros k' Hk'. rewrite fmap_cons, Hk in Hk'.
      apply not_elem_of_cons in Hk' as [Hne Hk'].
      rewrite (Hframe' k' Hk'). apply Hframe1. congruence.
    + exists (Throw e), w1, os1.
      split; [cbn; now rewrite (bind_throw _ _ w e w1 Hrun)|].
      split; [exact Hidb1|]. split; [exact Hm1|]. split; [exact Hdocs1|].
      split; [exact Hsync1|].
      intros k' Hk'. rewrite fmap_cons, Hk in Hk'.
      apply not_elem_of_cons in Hk' as [Hne _]. apply Hframe1. congruence.
Qed.

Lemma sync_store_keeps others env c store w r w' :
  quiet others ->
  Interleaved.sync_store others env c store w = (r, w') -> keeps_local w w'.
Proof.
  intros Hq Hrun Hh. revert Hrun. unfold Interleaved.sync_store, try_catch.
  unfold Interleaved.sync_store_body. unfold bind at 1. rewrite await_run.
  destruct (Hq (AwaitGetAll store) w) as (Hm0 & Hd0 & Hi0).
  set (w0 := others (AwaitGetAll store) w) in *.
  assert (Hh0 : db_handle w0 = true) by (destruct Hm0 as (-> & _); exact Hh).
  rewrite <- Hi0.
  destruct (idb w0 !! store) as [os|] eqn:Hs.
  - rewrite (getAll_open c store w0 os Hh0 Hs).
    assert (Hrows : Forall (fun item => exists k o,
                 key_of store item = Some k /\ rows os !! k = Some o /\
                 item = IDB.stored store k o) (IDB.records store os)).
    { apply Forall_forall. intros item Hin. apply elem_of_records in Hin.
      destruct Hin as (k & o & Ho & ->). exists k, o. split; [apply key_of_stored|auto]. }
    destruct (sync_items_safe others env c store Hq (IDB.records store os) w0 os Hh0 Hs
                Hrows (records_NoDup store os))
      as (r0 & w1 & os' & Hloop & Hidb & Hm & Hdocs & Hsync & _).
    rewrite Hloop.
    assert (Hst : stores_synced (idb w0) (idb w1))
      by (rewrite Hidb; now apply (stores_synced_insert _ store os)).
    assert (Hm01 : same_mode w w1) by (etransitivity; eauto).
    assert (Hd01 : cloud_docs w `prefix_of` cloud_docs w1) by (etransitivity; eauto).
    destruct r0 as [[]|e].
    + intros [= _ <-]. auto.
    + unfold console_error, modify. intros [= _ <-]. cbn. auto.
  - rewrite (getAll_missing c store w0 Hh0 Hs). unfold console_error, modify.
    intros [= _ <-]. cbn. split; [exact Hm0|]. split; [exact Hd0|].
    apply stores_synced_refl.
Qed.

(** Without other tasks the interleaved [syncToCloud] is the one of
    Part IV. *)
Lemma sync_item_alone env c store item w :
  Interleaved.sync_item Interleaved.alone env c store item w
  = DbAdapter.sync_item env c store item w.
Proof. reflexivity. Qed.

Lemma for_each_ext {A} (f g : A -> M unit) (l : list A) :
  (forall x w, f x w = g x w) -> forall w, for_each l f w = for_each l g w.
Proof.
  intros Hfg. induction l as [|x l IH]; intros w; [reflexivity|].
  cbn. unfold bind. rewrite Hfg. destruct (g x w) as [[[]|e] w1]; [apply IH|reflexivity].
Qed.

Lemma syncToCloud_alone env c w :
  Interleaved.syncToCloud Interleaved.alone env c w = DbAdapter.syncToCloud env c w.
Proof.
  unfold Interleaved.syncToCloud, DbAdapter.syncToCloud, bind, get_world.
  destruct (negb (useFirebase w) || negb (firebaseModule w)); [reflexivity|].
  rewrite (for_each_ext (Interleaved.sync_store Interleaved.alone env c)
             (DbAdapter.sync_store env c)); [reflexivity|].
  intros store w0. unfold Interleaved.sync_store, DbAdapter.sync_store, try_catch.
  unfold Interleaved.sync_store_body, DbAdapter.sync_store_body.
  unfold Interleaved.await, Interleaved.alone, bind, modify.
  destruct (Database.getAll c store w0) as [[items|e] w1]; [|reflexivity].
  now rewrite (for_each_ext (Interleaved.sync_item Interleaved.alone env c store)
                 (DbAdapter.sync_item env c store)) by apply sync_item_alone.
Qed.

Lemma quiet_alone : quiet Interleaved.alone.
Proof. intros p w. split; [reflexivity|]. split; reflexivity. Qed.

Lemma quiet_others_log : quiet others_log.
Proof.
  intros p w. unfold others_log, try_catch, bind, ret.
  destruct (FirebaseDB.add env_flaky "logs" _ w) as [[id|e] w1] eqn:Hadd;
    apply FirebaseDB_add_frame in Hadd as (Ha & (Hi & _) & _ & _ & _ & Hdocs); cbn.
  - split; [now apply same_adapter_flags|]. split; [|exact Hi].
    rewrite Hdocs. now apply prefix_app_r.
  - split; [now apply same_adapter_flags|]. split; [|exact Hi]. now rewrite Hdocs.
Qed.

(** X23. Whatever Firestore answers, and whatever other tasks run while
    it waits, as long as they do not write to the Local Store,
    [syncToCloud] on an open Local Store loses no local data.  Every
    record that was in a store is still there under the same key:
    unchanged if it had a [cloudId], and otherwise with at most [cloudId]
    and [updatedAt] changed; no record appears that was not there.
    Documents are only ever added to Firestore, and the adapter's mode is
    as before.  (A record that another task saves between the read of the
    store and the write of the [cloudId] is overwritten with what was
    read: see [concurrent_edit_is_overwritten].) *)
Theorem syncToCloud_keeps_local_data others env c w r w' :
  quiet others ->
  db_handle w = true ->
  Interleaved.syncToCloud others env c w = (r, w') ->
  same_mode w w' /\
  cloud_docs w `prefix_of` cloud_docs w' /\
  forall s,
    (forall item, item ∈ local_records w s ->
       exists item', item' ∈ local_records w' s /\
                     key_of s item' = key_of s item /\ synced_from item item') /\
    (forall item', item' ∈ local_records w' s ->
       exists item, item ∈ local_records w s /\ key_of s item' = key_of s item).
Proof.
  intros Hq Hh Hrun.
  assert (Hkeep : keeps_local w w').
  { revert Hrun. unfold Interleaved.syncToCloud. unfold bind at 1. unfold get_world at 1.
    destruct (negb (useFirebase w) || negb (firebaseModule w)).
    - unfold console_warn, modify, bind, ret. intros [= _ <-].
      apply keeps_local_same; [repeat split|reflexivity|reflexivity].
    - unfold bind.
      destruct (for_each (STORES c) (Interleaved.sync_store others env c) w)
        as [[[]|e] w1] eqn:Hl;
        intros [= _ <-];
        (eapply (for_each_rel keeps_local); [|exact Hl]; intros x w0 r0 w0';
         now apply sync_store_keeps). }
  destruct (Hkeep Hh) as (Hm & Hd & Hst).
  split; [exact Hm|]. split; [exact Hd|]. intros s. specialize (Hst s).
  unfold local_records.
  destruct (idb w !! s) as [os|], (idb w' !! s) as [os'|]; try contradiction.
  - split.
    + intros item Hin. apply elem_of_records in Hin as (k & o & Ho & ->).
      specialize (Hst k). rewrite Ho in Hst.
      destruct (rows os' !! k) as [o'|] eqn:Ho'; [|contradiction].
      exists (IDB.stored s k o'). split; [apply elem_of_records; eauto|].
      split; [now rewrite !key_of_stored|exact Hst].
    + intros item' Hin. apply elem_of_records in Hin as (k & o' & Ho' & ->).
      specialize (Hst k). rewrite Ho' in Hst.
      destruct (rows os !! k) as [o|] eqn:Ho; [|contradiction].
      exists (IDB.stored s k o). split; [apply elem_of_records; eauto|].
      now rewrite !key_of_stored.
  - split; intros ? Hin; inversion Hin.
Qed.

Lemma syncToCloud_keeps_local_data_witness :
  let w := cloud_world env_flaky in
  let w' := (Interleaved.syncToCloud others_log env_flaky DbV3 w).2 in
  same_mode w w' /\
  cloud_docs w `prefix_of` cloud_docs w' /\
  forall s,
    (forall item, item ∈ local_records w s ->
       exists item', item' ∈ local_records w' s /\
                     key_of s item' = key_of s item /\ synced_from item item') /\
    (forall item', item' ∈ local_records w' s ->
       exists item, item ∈ local_records w s /\ key_of s item' = key_of s item).
Proof.
  apply (syncToCloud_keeps_local_data others_log env_flaky DbV3 (cloud_world env_flaky)
           (Interleaved.syncToCloud others_log env_flaky DbV3 (cloud_world env_flaky)).1).
  - exact quiet_others_log.
  - vm_compute; reflexivity.
  - apply surjective_pairing.
Defined.

(** With the log entries of the other task in between, Firestore is
    asked at other moments than in [syncToCloud_flaky], and here all
    three records are uploaded. *)
Example syncToCloud_among_log_entries :
  let w := cloud_world env_flaky in
  let w' := (Interleaved.syncToCloud others_log env_flaky DbV3 w).2 in
  (fun d => d.1.1) <$> cloud_docs w'
  = ["logs"; "users"; "logs"; "workouts"; "logs"; "exercises"; "logs"; "logs"; "logs"] /\
  pending (STORES DbV3) w' = [].
Proof. by_evaluation. Qed.

(** A lost update.  [syncToCloud] has read the workout and waits for
    Firestore; the user renames the workout and the Local Store holds
    the new name; then [syncToCloud] writes back what it had read, with
    the [cloudId]: the record has its old name again, and Firestore never
    saw the new one. *)
Example concurrent_edit_is_overwritten :
  let w := cloud_world env_up in
  let during := others_rename (AwaitAdd "workouts" leg_day_stored) w in
  let w' := (Interleaved.syncToCloud others_rename env_up DbV3 w).2 in
  local_records w "workouts" = [leg_day_stored] /\
  (fun item => item !! "name") <$> local_records during "workouts"
  = [Some (VStr "Leg day B")] /\
  (fun item => item !! "name") <$> local_records w' "workouts"
  = [Some (VStr "Leg day")] /\
  (fun d => d.2 !! "name") <$> filter (fun d => d.1.1 = "workouts") (cloud_docs w')
  = [Some (VStr "Leg day")].
Proof. by_evaluation. Qed.

(** With [env_flaky] the upload of the workout is refused and the other
    two records are uploaded. *)
Example syncToCloud_flaky :
  let w := cloud_world env_flaky in
  let w' := (DbAdapter.syncToCloud env_flaky DbV3 w).2 in
  length (cloud_docs w') = 2%nat /\
  (fun p => p.1) <$> pending (STORES DbV3) w' = ["workouts"] /\
  length (local_records w' "workouts") = 1%nat.
Proof. by_evaluation. Qed.

(** ** Local mode makes no remote call *)

#[global] Instance stays_local_preorder : PreOrder stays_local.
Proof.
  split.
  - intros w Hu. split; [exact Hu|repeat split].
  - intros w1 w2 w3 H12 H23 Hu. destruct (H12 Hu) as (Hu2 & Hd & Hup & Ht).
    destruct (H23 Hu2) as (Hu3 & Hd' & Hup' & Ht').
    split; [exact Hu3|]. repeat split; congruence.
Qed.

Lemma Database_get_cloud c store id w r w' :
  Database.get c store id w = (r, w') ->
  useFirebase w' = useFirebase w /\ same_cloud w w'.
Proof.
  unfold Database.get, Database.not_ready, IDB.store_get, IDB.transaction. mrun.
  destruct (db_handle w); cbn.
  - destruct (idb w !! store) as [os|]; cbn; [|intros [= _ <-]; repeat split].
    destruct id; cbn; try (intros [= _ <-]; repeat split);
      destruct (rows os !! _); intros [= _ <-]; repeat split.
  - destruct c; cbn; intros [= _ <-]; repeat split.
Qed.

Lemma Database_getAll_cloud c store w r w' :
  Database.getAll c store w = (r, w') ->
  useFirebase w' = useFirebase w /\ same_cloud w w'.
Proof.
  unfold Database.getAll, Database.not_ready, IDB.store_getAll, IDB.transaction. mrun.
  destruct (db_handle w); cbn.
  - destruct (idb w !! store) as [os|]; cbn; intros [= _ <-]; repeat split.
  - destruct c; cbn; intros [= _ <-]; repeat split.
Qed.

Lemma Database_getByIndex_cloud c store f v w r w' :
  Database.getByIndex c store f v w = (r, w') ->
  useFirebase w' = useFirebase w /\ same_cloud w w'.
Proof.
  unfold Database.getByIndex, Database.not_ready, IDB.index_getAll, IDB.transaction.
  mrun. destruct (db_handle w); cbn.
  - destruct (idb w !! store) as [os|]; cbn; [|intros [= _ <-]; repeat split].
    destruct (bool_decide (f ∈ indexNames store)); cbn; [|intros [= _ <-]; repeat split].
    destruct v; cbn; intros [= _ <-]; repeat split.
  - destruct c; cbn; intros [= _ <-]; repeat split.
Qed.

Lemma Database_delete_cloud c store id w r w' :
  Database.delete c store id w = (r, w') ->
  useFirebase w' = useFirebase w /\ same_cloud w w'.
Proof.
  unfold Database.delete, Database.not_ready, IDB.store_delete, IDB.transaction,
         IDB.commit.
  mrun. destruct (db_handle w); cbn.
  - destruct (idb w !! store) as [os|]; cbn;
      [destruct id; cbn|]; intros [= _ <-]; repeat split.
  - destruct c; cbn; intros [= _ <-]; cbn; repeat split.
Qed.

Lemma Database_add_cloud env c store data w r w' :
  Database.add env c store data w = (r, w') ->
  useFirebase w' = useFirebase w /\ same_cloud w w'.
Proof. intros H. apply Database_add_frame in H as ((Hu & _) & Hc & _). auto. Qed.

Lemma Database_update_cloud env c store data w r w' :
  Database.update env c store data w = (r, w') ->
  useFirebase w' = useFirebase w /\ same_cloud w w'.
Proof. intros H. apply Database_update_frame in H as ((Hu & _) & Hc & _). auto. Qed.

Lemma getDB_local w : useFirebase w = false -> DbAdapter.getDB w = DbAdapter.LocalDB.
Proof. intros Hu. unfold DbAdapter.getDB. now rewrite Hu. Qed.

Lemma run_call_local env cenv c call w r w' :
  run_call env cenv c call w = (r, w') -> stays_local w w'.
Proof.
  intros Hrun Hu. pose proof (getDB_local w Hu) as Hg.
  assert (Hdrop : forall A (m : M A),
             (forall r0 w0, m w = (r0, w0) ->
                            useFirebase w0 = useFirebase w /\ same_cloud w w0) ->
             (m ;; ret tt) w = (r, w') -> useFirebase w' = false /\ same_cloud w w').
  { intros A m Hm. unfold bind, ret. destruct (m w) as [[a|e] w0] eqn:Hmw;
      intros [= _ <-]; destruct (Hm _ _ eq_refl) as [Hu' Hc]; split; congruence. }
  destruct call as [store id|store|store f v|store data|store data|store id|k|k v|];
    cbn [run_call] in Hrun; (eapply Hdrop; [|exact Hrun]); intros r0 w0.
  - unfold DbAdapterRest.get, bind, get_world. rewrite Hg. apply Database_get_cloud.
  - unfold DbAdapterRest.getAll, bind, get_world. rewrite Hg. apply Database_getAll_cloud.
  - unfold DbAdapterRest.getByIndex, bind, get_world. rewrite Hg.
    apply Database_getByIndex_cloud.
  - rewrite adapter_add_local by exact Hu. apply Database_add_cloud.
  - unfold DbAdapter.update, bind, get_world, ret. rewrite Hg.
    destruct (Database.update env c store data w) as [[v|e] w1] eqn:Hup;
      pose proof (Database_update_cloud _ _ _ _ _ _ _ Hup) as [Hu1 Hc1].
    + rewrite Hu1, Hu. intros [= _ <-]. split; [congruence|exact Hc1].
    + intros [= _ <-]. auto.
  - unfold DbAdapterRest.delete, bind, get_world, ret. rewrite Hg.
    destruct (Database.delete c store id w) as [[v|e] w1] eqn:Hd;
      pose proof (Database_delete_cloud _ _ _ _ _ _ Hd) as [Hu1 Hc1].
    + rewrite Hu1, Hu. intros [= _ <-]. split; [congruence|exact Hc1].
    + intros [= _ <-]. auto.
  - unfold DbAdapterRest.getSetting, bind, get_world. rewrite Hg.
    unfold DatabaseSettings.getSetting, bind, ret.
    destruct (Database.get c "settings" k w) as [[v|e] w1] eqn:Hget;
      pose proof (Database_get_cloud _ _ _ _ _ _ Hget); intros [= _ <-]; auto.
  - unfold DbAdapterRest.setSetting, bind, get_world. rewrite Hg.
    apply Database_update_cloud.
  - unfold DbAdapter.syncToCloud, bind, get_world. rewrite Hu. cbn.
    unfold console_warn, modify, ret. intros [= _ <-]. repeat split; exact Hu.
Qed.

(** X25. In local mode the adapter makes no remote call.  Whatever
    sequence of [get], [getAll], [getByIndex], [add], [update], [delete],
    [getSetting], [setSetting] and [syncToCloud] calls is made while
    [useFirebase] is off, and whether the calls resolve or reject, no
    external call is made, Firestore receives nothing, and the adapter is
    still in local mode afterwards; [syncToCloud] resolves with [false]. *)
Theorem local_mode_makes_no_remote_call env cenv c calls w r w' :
  useFirebase w = false ->
  run_calls env cenv c calls w = (r, w') ->
  useFirebase w' = false /\
  ticks w' = ticks w /\ cloud_docs w' = cloud_docs w /\
  cloud_updates w' = cloud_updates w /\
  (DbAdapter.syncToCloud env c w').1 = Ok false.
Proof.
  intros Hu Hrun.
  assert (Hst : stays_local w w').
  { eapply (for_each_rel stays_local); [|exact Hrun].
    intros call w0 r0 w1. unfold try_catch.
    destruct (run_call env cenv c call w0) as [[[]|e] w2] eqn:Hcall;
      unfold ret; intros [= _ <-]; exact (run_call_local _ _ _ _ _ _ _ Hcall). }
  destruct (Hst Hu) as (Hu' & Hd & Hup & Ht).
  repeat match goal with |- _ /\ _ => split end; auto.
  unfold DbAdapter.syncToCloud, bind, get_world. now rewrite Hu'.
Qed.

Lemma local_mode_makes_no_remote_call_witness :
  let calls := [CallAdd "users" bia; CallGetAll "users"; CallSyncToCloud;
                CallSetSetting (VStr "theme") (VStr "dark");
                CallGetByIndex "users" "name" (VStr "Bia");
                CallDelete "users" (VNum 2)] in
  let w' := (run_calls env_up cenv_up DbV3 calls local_world).2 in
  useFirebase w' = false /\
  ticks w' = ticks local_world /\ cloud_docs w' = cloud_docs local_world /\
  cloud_updates w' = cloud_updates local_world /\
  (DbAdapter.syncToCloud env_up DbV3 w').1 = Ok false.
Proof.
  apply (local_mode_makes_no_remote_call env_up cenv_up DbV3
           [CallAdd "users" bia; CallGetAll "users"; CallSyncToCloud;
            CallSetSetting (VStr "theme") (VStr "dark");
            CallGetByIndex "users" "name" (VStr "Bia");
            CallDelete "users" (VNum 2)]
           local_world (Ok tt)).
  - vm_compute; reflexivity.
  - vm_compute; reflexivity.
Defined.

End AdapterFacts.

(* ===================================================================== *)
(** * Part XI.  The workout session: further properties                   *)
(* ===================================================================== *)

Module SessionFacts.
Import WorkoutsManager WorkoutsSpec WorkoutsFacts SessionSpec.

(** ** Retrying [finishSession] *)

Lemma stamp_stamp uid1 now1 uid2 now2 s :
  stamp uid2 now2 (stamp uid1 now1 s) = stamp uid2 now2 s.
Proof. reflexivity. Qed.

(** X14. After a [finishSession] whose History write threw, a second
    [finishSession] behaves exactly as if the first had not been called:
    it hands the same record to the History write, returns the same
    session and leaves the same state as a first attempt at that moment
    would.  No logged set is lost or counted twice, and the end time and
    duration are those of the retry. *)
Theorem finishSession_retry db_add uid now st s e db_add' uid' now' :
  workoutSession st = Some s ->
  db_add (stamp uid now s) = Throw e ->
  let st1 := (finishSession db_add uid now st).1.2 in
  workoutSession st1 = Some (stamp uid now s) /\
  stamp uid' now' (stamp uid now s) = stamp uid' now' s /\
  finishSession db_add' uid' now' st1 = finishSession db_add' uid' now' st.
Proof.
  intros Hs Hfail. cbn zeta.
  assert (Hst1 : (finishSession db_add uid now st).1.2
                 = set_session (Some (stamp uid now s)) st).
  { unfold finishSession. now rewrite Hs, Hfail. }
  rewrite Hst1. split; [reflexivity|]. split; [reflexivity|].
  unfold finishSession. cbn. rewrite Hs. rewrite stamp_stamp.
  destruct (db_add' (stamp uid' now' s)); reflexivity.
Qed.

Lemma finishSession_retry_witness :
  let st1 := (finishSession db_add_fails (VNum 1) 4000 st_logged).1.2 in
  workoutSession st1
    = Some (stamp (VNum 1) 4000 (default (startSession push_day 1000 new).1
                                   (workoutSession st_logged))) /\
  stamp (VNum 1) 9000 (stamp (VNum 1) 4000
                         (default (startSession push_day 1000 new).1
                            (workoutSession st_logged)))
  = stamp (VNum 1) 9000 (default (startSession push_day 1000 new).1
                           (workoutSession st_logged)) /\
  finishSession db_add_ok (VNum 1) 9000 st1
  = finishSession db_add_ok (VNum 1) 9000 st_logged.
Proof.
  apply (finishSession_retry db_add_fails (VNum 1) 4000 st_logged
           (default (startSession push_day 1000 new).1 (workoutSession st_logged))
           ConstraintError db_add_ok (VNum 1) 9000);
    reflexivity.
Defined.

(** ** Progress *)

Lemma round_div_bounds n d :
  0 < d -> 2 * d * round_div n d <= 2 * n + d < 2 * d * round_div n d + 2 * d.
Proof.
  intros Hd. unfold round_div.
  pose proof (Z.div_mod (2 * n + d) (2 * d) ltac:(lia)) as Hdm.
  pose proof (Z.mod_pos_bound (2 * n + d) (2 * d) ltac:(lia)) as Hb. lia.
Qed.

Lemma round_div_mono n n' d : 0 < d -> n <= n' -> round_div n d <= round_div n' d.
Proof.
  intros Hd Hle. unfold round_div. apply Z.div_le_mono; lia.
Qed.

Lemma finished_count_le exs : (finished_count exs <= length exs)%nat.
Proof. apply length_filter. Qed.

Lemma finished_count_all exs :
  finished_count exs = length exs <-> forallb finished exs = true.
Proof.
  unfold finished_count. induction exs as [|ex exs IH]; [cbn; tauto|].
  rewrite filter_cons. cbn [forallb]. rewrite andb_true_iff.
  pose proof (length_filter (fun ex => finished ex = true) exs) as Hle.
  destruct (decide (finished ex = true)) as [Hf|Hf]; cbn [length].
  - rewrite <- IH. split; [intros [= ?]; auto|intros [_ ->]; reflexivity].
  - split; [lia|intros [? _]; contradiction].
Qed.

Lemma getSessionProgress_eq st s :
  workoutSession st = Some s ->
  getSessionProgress st = percent (finished_count (exercises s)) (length (exercises s)).
Proof. intros Hs. unfold getSessionProgress. now rewrite Hs. Qed.

(** The percentages of all sessions of fewer than 200 exercises,
    computed one by one. *)
Lemma percent_table :
  forallb (fun n => forallb (percent_ok n) (seq 0 (S n)) &&
                    forallb (percent_step n) (seq 0 n)) (seq 1 199) = true.
Proof. vm_compute. reflexivity. Qed.

Lemma percent_ok_small n k :
  (0 < n < 200)%nat -> (k <= n)%nat -> percent_ok n k = true.
Proof.
  intros Hn Hk. pose proof percent_table as Ht.
  rewrite List.forallb_forall in Ht. specialize (Ht n).
  rewrite List.in_seq in Ht. specialize (Ht ltac:(lia)).
  apply andb_true_iff in Ht as [Ht _].
  rewrite List.forallb_forall in Ht. apply Ht. rewrite List.in_seq. lia.
Qed.



(** X15. For a session with at least one and fewer than 200 exercises,
    [getSessionProgress] is a whole number between 0 and 100, and it is
    100 exactly when [isWorkoutComplete] holds.  (With 200 exercises or
    more, rounding shows 100 before the last one is done.) *)
Theorem progress_100_iff_complete st s :
  workoutSession st = Some s -> exercises s <> [] ->
  (length (exercises s) < 200)%nat ->
  exists p, getSessionProgress st = Some p /\ 0 <= p <= 100 /\
            (p = 100 <-> isWorkoutComplete st = true).
Proof.
  intros Hs Hne Hlen. rewrite (getSessionProgress_eq st s Hs).
  pose proof (finished_count_le (exercises s)) as Hk.
  pose proof (finished_count_all (exercises s)) as Hall.
  assert (Hn : (0 < length (exercises s) < 200)%nat).
  { split; [|exact Hlen]. destruct (exercises s); [congruence|cbn; lia]. }
  pose proof (percent_ok_small _ _ Hn Hk) as Hok. unfold percent_ok in Hok.
  destruct (percent _ _) as [p|]; [|discriminate].
  apply andb_true_iff in Hok as [Hok Heq]. apply andb_true_iff in Hok as [H0 H100].
  apply Z.leb_le in H0, H100. apply Bool.eqb_prop in Heq.
  exists p. split; [reflexivity|]. split; [lia|].
  unfold isWorkoutComplete. rewrite Hs. rewrite <- Hall.
  rewrite <- Z.eqb_eq, Heq. apply Nat.eqb_eq.
Qed.

(** With 199 of 200 exercises done the percentage is already 100.  The
    quotient and the product are rounded to doubles before [Math.round]
    sees them: 23 of 40 gives 57.49999999999999 and shows as 57, where
    the exact 57.5 would show as 58.  Without exercises the result is
    [NaN]. *)
Example progress_rounding :
  percent 199 200 = Some 100 /\ percent 23 40 = Some 57 /\
  round_div (23 * 100) 40 = 58 /\ percent 0 0 = None.
Proof. repeat split; vm_compute; reflexivity. Qed.

Lemma progress_100_iff_complete_witness :
  exists p, getSessionProgress st_logged = Some p /\ 0 <= p <= 100 /\
            (p = 100 <-> isWorkoutComplete st_logged = true).
Proof.
  apply (progress_100_iff_complete st_logged
           (default (startSession push_day 1000 new).1 (workoutSession st_logged))).
  - reflexivity.
  - discriminate.
  - cbn. lia.
Defined.

(** ** What is done stays done *)




Lemma nextExercise_session st : workoutSession (nextExercise st).2 = workoutSession st.
Proof.
  unfold nextExercise. destruct (workoutSession st) as [s|] eqn:Hs; [|exact Hs].
  destruct (_ <? _); exact Hs.
Qed.

Lemma previousExercise_session st :
  workoutSession (previousExercise st).2 = workoutSession st.
Proof.
  unfold previousExercise. destruct (workoutSession st) as [s|] eqn:Hs; [|exact Hs].
  destruct (_ <? _); exact Hs.
Qed.




(** ** Counting the logged sets *)

Lemma counts_inv_nextExercise st : counts_inv st -> counts_inv (nextExercise st).2.
Proof. unfold counts_inv. now rewrite nextExercise_session. Qed.

Lemma reachable_counts_inv st : reachable st -> counts_inv st.
Proof.
  induction 1 as [ | st w now _ _ | st st' n r wt now _ IH Hlog | st _ IH
                 | st _ IH | st _ IH | st db_add uid now _ IH | st _ _ ].
  - exact I.
  - unfold counts_inv; cbn. apply Forall_fmap, Forall_true. intros ex. reflexivity.
  - unfold counts_inv, logSet in *. destruct (workoutSession st) as [s|] eqn:Hs.
    + destruct (exercises s !! currentExerciseIndex st) as [ex|] eqn:Hex; [|discriminate].
      injection Hlog as <-. cbn. apply Forall_insert; [exact IH|]. reflexivity.
    + injection Hlog as <-. now rewrite Hs.
  - apply counts_inv_nextExercise, IH.
  - unfold counts_inv. now rewrite previousExercise_session.
  - unfold skipExercise, getCurrentExercise.
    destruct (workoutSession st) as [s|] eqn:Hs; [|apply counts_inv_nextExercise, IH].
    destruct (exercises s !! currentExerciseIndex st) as [ex|] eqn:Hex;
      [|apply counts_inv_nextExercise, IH].
    apply counts_inv_nextExercise. unfold counts_inv in *. rewrite Hs in IH. cbn.
    apply Forall_insert; [exact IH|].
    exact (Forall_lookup_1 _ _ _ _ IH Hex).
  - unfold counts_inv, finishSession in *. destruct (workoutSession st) as [s|] eqn:Hs.
    + destruct (db_add (stamp uid now s)); cbn; [exact I|exact IH].
    + cbn. now rewrite Hs.
  - exact I.
Qed.

Lemma sets_of_session_logged exs :
  Forall (fun ex => setsCompleted ex = Z.of_nat (length (logsPerSet ex))) exs ->
  sets_of_session exs = Z.of_nat (logged_sets exs).
Proof.
  unfold sets_of_session, logged_sets. induction 1 as [|ex exs Hex _ IH]; [reflexivity|].
  cbn [fmap list_fmap sumZ]. rewrite bind_cons, length_app, Nat2Z.inj_add.
  change (list_fmap _ _ setsCompleted exs) with (setsCompleted <$> exs).
  now rewrite IH, Hex.
Qed.

(** X17. In every state the manager can reach, when [finishSession]
    saves the session, the [totalSets] it records is the number of sets
    logged during the session, and [durationMinutes] is the elapsed time
    rounded to the nearest minute: it differs from the elapsed time by at
    most half a minute, halves being rounded up. *)
Theorem finishSession_counts_logged_sets st s db_add uid now historyId :
  reachable st ->
  workoutSession st = Some s ->
  db_add (stamp uid now s) = Ok historyId ->
  exists done d,
    (finishSession db_add uid now st).1.1 = Value done /\
    totalSets done = Some (Z.of_nat (logged_sets (exercises s))) /\
    durationMinutes done = Some d /\
    -30000 < 60000 * d - (now - startTime s) <= 30000.
Proof.
  intros Hr Hs Hadd. apply reachable_counts_inv in Hr. unfold counts_inv in Hr.
  rewrite Hs in Hr.
  exists (with_id historyId (stamp uid now s)), (round_div (now - startTime s) 60000).
  split; [unfold finishSession; now rewrite Hs, Hadd|].
  split; [cbn [with_id totalSets]; rewrite stamp_totalSets;
          now rewrite (sets_of_session_logged _ Hr)|].
  split; [reflexivity|].
  pose proof (round_div_bounds (now - startTime s) 60000 ltac:(lia)). lia.
Qed.

Lemma finishSession_counts_logged_sets_witness :
  exists done d,
    (finishSession db_add_ok (VNum 1) 215000 st_logged).1.1 = Value done /\
    totalSets done = Some 2 /\
    durationMinutes done = Some d /\
    -30000 < 60000 * d - (215000 - 1000) <= 30000.
Proof.
  apply (finishSession_counts_logged_sets st_logged
           (default (startSession push_day 1000 new).1 (workoutSession st_logged))
           db_add_ok (VNum 1) 215000 (VNum 42)).
  - exact reachable_st_logged.
  - reflexivity.
  - reflexivity.
Defined.

(** ** Moving between exercises *)

(** X18. In every reachable state whose session has exercises there is
    a current exercise: [getCurrentExercise] returns an exercise of the
    session, never [undefined].  [nextExercise] and [previousExercise]
    return either [null], leaving the position alone, or the exercise
    they moved to; and when [nextExercise] has moved, [previousExercise]
    moves back to the exercise and the state it came from. *)
Theorem current_exercise_defined st s :
  reachable st ->
  workoutSession st = Some s -> exercises s <> [] ->
  exists ex,
    getCurrentExercise st = Value ex /\
    exercises s !! currentExerciseIndex st = Some ex /\
    ((nextExercise st = (Null, st) /\
      S (currentExerciseIndex st) = length (exercises s)) \/
     (exists ex', nextExercise st = (Value ex', set_index (S (currentExerciseIndex st)) st) /\
                  exercises s !! S (currentExerciseIndex st) = Some ex' /\
                  previousExercise (nextExercise st).2 = (Value ex, st))) /\
    ((previousExercise st = (Null, st) /\ currentExerciseIndex st = 0%nat) \/
     (exists ex', previousExercise st
                  = (Value ex', set_index (pred (currentExerciseIndex st)) st) /\
                  exercises s !! pred (currentExerciseIndex st) = Some ex')).
Proof.
  intros Hr Hs Hne. apply reachable_inv in Hr. unfold inv in Hr. rewrite Hs in Hr.
  destruct Hr as [_ Hi]. specialize (Hi Hne).
  destruct (lookup_lt_is_Some_2 _ _ Hi) as [ex Hex].
  exists ex. split; [unfold getCurrentExercise; now rewrite Hs, Hex|].
  split; [exact Hex|]. split.
  - unfold nextExercise. rewrite Hs.
    destruct (Z.ltb_spec (Z.of_nat (currentExerciseIndex st))
                (Z.of_nat (length (exercises s)) - 1)) as [Hlt|Hge].
    + right.
      destruct (lookup_lt_is_Some_2 (exercises s) (S (currentExerciseIndex st))
                  ltac:(lia)) as [ex' Hex'].
      exists ex'. unfold getCurrentExercise. cbn. rewrite Hs, Hex'.
      split; [reflexivity|]. split; [reflexivity|].
      unfold previousExercise, getCurrentExercise. cbn. rewrite Hs, Hex.
      destruct st; reflexivity.
    + left. split; [reflexivity|lia].
  - unfold previousExercise. rewrite Hs.
    destruct (Z.ltb_spec 0 (Z.of_nat (currentExerciseIndex st))) as [Hlt|Hge].
    + right.
      destruct (lookup_lt_is_Some_2 (exercises s) (pred (currentExerciseIndex st))
                  ltac:(lia)) as [ex' Hex'].
      exists ex'. unfold getCurrentExercise. cbn. rewrite Hs, Hex'.
      split; reflexivity.
    + left. split; [reflexivity|lia].
Qed.

Lemma current_exercise_defined_witness :
  exists ex,
    getCurrentExercise st_logged = Value ex /\
    exercises (default (startSession push_day 1000 new).1 (workoutSession st_logged))
      !! currentExerciseIndex st_logged = Some ex /\
    ((nextExercise st_logged = (Null, st_logged) /\
      S (currentExerciseIndex st_logged)
      = length (exercises (default (startSession push_day 1000 new).1
                             (workoutSession st_logged)))) \/
     (exists ex', nextExercise st_logged
                  = (Value ex', set_index (S (currentExerciseIndex st_logged)) st_logged) /\
                  exercises (default (startSession push_day 1000 new).1
                               (workoutSession st_logged))
                    !! S (currentExerciseIndex st_logged) = Some ex' /\
                  previousExercise (nextExercise st_logged).2 = (Value ex, st_logged))) /\
    ((previousExercise st_logged = (Null, st_logged) /\
      currentExerciseIndex st_logged = 0%nat) \/
     (exists ex', previousExercise st_logged
                  = (Value ex', set_index (pred (currentExerciseIndex st_logged)) st_logged) /\
                  exercises (default (startSession push_day 1000 new).1
                               (workoutSession st_logged))
                    !! pred (currentExerciseIndex st_logged) = Some ex')).
Proof.
  apply (current_exercise_defined st_logged
           (default (startSession push_day 1000 new).1 (workoutSession st_logged))).
  - exact reachable_st_logged.
  - reflexivity.
  - discriminate.
Defined.

End SessionFacts.

(* ===================================================================== *)
(** * Part XII.  The domain modules on the Local Store                    *)
(* ===================================================================== *)

Module DomainFacts.
Import StoreSpec StoreFacts PersistenceSpec LocalStoreFacts.

(** ** Logging and rethrowing *)

Lemma logged_rethrow_ok {A} msg (m : M A) w a w' :
  m w = (Ok a, w') -> logged_rethrow msg m w = (Ok a, w').
Proof. intros H. unfold logged_rethrow, try_catch. now rewrite H. Qed.

Lemma logged_rethrow_throw {A} msg (m : M A) w e w' :
  m w = (Throw e, w') ->
  logged_rethrow msg m w = (Throw e, set_console (console w' ++ [Error msg (Some e)]) w').
Proof. intros H. unfold logged_rethrow, try_catch. now rewrite H. Qed.

Lemma logged_rethrow_inv {A} msg (m : M A) w a w' :
  logged_rethrow msg m w = (Ok a, w') -> m w = (Ok a, w').
Proof.
  unfold logged_rethrow, try_catch. destruct (m w) as [[x|e] w1]; [auto|].
  unfold logger_error, console_error, bind, modify, throw. discriminate.
Qed.

(** ** Templates for a new user *)

Lemma added_createdAt env store id data :
  added env store id (<["createdAt" := VStr (now env)]> data) = added env store id data.
Proof. unfold added. now rewrite insert_insert_eq. Qed.

Lemma add_fresh_id env c store data w id w1 :
  db_handle w = true ->
  Database.add env c store data w = (Ok id, w1) ->
  forall item, item ∈ local_records w store -> item !! keyPath store <> Some id.
Proof.
  intros Hh Hadd item Hin Heq. rewrite add_open in Hadd by exact Hh.
  apply store_add_ok in Hadd as (os & k & Hs & _ & Hfree & -> & _).
  unfold local_records in Hin. rewrite Hs in Hin.
  apply elem_of_records in Hin as (k' & o & Hk' & ->).
  unfold IDB.stored in Heq. rewrite lookup_insert_eq in Heq.
  injection Heq as Heq. apply of_key_inj in Heq as ->. congruence.
Qed.

Lemma create_loop env c userId : forall templates w,
  db_handle w = true ->
  exists w' ids r,
    for_each templates
      (fun t => WorkoutsStore.createWorkout env c (WorkoutsStore.for_user userId t) ;; ret tt) w
    = (r, w') /\
    db_handle w' = true /\ NoDup ids /\
    (forall id item, id ∈ ids -> item ∈ local_records w "workouts" ->
                     item !! "id" <> Some id) /\
    (forall item, item ∈ local_records w' "workouts" <->
       item ∈ local_records w "workouts" \/
       exists j id t, ids !! j = Some id /\ templates !! j = Some t /\
                      item = added env "workouts" id (WorkoutsStore.for_user userId t)) /\
    match r with
    | Ok _ => length ids = length templates /\ console w' = console w
    | Throw e =>
        (length ids < length templates)%nat /\
        console w' = console w ++ [Error "Error creating workout:" (Some e)]
    end.
Proof.
  induction templates as [|t templates IH]; intros w Hh.
  - exists w, [], (Ok tt). cbn. split; [reflexivity|]. split; [exact Hh|].
    split; [constructor|]. split; [intros id item Hid; inversion Hid|].
    split; [|auto]. intros item. split; [auto|].
    intros [H|(j & id & t & Hj & _)]; [exact H|]. rewrite lookup_nil in Hj. discriminate.
  - cbn [for_each]. unfold bind at 1. unfold bind at 1. unfold WorkoutsStore.createWorkout.
    destruct (Database.add env c "workouts"
                (<["createdAt" := VStr (now env)]> (WorkoutsStore.for_user userId t)) w)
      as [[id|e] w1] eqn:Hadd.
    + rewrite (logged_rethrow_ok _ _ _ _ _ Hadd). unfold ret at 1.
      pose proof (Database_add_frame _ _ _ _ _ _ _ Hadd) as ((_ & _ & _ & Hh1) & _).
      assert (Hh1' : db_handle w1 = true) by congruence.
      pose proof (add_records env c "workouts" _ w id w1 Hh Hadd) as Hrec.
      pose proof (add_fresh_id env c "workouts" _ w id w1 Hh Hadd) as Hfresh.
      rewrite added_createdAt in Hrec.
      assert (Hcons : console w1 = console w).
      { rewrite add_open in Hadd by exact Hh.
        apply store_add_ok in Hadd as (? & ? & _ & _ & _ & _ & ->). reflexivity. }
      destruct (IH w1 Hh1') as (w' & ids & r & Hrun & Hh' & Hnd & Hfr & Hmem & Hres).
      exists w', (id :: ids), r. split; [exact Hrun|]. split; [exact Hh'|].
      split; [|split; [|split]].
      * constructor; [|exact Hnd]. intros Hin.
        apply (Hfr id (added env "workouts" id (WorkoutsStore.for_user userId t)) Hin).
        -- apply Hrec. now left.
        -- unfold added. change (keyPath "workouts") with "id". apply lookup_insert_eq.
      * intros id' item Hid Hitem. apply elem_of_cons in Hid as [->|Hid].
        -- now apply Hfresh.
        -- apply (Hfr id' item Hid). apply Hrec. now right.
      * intros item. rewrite Hmem, Hrec. split.
        -- intros [[->|H]|(j & id' & t' & Hj & Ht & ->)].
           ++ right. exists 0%nat, id, t. auto.
           ++ now left.
           ++ right. exists (S j), id', t'. auto.
        -- intros [H|(j & id' & t' & Hj & Ht & ->)]; [left; now right|].
           destruct j as [|j]; cbn in Hj, Ht.
           ++ injection Hj as <-. injection Ht as <-. left. now left.
           ++ right. exists j, id', t'. auto.
      * destruct r as [[]|e]; cbn [length]; rewrite Hcons in Hres;
          destruct Hres as [Hlen Hc]; (split; [lia|exact Hc]).
    + rewrite (logged_rethrow_throw _ _ _ _ _ Hadd).
      pose proof (Database_add_frame _ _ _ _ _ _ _ Hadd) as (_ & _ & Hloc).
      destruct (Hloc e eq_refl) as (Hidb & _ & Hcons & Hh1).
      eexists _, [], (Throw e). split; [reflexivity|]. cbn.
      split; [congruence|]. split; [constructor|].
      split; [intros id item Hid; inversion Hid|]. split.
      * intros item. unfold local_records. cbn. rewrite Hidb. split; [auto|].
        intros [H|(j & id & t' & Hj & _)]; [exact H|]. rewrite lookup_nil in Hj.
        discriminate.
      * split; [lia|]. now rewrite Hcons.
Qed.

(** X19. On an open Local Store [createTemplatesForUser] always
    resolves.  It stores the templates in order, each with the user's id
    and a fresh id of its own, until the first one that cannot be stored: the
    workouts that were there stay, the ones created are a prefix of the
    template list, and nothing else is added.  When all are stored
    nothing is logged; when one fails, the templates after it are not
    attempted and the error is logged twice, by [createWorkout] and by
    [createTemplatesForUser]. *)
Theorem createTemplatesForUser_keeps_prefix env c templates userId w :
  db_handle w = true ->
  exists w' ids,
    WorkoutsStore.createTemplatesForUser env c templates userId w = (Ok tt, w') /\
    (length ids <= length templates)%nat /\ NoDup ids /\
    (forall item, item ∈ local_records w' "workouts" <->
       item ∈ local_records w "workouts" \/
       exists j id t, ids !! j = Some id /\ templates !! j = Some t /\
                      item = added env "workouts" id (WorkoutsStore.for_user userId t)) /\
    (length ids = length templates -> console w' = console w) /\
    ((length ids < length templates)%nat ->
     exists e, console w' = console w ++ [Error "Error creating workout:" (Some e);
                                          Error "Error creating templates:" (Some e)]).
Proof.
  intros Hh.
  destruct (create_loop env c userId templates w Hh)
    as (w1 & ids & r & Hrun & _ & Hnd & _ & Hmem & Hres).
  unfold WorkoutsStore.createTemplatesForUser, try_catch. rewrite Hrun.
  destruct r as [[]|e].
  - destruct Hres as [Hlen Hc]. exists w1, ids. split; [reflexivity|].
    split; [lia|]. split; [exact Hnd|]. split; [exact Hmem|]. split; [auto|]. lia.
  - destruct Hres as [Hlen Hc]. eexists _, ids. split; [reflexivity|].
    split; [lia|]. split; [exact Hnd|]. split; [exact Hmem|]. split; [lia|].
    intros _. exists e. cbn. rewrite Hc, <- app_assoc. reflexivity.
Qed.

Lemma createTemplatesForUser_keeps_prefix_witness :
  exists w' ids,
    WorkoutsStore.createTemplatesForUser env_offline DbV3 WorkoutsStore.WORKOUT_TEMPLATES
      (VNum 1) local_world = (Ok tt, w') /\
    (length ids <= length WorkoutsStore.WORKOUT_TEMPLATES)%nat /\ NoDup ids /\
    (forall item, item ∈ local_records w' "workouts" <->
       item ∈ local_records local_world "workouts" \/
       exists j id t, ids !! j = Some id /\
                      WorkoutsStore.WORKOUT_TEMPLATES !! j = Some t /\
                      item = added env_offline "workouts" id
                               (WorkoutsStore.for_user (VNum 1) t)) /\
    (length ids = length WorkoutsStore.WORKOUT_TEMPLATES ->
     console w' = console local_world) /\
    ((length ids < length WorkoutsStore.WORKOUT_TEMPLATES)%nat ->
     exists e, console w'
               = console local_world ++ [Error "Error creating workout:" (Some e);
                                         Error "Error creating templates:" (Some e)]).
Proof.
  apply (createTemplatesForUser_keeps_prefix env_offline DbV3
           WorkoutsStore.WORKOUT_TEMPLATES (VNum 1) local_world).
  vm_compute; reflexivity.
Defined.

(** ** Assigning workouts to a student *)

Lemma get_record c store id w o w' :
  db_handle w = true ->
  Database.get c store id w = (Ok (VObj o), w') ->
  w' = w /\ o !! keyPath store = Some id /\ is_Some (to_key (Some id)).
Proof.
  intros Hh. rewrite get_open by exact Hh.
  unfold IDB.store_get, IDB.transaction, bind, ret, throw.
  destruct (idb w !! store) as [os|]; [|discriminate].
  destruct (to_key (Some id)) as [k|] eqn:Hk; [|discriminate].
  destruct (rows os !! k); intros [= <- <-]. split; [reflexivity|].
  split; [|eauto]. unfold IDB.stored. rewrite lookup_insert_eq. f_equal.
  apply to_key_Some in Hk. now injection Hk as ->.
Qed.

Lemma update_id env c store data w id w1 id0 :
  db_handle w = true ->
  data !! keyPath store = Some id0 -> is_Some (to_key (Some id0)) ->
  Database.update env c store data w = (Ok id, w1) -> id = id0.
Proof.
  intros Hh Hk [k Hkey] Hupd. rewrite update_open in Hupd by exact Hh.
  apply store_put_ok in Hupd as (os & k' & _ & Hres & -> & _).
  rewrite (resolve_key_of store os _ k) in Hres.
  - injection Hres as <-. apply to_key_Some in Hkey. now injection Hkey as ->.
  - unfold key_of. rewrite lookup_insert_ne; [now rewrite Hk|].
    intros Heq. symmetry in Heq. now apply keyPath_not_updatedAt in Heq.
Qed.

Lemma includes_app_same l v :
  primitive v -> StudentsManager.includes (l ++ [v]) v = true.
Proof.
  intros Hv. unfold StudentsManager.includes. rewrite existsb_app. cbn.
  unfold primitive in Hv. rewrite Hv. now rewrite orb_true_r.
Qed.

Lemma includes_filter l v :
  StudentsManager.includes
    (List.filter (fun id => negb (StudentsManager.strict_eq id v)) l) v = false.
Proof.
  unfold StudentsManager.includes. induction l as [|x l IH]; [reflexivity|]. cbn.
  destruct (StudentsManager.strict_eq x v) eqn:Hx; cbn; [exact IH|].
  now rewrite Hx, IH.
Qed.

Lemma filter_app_same l v :
  primitive v ->
  List.filter (fun id => negb (StudentsManager.strict_eq id v)) (l ++ [v])
  = List.filter (fun id => negb (StudentsManager.strict_eq id v)) l.
Proof.
  intros Hv. rewrite List.filter_app. cbn. unfold primitive in Hv. rewrite Hv. cbn.
  apply app_nil_r.
Qed.

Lemma assigned_insert o l :
  assigned (<["assignedWorkouts" := VArr l]> o) = Some l.
Proof. unfold assigned. now rewrite lookup_insert_eq. Qed.

Lemma assigned_updated env id o :
  assigned (updated env "students" id o) = assigned o.
Proof.
  unfold assigned. rewrite updated_fields; [reflexivity|discriminate|discriminate].
Qed.

Lemma getStudent_ok c sid w o :
  Database.get c "students" sid w = (Ok (VObj o), w) ->
  StudentsManager.getStudent c sid w = (Ok (VObj o), w).
Proof. apply logged_rethrow_ok. Qed.

Lemma assignWorkout_run env c sid wid w o l :
  Database.get c "students" sid w = (Ok (VObj o), w) ->
  assigned o = Some l ->
  StudentsManager.assignWorkout env c sid wid w
  = if StudentsManager.includes l wid then (Ok (VObj o), w)
    else logged_rethrow "Error assigning workout:"
           (StudentsManager.updateStudent env c
              (<["assignedWorkouts" := VArr (l ++ [wid])]> o) ;;
            ret (VObj (<["assignedWorkouts" := VArr (l ++ [wid])]> o))) w.
Proof.
  intros Hget Hl. apply getStudent_ok in Hget.
  unfold StudentsManager.assignWorkout, logged_rethrow, try_catch.
  unfold bind at 1. rewrite Hget. unfold bind at 3. unfold assigned in Hl.
  destruct (o !! "assignedWorkouts") as [[| |b|n|s|l'|o']|] eqn:Haw; cbn in Hl;
    try discriminate.
  - injection Hl as <-. cbn. reflexivity.
  - injection Hl as <-. cbn. reflexivity.
  - destruct b; [discriminate|]. injection Hl as <-. cbn. reflexivity.
  - destruct (n =? 0) eqn:Hn; [|discriminate]. injection Hl as <-. cbn.
    rewrite Hn. cbn. reflexivity.
  - destruct (String.eqb s "") eqn:Hs; [|discriminate]. injection Hl as <-. cbn.
    reflexivity.
  - injection Hl as ->. destruct (StudentsManager.includes l wid); reflexivity.
  - injection Hl as <-. cbn. reflexivity.
Qed.

Lemma removeWorkout_run env c sid wid w o l :
  Database.get c "students" sid w = (Ok (VObj o), w) ->
  assigned o = Some l ->
  let o' := <["assignedWorkouts" :=
                VArr (List.filter (fun id => negb (StudentsManager.strict_eq id wid)) l)]> o in
  StudentsManager.removeWorkout env c sid wid w
  = logged_rethrow "Error removing workout:"
      (StudentsManager.updateStudent env c o' ;; ret (VObj o')) w.
Proof.
  intros Hget Hl. apply getStudent_ok in Hget. cbn zeta.
  unfold StudentsManager.removeWorkout, logged_rethrow, try_catch.
  unfold bind at 1. rewrite Hget. unfold bind at 3. unfold assigned in Hl.
  destruct (o !! "assignedWorkouts") as [[| |b|n|s|l'|o']|] eqn:Haw; cbn in Hl;
    try discriminate.
  - injection Hl as <-. cbn. reflexivity.
  - injection Hl as <-. cbn. reflexivity.
  - destruct b; [discriminate|]. injection Hl as <-. cbn. reflexivity.
  - destruct (n =? 0) eqn:Hn; [|discriminate]. injection Hl as <-. cbn.
    rewrite Hn. cbn. reflexivity.
  - destruct (String.eqb s "") eqn:Hs; [|discriminate]. injection Hl as <-. cbn.
    rewrite Hs. cbn. reflexivity.
  - injection Hl as <-. reflexivity.
  - injection Hl as <-. cbn. reflexivity.
Qed.

(** What a successful write of a student leaves in the store. *)
Lemma updateStudent_stored env c sid w o o' r w1 :
  db_handle w = true ->
  Database.get c "students" sid w = (Ok (VObj o), w) ->
  o' !! "id" = o !! "id" ->
  logged_rethrow "Error assigning workout:"
    (StudentsManager.updateStudent env c o' ;; ret (VObj o')) w = (Ok r, w1) \/
  logged_rethrow "Error removing workout:"
    (StudentsManager.updateStudent env c o' ;; ret (VObj o')) w = (Ok r, w1) ->
  r = VObj o' /\ db_handle w1 = true /\
  Database.get c "students" sid w1 = (Ok (VObj (updated env "students" sid o')), w1).
Proof.
  intros Hh Hget Hid Hrun.
  assert (Hbody : (StudentsManager.updateStudent env c o' ;; ret (VObj o')) w = (Ok r, w1))
    by (destruct Hrun as [H|H]; exact (logged_rethrow_inv _ _ _ _ _ H)).
  unfold bind in Hbody.
  destruct (StudentsManager.updateStudent env c o' w) as [[id|e] w2] eqn:Hupd;
    [|discriminate].
  unfold ret in Hbody. injection Hbody as <- <-.
  apply logged_rethrow_inv in Hupd.
  destruct (get_record c "students" sid w o w Hh Hget) as (_ & Hsid & Hkey).
  change (keyPath "students") with "id" in Hsid.
  assert (Hid' : id = sid).
  { apply (update_id env c "students" o' w id w2 sid Hh); [|exact Hkey|exact Hupd].
    change (keyPath "students") with "id". congruence. }
  subst id.
  pose proof (Database_update_frame _ _ _ _ _ _ _ Hupd) as ((_ & _ & _ & Hh2) & _).
  split; [reflexivity|]. split; [congruence|].
  now destruct (update_get env c "students" o' w sid w2 Hh Hupd) as [Hg _].
Qed.

Lemma assignWorkout_stored env c sid wid w o l s1 w1 :
  db_handle w = true ->
  Database.get c "students" sid w = (Ok (VObj o), w) ->
  assigned o = Some l ->
  StudentsManager.assignWorkout env c sid wid w = (Ok (VObj s1), w1) ->
  exists o1 l1,
    db_handle w1 = true /\
    Database.get c "students" sid w1 = (Ok (VObj o1), w1) /\
    assigned o1 = Some l1 /\ assigned s1 = Some l1 /\
    (StudentsManager.includes l wid = true -> l1 = l /\ w1 = w /\ s1 = o) /\
    (StudentsManager.includes l wid = false -> l1 = l ++ [wid]).
Proof.
  intros Hh Hget Hl. rewrite (assignWorkout_run env c sid wid w o l Hget Hl).
  destruct (StudentsManager.includes l wid) eqn:Hinc.
  - intros [= <- <-]. exists o, l. repeat split; auto; discriminate.
  - intros Hrun.
    assert (Hid : <["assignedWorkouts" := VArr (l ++ [wid])]> o !! "id" = o !! "id")
      by (now rewrite lookup_insert_ne by discriminate).
    destruct (updateStudent_stored env c sid w o _ _ w1 Hh Hget Hid (or_introl Hrun))
      as (Hr & Hh1 & Hget1).
    injection Hr as ->.
    eexists _, (l ++ [wid]). split; [exact Hh1|]. split; [exact Hget1|].
    split; [now rewrite assigned_updated, assigned_insert|].
    split; [apply assigned_insert|]. split; [discriminate|reflexivity].
Qed.

(** X20. Assigning a workout twice is the same as assigning it once.
    For a student whose [assignedWorkouts] is missing or an array, and a
    workout id that is a number or a string: when [assignWorkout]
    resolves with the student, the id is in the student's list, behind
    the ids that were there, and it was appended only if it was not there
    yet; a second [assignWorkout] with the same ids resolves with the same
    list and writes nothing. *)
Theorem assignWorkout_idempotent env c sid wid w o l s1 w1 :
  db_handle w = true -> primitive wid ->
  Database.get c "students" sid w = (Ok (VObj o), w) ->
  assigned o = Some l ->
  StudentsManager.assignWorkout env c sid wid w = (Ok (VObj s1), w1) ->
  exists l1 s2,
    assigned s1 = Some l1 /\
    StudentsManager.includes l1 wid = true /\
    (l1 = if StudentsManager.includes l wid then l else l ++ [wid]) /\
    (StudentsManager.includes l wid = true -> w1 = w) /\
    StudentsManager.assignWorkout env c sid wid w1 = (Ok (VObj s2), w1) /\
    assigned s2 = Some l1.
Proof.
  intros Hh Hprim Hget Hl Hrun.
  destruct (assignWorkout_stored env c sid wid w o l s1 w1 Hh Hget Hl Hrun)
    as (o1 & l1 & Hh1 & Hget1 & Hl1 & Hs1 & Hyes & Hno).
  assert (Hinc1 : StudentsManager.includes l1 wid = true).
  { destruct (StudentsManager.includes l wid) eqn:Hinc.
    - now destruct (Hyes eq_refl) as (-> & _).
    - rewrite (Hno eq_refl). now apply includes_app_same. }
  exists l1, o1. split; [exact Hs1|]. split; [exact Hinc1|]. split; [|split; [|split]].
  - destruct (StudentsManager.includes l wid); [now destruct (Hyes eq_refl)|now apply Hno].
  - intros Hinc. now destruct (Hyes Hinc) as (_ & -> & _).
  - rewrite (assignWorkout_run env c sid wid w1 o1 l1 Hget1 Hl1). now rewrite Hinc1.
  - exact Hl1.
Qed.

Lemma assignWorkout_idempotent_witness :
  let w := students_world in
  let o := added env_offline "students" (VNum 1) carla in
  let w1 := (StudentsManager.assignWorkout env_offline DbV3 (VNum 1) (VNum 7) w).2 in
  exists l1 s2,
    assigned (<["assignedWorkouts" := VArr [VNum 7]]> o) = Some l1 /\
    StudentsManager.includes l1 (VNum 7) = true /\
    (l1 = if StudentsManager.includes [] (VNum 7) then [] else [] ++ [VNum 7]) /\
    (StudentsManager.includes [] (VNum 7) = true -> w1 = w) /\
    StudentsManager.assignWorkout env_offline DbV3 (VNum 1) (VNum 7) w1
      = (Ok (VObj s2), w1) /\
    assigned s2 = Some l1.
Proof.
  apply (assignWorkout_idempotent env_offline DbV3 (VNum 1) (VNum 7) students_world
           (added env_offline "students" (VNum 1) carla) []
           (<["assignedWorkouts" := VArr [VNum 7]]>
              (added env_offline "students" (VNum 1) carla))).
  - vm_compute; reflexivity.
  - reflexivity.
  - vm_compute; reflexivity.
  - vm_compute; reflexivity.
  - vm_compute; reflexivity.
Defined.

(** X21. Removing a workout after assigning it gives the list the
    student had before, without that workout.  For a student whose
    [assignedWorkouts] is missing or an array, and a workout id that is a
    number or a string: when [assignWorkout] and then [removeWorkout]
    resolve, the student returned and the student stored carry the
    original list filtered by [id !== workoutId], the other ids in their
    order, and the list no longer includes the workout. *)
Theorem assign_then_remove env c sid wid w o l s1 w1 s3 w2 :
  db_handle w = true -> primitive wid ->
  Database.get c "students" sid w = (Ok (VObj o), w) ->
  assigned o = Some l ->
  StudentsManager.assignWorkout env c sid wid w = (Ok (VObj s1), w1) ->
  StudentsManager.removeWorkout env c sid wid w1 = (Ok (VObj s3), w2) ->
  let rest := List.filter (fun id => negb (StudentsManager.strict_eq id wid)) l in
  assigned s3 = Some rest /\
  StudentsManager.includes rest wid = false /\
  (forall id, id ∈ l -> StudentsManager.strict_eq id wid = false -> id ∈ rest) /\
  exists o3, Database.get c "students" sid w2 = (Ok (VObj o3), w2) /\
             assigned o3 = Some rest.
Proof.
  intros Hh Hprim Hget Hl Hrun Hrem. cbn zeta.
  destruct (assignWorkout_stored env c sid wid w o l s1 w1 Hh Hget Hl Hrun)
    as (o1 & l1 & Hh1 & Hget1 & Hl1 & _ & Hyes & Hno).
  assert (Hfil : List.filter (fun id => negb (StudentsManager.strict_eq id wid)) l1
                 = List.filter (fun id => negb (StudentsManager.strict_eq id wid)) l).
  { destruct (StudentsManager.includes l wid) eqn:Hinc.
    - now destruct (Hyes eq_refl) as (-> & _).
    - rewrite (Hno eq_refl). now apply filter_app_same. }
  rewrite (removeWorkout_run env c sid wid w1 o1 l1 Hget1 Hl1) in Hrem.
  assert (Hid : <["assignedWorkouts" :=
                    VArr (List.filter (fun id => negb (StudentsManager.strict_eq id wid)) l1)]>
                  o1 !! "id" = o1 !! "id")
    by (now rewrite lookup_insert_ne by discriminate).
  destruct (updateStudent_stored env c sid w1 o1 _ _ w2 Hh1 Hget1 Hid (or_intror Hrem))
    as (Hr & Hh2 & Hget2).
  injection Hr as ->. rewrite Hfil in *.
  split; [apply assigned_insert|]. split; [apply includes_filter|]. split.
  - intros id Hin Hne. apply list_elem_of_In, List.filter_In. split.
    + now apply list_elem_of_In.
    + now rewrite Hne.
  - eexists. split; [exact Hget2|]. now rewrite assigned_updated, assigned_insert.
Qed.

Lemma assign_then_remove_witness :
  let w := (StudentsManager.assignWorkout env_offline DbV3 (VNum 1) (VNum 7)
              students_world).2 in
  let o := updated env_offline "students" (VNum 1)
             (<["assignedWorkouts" := VArr [VNum 7]]>
                (added env_offline "students" (VNum 1) carla)) in
  let w1 := (StudentsManager.assignWorkout env_offline DbV3 (VNum 1) (VNum 9) w).2 in
  let w2 := (StudentsManager.removeWorkout env_offline DbV3 (VNum 1) (VNum 9) w1).2 in
  let rest :=
    List.filter (fun id => negb (StudentsManager.strict_eq id (VNum 9))) [VNum 7] in
  assigned (<["assignedWorkouts" := VArr rest]>
              (updated env_offline "students" (VNum 1)
                 (<["assignedWorkouts" := VArr [VNum 7; VNum 9]]> o))) = Some rest /\
  StudentsManager.includes rest (VNum 9) = false /\
  (forall id, id ∈ [VNum 7] -> StudentsManager.strict_eq id (VNum 9) = false ->
              id ∈ rest) /\
  exists o3, Database.get DbV3 "students" (VNum 1) w2 = (Ok (VObj o3), w2) /\
             assigned o3 = Some rest.
Proof.
  apply (assign_then_remove env_offline DbV3 (VNum 1) (VNum 9)
           (StudentsManager.assignWorkout env_offline DbV3 (VNum 1) (VNum 7)
              students_world).2
           (updated env_offline "students" (VNum 1)
              (<["assignedWorkouts" := VArr [VNum 7]]>
                 (added env_offline "students" (VNum 1) carla)))
           [VNum 7]
           (<["assignedWorkouts" := VArr [VNum 7; VNum 9]]>
              (updated env_offline "students" (VNum 1)
                 (<["assignedWorkouts" := VArr [VNum 7]]>
                    (added env_offline "students" (VNum 1) carla))))
           (StudentsManager.assignWorkout env_offline DbV3 (VNum 1) (VNum 9)
              (StudentsManager.assignWorkout env_offline DbV3 (VNum 1) (VNum 7)
                 students_world).2).2).
  - vm_compute; reflexivity.
  - reflexivity.
  - vm_compute; reflexivity.
  - vm_compute; reflexivity.
  - vm_compute; reflexivity.
  - vm_compute; reflexivity.
Defined.

(** ** Seeding the exercise catalogue *)

Lemma adapter_getAll_local cenv c store w :
  useFirebase w = false ->
  DbAdapterRest.getAll cenv c store w = Database.getAll c store w.
Proof.
  intros Hu. unfold DbAdapterRest.getAll, DbAdapter.getDB, bind, get_world.
  now rewrite Hu.
Qed.

Lemma seedDatabase_flags env cenv c fetched w r w' :
  App.seedDatabase env cenv c fetched w = (r, w') -> r = Ok tt /\ same_mode w w'.
Proof.
  unfold App.seedDatabase, try_catch.
  destruct ((let* exercises := DbAdapterRest.getAll cenv c "exercises" in _) w)
    as [[[]|e] w1] eqn:Hbody.
  2:{ unfold console_error, modify. intros [= <- <-]. split; [reflexivity|].
      revert Hbody. unfold bind.
      destruct (DbAdapterRest.getAll cenv c "exercises" w) as [[exs|e'] w2] eqn:Hg.
      - assert (Hm : same_mode w w2).
        { revert Hg. unfold DbAdapterRest.getAll, bind, get_world.
          destruct (DbAdapter.getDB w); [apply Database_getAll_flags|].
          unfold FirebaseDBRest.getAll, bind, tick, ret, throw.
          destruct (cloud_getDocs cenv (ticks w) "exercises" None);
            intros [= _ <-]; repeat split. }
        destruct (0 <? length exs)%nat; [discriminate|].
        destruct fetched as [e0|[|d data]].
        + intros [= _ <-]. exact Hm.
        + discriminate.
        + intros Hloop. cbn. transitivity w2; [exact Hm|].
          eapply (for_each_rel same_mode) in Hloop; [exact Hloop|].
          intros x w3 r3 w4. unfold bind.
          destruct (DbAdapter.add env c "exercises" x w3) as [[v|e3] w5] eqn:Ha;
            intros [= _ <-]; exact (adapter_add_flags _ _ _ _ _ _ _ Ha).
      - intros [= _ <-]. revert Hg. unfold DbAdapterRest.getAll, bind, get_world.
        destruct (DbAdapter.getDB w); [apply Database_getAll_flags|].
        unfold FirebaseDBRest.getAll, bind, tick, ret, throw.
        destruct (cloud_getDocs cenv (ticks w) "exercises" None);
          intros [= _ <-]; repeat split. }
  intros [= <- <-]. split; [reflexivity|]. revert Hbody. unfold bind.
  destruct (DbAdapterRest.getAll cenv c "exercises" w) as [[exs|e'] w2] eqn:Hg;
    [|discriminate].
  assert (Hm : same_mode w w2).
  { revert Hg. unfold DbAdapterRest.getAll, bind, get_world.
    destruct (DbAdapter.getDB w); [apply Database_getAll_flags|].
    unfold FirebaseDBRest.getAll, bind, tick, ret, throw.
    destruct (cloud_getDocs cenv (ticks w) "exercises" None);
      intros [= _ <-]; repeat split. }
  destruct (0 <? length exs)%nat; [intros [= <-]; exact Hm|].
  destruct fetched as [e0|[|d data]].
  - discriminate.
  - unfold console_warn, modify. intros [= <-]. exact Hm.
  - intros Hloop. transitivity w2; [exact Hm|].
    eapply (for_each_rel same_mode) in Hloop; [exact Hloop|].
    intros x w3 r3 w4. unfold bind.
    destruct (DbAdapter.add env c "exercises" x w3) as [[v|e3] w5] eqn:Ha;
      intros [= _ <-]; exact (adapter_add_flags _ _ _ _ _ _ _ Ha).
Qed.

Lemma seedDatabase_nonempty env cenv c fetched w :
  useFirebase w = false -> db_handle w = true ->
  local_records w "exercises" <> [] ->
  App.seedDatabase env cenv c fetched w = (Ok tt, w).
Proof.
  intros Hu Hh Hne. unfold App.seedDatabase, try_catch, bind.
  rewrite (adapter_getAll_local cenv c "exercises" w Hu).
  unfold local_records in Hne. destruct (idb w !! "exercises") as [os|] eqn:Hs;
    [|congruence].
  rewrite (getAll_open c "exercises" w os Hh Hs).
  destruct (IDB.records "exercises" os); [congruence|reflexivity].
Qed.

(** X22. In local mode on an open Local Store, [seedDatabase] always
    resolves, and it writes only into an empty exercise store: if the
    store holds at least one exercise the call changes nothing, whatever
    the fetched file contains.  A seed that stopped after storing part of
    the catalogue is therefore never completed: every later call leaves
    the store as the first one left it. *)
Theorem seed_is_not_resumed env cenv c fetched w :
  useFirebase w = false -> db_handle w = true ->
  exists w1,
    App.seedDatabase env cenv c fetched w = (Ok tt, w1) /\
    (local_records w "exercises" <> [] -> w1 = w) /\
    (local_records w1 "exercises" <> [] ->
     forall env' cenv' fetched',
       App.seedDatabase env' cenv' c fetched' w1 = (Ok tt, w1)).
Proof.
  intros Hu Hh.
  destruct (App.seedDatabase env cenv c fetched w) as [r w1] eqn:Hrun.
  destruct (seedDatabase_flags _ _ _ _ _ _ _ Hrun) as (-> & Hh1 & Hu1 & _).
  exists w1. split; [reflexivity|]. split.
  - intros Hne. rewrite (seedDatabase_nonempty env cenv c fetched w Hu Hh Hne) in Hrun.
    now injection Hrun as <-.
  - intros Hne env' cenv' fetched'. apply seedDatabase_nonempty; congruence.
Qed.

Lemma seed_is_not_resumed_witness :
  exists w1,
    App.seedDatabase env_offline cenv_up DbV3 (inr [supino; supino; agachamento])
      fresh_world = (Ok tt, w1) /\
    (local_records fresh_world "exercises" <> [] -> w1 = fresh_world) /\
    (local_records w1 "exercises" <> [] ->
     forall env' cenv' fetched',
       App.seedDatabase env' cenv' DbV3 fetched' w1 = (Ok tt, w1)).
Proof.
  apply (seed_is_not_resumed env_offline cenv_up DbV3
           (inr [supino; supino; agachamento]) fresh_world).
  - vm_compute; reflexivity.
  - vm_compute; reflexivity.
Defined.

(** The seed of the witness stops at the repeated exercise: one exercise
    is stored, the error is logged, and a second run with the missing
    exercise stores nothing. *)
Example seed_stops_at_first_failure :
  let w1 := (App.seedDatabase env_offline cenv_up DbV3
               (inr [supino; supino; agachamento]) fresh_world).2 in
  (fun o => o !! "id") <$> local_records w1 "exercises" = [Some (VNum 1)] /\
  console w1 = console fresh_world ++ [Error "[Seed] Error:" (Some ConstraintError)] /\
  App.seedDatabase env_offline cenv_up DbV3 (inr [agachamento]) w1 = (Ok tt, w1).
Proof. by_evaluation. Qed.

End DomainFacts.
